(** * CouncilWebApp: the service worker and the Leaflet interop wrappers

    A shallow embedding of [service-worker.js], of [js/pwa-helper.js] and
    of the four Leaflet wrappers of the repository, followed by the
    properties of the specification that concern them.

    The browser platform (Cache Storage, [fetch], the console) and the
    Leaflet library are not part of the repository: they are modelled as
    explicit worlds that the embedded functions read and update. *)

From Stdlib Require Import String Ascii List ZArith Bool Lia DecimalString.
From Stdlib Require Import ZifyNat.
Import ListNotations.
Open Scope string_scope.
Open Scope bool_scope.

(** ** JavaScript string methods used by the sources *)

Module JSString.

(** [s.startsWith(p)] *)
Definition startsWith (s p : string) : bool := String.prefix p s.

(** [s.endsWith(suffix)]: [s] is the suffix, or its tail ends with it. *)
Fixpoint endsWith (s suffix : string) : bool :=
  (s =? suffix) ||
  match s with
  | EmptyString => false
  | String _ rest => endsWith rest suffix
  end.

(** [s.includes(sub)]: [sub] starts at some position of [s]. *)
Fixpoint includes (s sub : string) : bool :=
  String.prefix sub s ||
  match s with
  | EmptyString => false
  | String _ rest => includes rest sub
  end.

Fixpoint drop_until (stop : ascii -> bool) (s : string) : string :=
  match s with
  | EmptyString => EmptyString
  | String c rest => if stop c then s else drop_until stop rest
  end.

Fixpoint take_until (stop : ascii -> bool) (s : string) : string :=
  match s with
  | EmptyString => EmptyString
  | String c rest => if stop c then EmptyString else String c (take_until stop rest)
  end.

(** The text that follows the first ["://"] of a URL. *)
Fixpoint after_scheme (u : string) : string :=
  if String.prefix "://" u then String.substring 3 (String.length u - 3) u
  else match u with
       | EmptyString => EmptyString
       | String _ rest => after_scheme rest
       end.

Definition is_path_start (c : ascii) : bool :=
  Ascii.eqb c "/" || Ascii.eqb c "?" || Ascii.eqb c "#".

Definition is_path_end (c : ascii) : bool :=
  Ascii.eqb c "?" || Ascii.eqb c "#".

(** [new URL(u).pathname] for a serialized http(s) URL, which is what
    [request.url] always holds: the text from the first ["/"] after the
    authority up to the query or fragment, ["/"] when there is none. *)
Definition pathname_of (u : string) : string :=
  let p := take_until is_path_end (drop_until is_path_start (after_scheme u)) in
  if p =? "" then "/" else p.

End JSString.

(** ** JavaScript objects used as string-keyed maps

    The own properties of an object, in insertion order.  (Keys that are
    canonical array indices, which JavaScript enumerates first, are not
    told apart: the identifiers the wrappers generate are never such.) *)

Module JSObject.

Section Props.
Context {V : Type}.

(** [o[key]] *)
Fixpoint lookup (key : string) (o : list (string * V)) : option V :=
  match o with
  | [] => None
  | (k, v) :: rest => if k =? key then Some v else lookup key rest
  end.

(** [o[key] = v]: an existing property keeps its place. *)
Fixpoint assign (key : string) (v : V) (o : list (string * V)) : list (string * V) :=
  match o with
  | [] => [(key, v)]
  | (k, v0) :: rest =>
      if k =? key then (k, v) :: rest else (k, v0) :: assign key v rest
  end.

(** [delete o[key]] *)
Definition remove (key : string) (o : list (string * V)) : list (string * V) :=
  filter (fun kv => negb (fst kv =? key)) o.

(** [{ ...a, ...b }] *)
Definition spread (a b : list (string * V)) : list (string * V) :=
  fold_left (fun acc kv => assign (fst kv) (snd kv) acc) b a.

Definition keys (o : list (string * V)) : list string := map fst o.
Definition values (o : list (string * V)) : list V := map snd o.
End Props.

(** The names every object inherits from [Object.prototype]: [o[name]]
    finds a member of the prototype under them when [o] has no property
    of its own of that name.  [lookup] reads the own properties only:
    it is [o[key]] for every key outside these names. *)
Definition OBJECT_PROTOTYPE : list string :=
  ["constructor"; "__proto__"; "hasOwnProperty"; "isPrototypeOf";
   "propertyIsEnumerable"; "toLocaleString"; "toString"; "valueOf";
   "__defineGetter__"; "__defineSetter__"; "__lookupGetter__"; "__lookupSetter__"].

Definition inherited (key : string) : bool :=
  existsb (String.eqb key) OBJECT_PROTOTYPE.

End JSObject.

(** ** The service worker, [src/service-worker.js] *)

Module SW.
Import JSString.

Definition CACHE_NAME : string := "council-app-v1.0.0".
Definition RUNTIME_CACHE : string := "council-app-runtime".
Definition OFFLINE_URL : string := "/offline.html".

(** [CACHE_STRATEGIES] *)
Inductive Strategy : Type :=
| CACHE_FIRST
| NETWORK_FIRST
| STALE_WHILE_REVALIDATE
| NETWORK_ONLY
| CACHE_ONLY.

Definition strategy_name (s : Strategy) : string :=
  match s with
  | CACHE_FIRST => "cache-first"
  | NETWORK_FIRST => "network-first"
  | STALE_WHILE_REVALIDATE => "stale-while-revalidate"
  | NETWORK_ONLY => "network-only"
  | CACHE_ONLY => "cache-only"
  end.

Record Request : Type := mkRequest {
  url : string;
  method : string;
  mode : string
}.

Record Response : Type := mkResponse {
  status : Z;
  statusText : string;
  body : string
}.

(** *** Cache Storage

    A cache is a list of entries in insertion order; the storage is the
    list of named caches in creation order.  A cache takes GET requests
    over http(s) only: [put] rejects every other request, and [match] and
    [delete] find nothing for a request whose method is not GET.
    Responses carry no headers here, so that no [Vary] header tells two
    entries of one URL apart. *)

Definition Cache : Type := list (Request * Response).
Definition CacheStorage : Type := list (string * Cache).

Definition same_request (a b : Request) : bool :=
  (url a =? url b) && (method a =? method b).

Definition is_get (r : Request) : bool := method r =? "GET".

(** Whether [cache.put] takes the request. *)
Definition storable (r : Request) : bool :=
  is_get r && (startsWith (url r) "http://" || startsWith (url r) "https://").

(** The keys of a cache are GET requests, since [put] and [addAll] take
    no other. *)
Definition get_only (c : Cache) : bool := forallb (fun e => is_get (fst e)) c.

Definition cache_match (c : Cache) (r : Request) : option Response :=
  if is_get r then option_map snd (find (fun e => same_request (fst e) r) c)
  else None.

(** [caches.match(r)]: the first cache, in creation order, with a match. *)
Fixpoint storage_match (cs : CacheStorage) (r : Request) : option Response :=
  match cs with
  | [] => None
  | (_, c) :: rest =>
      match cache_match c r with
      | Some resp => Some resp
      | None => storage_match rest r
      end
  end.

Definition storage_get (name : string) (cs : CacheStorage) : option Cache :=
  option_map snd (find (fun e => fst e =? name) cs).

Definition storage_has (name : string) (cs : CacheStorage) : bool :=
  existsb (fun e => fst e =? name) cs.

(** [caches.open(name)] creates the cache when it does not exist. *)
Definition storage_open (name : string) (cs : CacheStorage) : CacheStorage :=
  if storage_has name cs then cs else (cs ++ [(name, [])])%list.

Definition storage_update (name : string) (f : Cache -> Cache)
    (cs : CacheStorage) : CacheStorage :=
  map (fun e => if fst e =? name then (fst e, f (snd e)) else e) cs.

Definition storage_delete (name : string) (cs : CacheStorage) : CacheStorage :=
  filter (fun e => negb (fst e =? name)) cs.

(** [cache.put] replaces the entry of the same key. *)
Definition cache_put (r : Request) (resp : Response) (c : Cache) : Cache :=
  (filter (fun e => negb (same_request (fst e) r)) c ++ [(r, resp)])%list.

(** [cache.delete] deletes nothing for a request that is not a GET. *)
Definition cache_delete (r : Request) (c : Cache) : Cache :=
  if is_get r then filter (fun e => negb (same_request (fst e) r)) c else c.

(** *** The worker's world *)

(** The platform calls a handler makes, in order. *)
Inductive Call : Type :=
| CallMatch (r : Request)
| CallFetch (r : Request)
| CallOpen (name : string)
| CallPut (name : string) (r : Request) (resp : Response)
| CallCacheKeys (name : string)
| CallCacheDelete (name : string) (r : Request)
| CallKeys
| CallDelete (name : string)
| CallClaim.

Record World : Type := mkWorld {
  storage : CacheStorage;
  trace : list Call;
  console : list string
}.

(** What a handler cannot control: the origin of the worker, the outcome
    of a network fetch ([None] when [fetch] rejects), and what the other
    event handlers do to the cache storage while this one is suspended
    on its fetch (the identity when it runs alone). *)
Record Env : Type := mkEnv {
  origin : string;
  net : Request -> option Response;
  concurrent : CacheStorage -> CacheStorage
}.

Definition isolated (env : Env) : Prop :=
  forall cs, concurrent env cs = cs.

Definition SWM (A : Type) : Type := World -> A * World.

Definition ret {A} (a : A) : SWM A := fun w => (a, w).

Definition bind {A B} (m : SWM A) (k : A -> SWM B) : SWM B :=
  fun w => let (a, w') := m w in k a w'.

Notation "x <- m ;; k" := (bind m (fun x => k))
  (at level 61, m at next level, right associativity).
Notation "m ;;; k" := (bind m (fun _ => k))
  (at level 61, right associativity).

Definition called (c : Call) (w : World) : World :=
  mkWorld (storage w) (trace w ++ [c])%list (console w).

Definition with_storage (f : CacheStorage -> CacheStorage) (w : World) : World :=
  mkWorld (f (storage w)) (trace w) (console w).

Definition console_log (msg : string) : SWM unit :=
  fun w => (tt, mkWorld (storage w) (trace w) (console w ++ [msg])%list).

Definition caches_match (r : Request) : SWM (option Response) :=
  fun w => (storage_match (storage w) r, called (CallMatch r) w).

(** [caches.match(OFFLINE_URL)]: a string is resolved against the origin
    into a GET request. *)
Definition request_of (env : Env) (path : string) : Request :=
  mkRequest (origin env ++ path) "GET" "cors".

Definition fetch (env : Env) (r : Request) : SWM (option Response) :=
  fun w => (net env r, with_storage (concurrent env) (called (CallFetch r) w)).

Definition caches_open (name : string) : SWM string :=
  fun w => (name, with_storage (storage_open name) (called (CallOpen name) w)).

(** [cache.put(r, resp)]; the result tells whether the promise fulfilled:
    it rejects, storing nothing, for a request the cache does not take. *)
Definition cache_put_in (cache : string) (r : Request) (resp : Response) : SWM bool :=
  fun w =>
    if storable r then
      (true, with_storage (storage_update cache (cache_put r resp))
               (called (CallPut cache r resp) w))
    else (false, called (CallPut cache r resp) w).


(** [cache.delete(r)] *)
Definition cache_delete_in (cache : string) (r : Request) : SWM unit :=
  fun w => (tt, with_storage (storage_update cache (cache_delete r))
                  (called (CallCacheDelete cache r) w)).

Definition caches_keys : SWM (list string) :=
  fun w => (map fst (storage w), called CallKeys w).

Definition caches_delete (name : string) : SWM unit :=
  fun w => (tt, with_storage (storage_delete name) (called (CallDelete name) w)).

Definition clients_claim : SWM unit :=
  fun w => (tt, called CallClaim w).

(** [new Response('Offline', { status: 503, statusText: 'Service Unavailable' })] *)
Definition offline_503 : Response :=
  mkResponse 503 "Service Unavailable" "Offline".

(** *** [getCachingStrategy] *)

Definition STATIC_EXTENSIONS : list string :=
  ["css"; "js"; "png"; "jpg"; "jpeg"; "gif"; "svg"; "woff"; "woff2"; "ttf"; "eot"].

(** [pathname.match(/\.(css|js|png|jpg|jpeg|gif|svg|woff|woff2|ttf|eot)$/)]:
    at some position there is a dot, followed by one of the alternatives,
    followed by the end of the input. *)
Fixpoint matches_static (pathname : string) : bool :=
  match pathname with
  | EmptyString => false
  | String c rest =>
      (Ascii.eqb c "." && existsb (String.eqb rest) STATIC_EXTENSIONS)
      || matches_static rest
  end.

Definition getCachingStrategy (request : Request) : Strategy :=
  let pathname := pathname_of (url request) in
  if matches_static pathname then CACHE_FIRST
  else if startsWith pathname "/_framework/" then CACHE_FIRST
  else if startsWith pathname "/_content/" then CACHE_FIRST
  else if startsWith pathname "/api/" then NETWORK_FIRST
  else if endsWith pathname "/" || endsWith pathname ".html" then NETWORK_FIRST
  else NETWORK_FIRST.

(** *** The strategy executors *)

(** [if (networkResponse && networkResponse.status === 200) { ... put ... }];
    the result is [false] when the promise of [cache.put] rejects. *)
Definition store_if_ok (request : Request) (networkResponse : Response) : SWM bool :=
  if (status networkResponse =? 200)%Z then
    cache <- caches_open RUNTIME_CACHE ;;
    cache_put_in cache request networkResponse
  else ret true.

(** In [cacheFirst] and [networkFirst] the promise of [cache.put] is not
    awaited: its rejection reaches nobody. *)
Definition cacheFirst (env : Env) (request : Request) : SWM Response :=
  cachedResponse <- caches_match request ;;
  match cachedResponse with
  | Some cached => ret cached
  | None =>
      fetched <- fetch env request ;;
      match fetched with
      | Some networkResponse =>
          store_if_ok request networkResponse ;;;
          ret networkResponse
      | None =>
          console_log "[ServiceWorker] Fetch failed for cache-first:" ;;;
          ret offline_503
      end
  end.

Definition networkFirst (env : Env) (request : Request) : SWM Response :=
  fetched <- fetch env request ;;
  match fetched with
  | Some networkResponse =>
      store_if_ok request networkResponse ;;;
      ret networkResponse
  | None =>
      console_log "[ServiceWorker] Network failed, trying cache:" ;;;
      cachedResponse <- caches_match request ;;
      match cachedResponse with
      | Some cached => ret cached
      | None =>
          if mode request =? "navigate" then
            offlineResponse <- caches_match (request_of env OFFLINE_URL) ;;
            match offlineResponse with
            | Some offline => ret offline
            | None => ret offline_503
            end
          else ret offline_503
      end
  end.

(** The promise [fetchPromise] is created, and so the fetch issued,
    whatever the lookup gave.  Its [then] callback awaits [cache.put], so
    that a rejection of the fetch or of the put reaches its [catch],
    which resolves to the variable [cachedResponse].  The result is
    [cachedResponse || fetchPromise]; [None] stands for [undefined]. *)
Definition staleWhileRevalidate (env : Env) (request : Request)
    : SWM (option Response) :=
  cachedResponse <- caches_match request ;;
  fetched <- fetch env request ;;
  fetchPromise <-
    match fetched with
    | Some networkResponse =>
        stored <- store_if_ok request networkResponse ;;
        if (stored : bool) then ret (Some networkResponse) else ret cachedResponse
    | None => ret cachedResponse
    end ;;
  ret (match cachedResponse with
       | Some cached => Some cached
       | None => fetchPromise
       end).

(** *** The activate listener *)

Fixpoint delete_old (names : list string) : SWM unit :=
  match names with
  | [] => ret tt
  | cacheName :: rest =>
      console_log ("[ServiceWorker] Deleting old cache: " ++ cacheName) ;;;
      caches_delete cacheName ;;;
      delete_old rest
  end.

Definition is_old (cacheName : string) : bool :=
  negb (cacheName =? CACHE_NAME) && negb (cacheName =? RUNTIME_CACHE).

Definition activate : SWM unit :=
  console_log "[ServiceWorker] Activating..." ;;;
  cacheNames <- caches_keys ;;
  delete_old (filter is_old cacheNames) ;;;
  clients_claim.

(** *** Background sync *)

Definition is_pending (request : Request) : bool :=
  includes (url request) "/api/" && negb (method request =? "GET").

Fixpoint sync_requests (env : Env) (cache : string) (requests : list Request)
    : SWM unit :=
  match requests with
  | [] => ret tt
  | request :: rest =>
      (if is_pending request then
         fetched <- fetch env request ;;
         match fetched with
         | Some _ => cache_delete_in cache request
         | None => console_log "[ServiceWorker] Failed to sync request:"
         end
       else ret tt) ;;;
      sync_requests env cache rest
  end.



(** The [CLEAR_CACHE] message: every cache is deleted. *)
Fixpoint delete_each (names : list string) : SWM unit :=
  match names with
  | [] => ret tt
  | cacheName :: rest => caches_delete cacheName ;;; delete_each rest
  end.

Definition onMessageClearCache : SWM unit :=
  console_log "[ServiceWorker] Message received:" ;;;
  cacheNames <- caches_keys ;;
  delete_each cacheNames.

(** *** Observations used in the statements *)



Definition succeeds (env : Env) (request : Request) : bool :=
  match net env request with
  | Some _ => true
  | None => false
  end.

(** The platform calls one key of the runtime cache gives rise to in
    [syncData]. *)
Definition replayed (env : Env) (request : Request) : list Call :=
  if is_pending request then
    CallFetch request ::
    (if succeeds env request then [CallCacheDelete RUNTIME_CACHE request] else [])
  else [].



(** Every cache of the storage has GET keys only. *)
Definition storage_get_only (cs : CacheStorage) : bool :=
  forallb (fun e => get_only (snd e)) cs.

(** *** The install listener *)

Definition PRECACHE_ASSETS : list string :=
  ["/"; "/index.html"; "/css/app.css"; "/lib/bootstrap/dist/css/bootstrap.min.css";
   "/favicon.png"; "/icon-192.png"; "/manifest.json"; "/offline.html";
   "/_framework/blazor.webassembly.js"].

(** [response.ok] *)
Definition ok_status (resp : Response) : bool :=
  ((200 <=? status resp) && (status resp <=? 299))%Z.

(** The responses [cache.addAll] collects: all of them, or nothing when
    one fetch throws or answers outside 200-299. *)
Fixpoint fetch_all (env : Env) (requests : list Request)
    : option (list (Request * Response)) :=
  match requests with
  | [] => Some []
  | r :: rest =>
      match net env r with
      | Some resp =>
          if ok_status resp then
            option_map (cons (r, resp)) (fetch_all env rest)
          else None
      | None => None
      end
  end.

Definition put_all (entries : list (Request * Response)) (c : Cache) : Cache :=
  fold_left (fun c e => cache_put (fst e) (snd e) c) entries c.

(** [cache.addAll(urls)]: every URL is requested; the entries are put
    only when every response is there and ok, and the promise rejects
    otherwise.  The result tells whether it fulfilled. *)
Definition cache_addAll (env : Env) (cache : string) (urls : list string) : SWM bool :=
  fun w =>
    let requests := map (request_of env) urls in
    let w1 := mkWorld (storage w) (trace w ++ map CallFetch requests)%list (console w) in
    match fetch_all env requests with
    | Some entries =>
        (true,
         mkWorld (storage_update cache (put_all entries) (storage w1))
                 (trace w1 ++ map (fun e => CallPut cache (fst e) (snd e)) entries)%list
                 (console w1))
    | None => (false, w1)
    end.

(** How the promise given to [event.waitUntil] of the install event ends:
    after [self.skipWaiting()], or rejected before reaching it. *)
Inductive InstallOutcome : Type := SkippedWaiting | InstallRejected.

Definition install (env : Env) : SWM InstallOutcome :=
  console_log "[ServiceWorker] Installing..." ;;;
  cache <- caches_open CACHE_NAME ;;
  console_log "[ServiceWorker] Precaching app shell" ;;;
  added <- cache_addAll env cache PRECACHE_ASSETS ;;
  if (added : bool) then ret SkippedWaiting else ret InstallRejected.

(** *** The fetch listener *)

(** [new URL(u).origin] for a serialized http(s) URL: the URL without its
    path, query and fragment. *)
Definition origin_of (u : string) : string :=
  let tail := drop_until is_path_start (after_scheme u) in
  String.substring 0 (String.length u - String.length tail) u.

(** What the listener does with the event: it returns without calling
    [respondWith], or it responds with a promise that settles to a
    response, or to nothing ([undefined], or a rejection). *)
Inductive FetchHandling : Type :=
| NotHandled
| RespondedWith (response : option Response).

Definition onFetch (env : Env) (request : Request) : SWM FetchHandling :=
  if negb (origin_of (url request) =? origin env) then ret NotHandled
  else if negb (startsWith (url request) "http") then ret NotHandled
  else
    match getCachingStrategy request with
    | CACHE_FIRST =>
        response <- cacheFirst env request ;; ret (RespondedWith (Some response))
    | NETWORK_FIRST =>
        response <- networkFirst env request ;; ret (RespondedWith (Some response))
    | STALE_WHILE_REVALIDATE =>
        response <- staleWhileRevalidate env request ;; ret (RespondedWith response)
    | NETWORK_ONLY =>
        response <- fetch env request ;; ret (RespondedWith response)
    | CACHE_ONLY =>
        response <- caches_match request ;; ret (RespondedWith response)
    end.

(** *** The message listener *)

(** [event.data], as far as the listener reads it. *)
Inductive Message : Type :=
| NoData
| SKIP_WAITING
| CACHE_URLS (urls : list string)
| CLEAR_CACHE
| OtherType (type : string).

(** The result tells whether [self.skipWaiting()] was called. *)
Definition onMessage (env : Env) (data : Message) : SWM bool :=
  console_log "[ServiceWorker] Message received:" ;;;
  match data with
  | SKIP_WAITING => ret true
  | CACHE_URLS urls =>
      cache <- caches_open RUNTIME_CACHE ;;
      cache_addAll env cache urls ;;;
      ret false
  | CLEAR_CACHE =>
      cacheNames <- caches_keys ;;
      delete_each cacheNames ;;;
      ret false
  | NoData | OtherType _ => ret false
  end.

(** *** The push listener *)

(** A value [JSON.parse] gives.  Of a number only its literal is kept,
    with whether it is zero, which is all a condition asks of it. *)
#[warnings="-register-all"] Inductive Json : Type :=
| JNull
| JBool (b : bool)
| JNumber (zero : bool) (literal : string)
| JString (text : string)
| JArray (items : list Json)
| JObject (fields : list (string * Json)).

(** A value used as a condition. *)
Definition truthy (v : Json) : bool :=
  match v with
  | JNull => false
  | JBool b => b
  | JNumber zero _ => negb zero
  | JString text => negb (text =? "")
  | JArray _ | JObject _ => true
  end.

(** [data.name] for a value that is not [null], and a name that no
    prototype defines: [None] stands for [undefined]. *)
Definition member (name : string) (data : Json) : option Json :=
  match data with
  | JObject fields => JSObject.lookup name fields
  | _ => None
  end.

(** [value || fallback] *)
Definition or_value (value : option Json) (fallback : Json) : Json :=
  match value with
  | Some v => if truthy v then v else fallback
  | None => fallback
  end.

(** [event.data]: absent, or a text with what [event.data.json()] makes
    of it, [None] when it throws. *)
Inductive PushData : Type :=
| NoPushData
| PushText (text : string) (parsed : option Json).

(** The arguments of [showNotification]; [n_data] is [None] for
    [undefined]. *)
Record Notification : Type := mkNotification {
  n_title : Json;
  n_body : Json;
  n_icon : Json;
  n_badge : Json;
  n_tag : Json;
  n_requireInteraction : Json;
  n_data : option Json;
  n_actions : list (string * string)
}.

(** [value || fallback] for a string or [undefined]. *)
Definition or_else (value : option string) (fallback : string) : string :=
  match value with
  | Some text => if text =? "" then fallback else text
  | None => fallback
  end.

Definition default_notification : Notification :=
  mkNotification (JString "Council App Notification")
                 (JString "You have a new notification")
                 (JString "/icon-192.png") (JString "/icon-192.png")
                 (JString "council-notification") (JBool false) None
                 [("view", "View"); ("dismiss", "Dismiss")].

(** The [catch] branch: only the body is replaced. *)
Definition text_notification (text : string) : Notification :=
  let d := default_notification in
  mkNotification (n_title d) (JString text) (n_icon d) (n_badge d) (n_tag d)
                 (n_requireInteraction d) (n_data d) (n_actions d).

(** The notification given to [showNotification].  The payload [null]
    makes the first access, [data.title], throw inside the [try]. *)
Definition onPush (data : PushData) : Notification :=
  let d := default_notification in
  match data with
  | NoPushData => d
  | PushText text None | PushText text (Some JNull) => text_notification text
  | PushText text (Some payload) =>
      mkNotification (or_value (member "title" payload) (n_title d))
                     (or_value (member "body" payload) (n_body d))
                     (or_value (member "icon" payload) (n_icon d))
                     (or_value (member "badge" payload) (n_badge d))
                     (or_value (member "tag" payload) (n_tag d))
                     (or_value (member "requireInteraction" payload) (JBool false))
                     (Some (or_value (member "data" payload) (JObject [])))
                     (n_actions d)
  end.

(** *** The notificationclick listener *)

(** A window client: its URL and whether it has a [focus] method. *)
Record Client : Type := mkClient {
  client_url : string;
  can_focus : bool
}.

(** What the listener does to the windows. *)
Inductive WindowAction : Type :=
| CloseNotification
| Focus (client : Client)
| OpenWindow (target : string).

(** [for (let client of windowClients) { if (...) return client.focus(); }] *)
Fixpoint first_showing (target : string) (windowClients : list Client) : option Client :=
  match windowClients with
  | [] => None
  | client :: rest =>
      if (client_url client =? target) && can_focus client then Some client
      else first_showing target rest
  end.

(** [action] is [event.action], [target] is [event.notification.data?.url],
    [windowClients] what [clients.matchAll] gives and [can_open] whether
    [clients.openWindow] exists. *)
Definition onNotificationClick (action : string) (target : option string)
    (windowClients : list Client) (can_open : bool) : list WindowAction :=
  CloseNotification ::
  if action =? "view" then
    let urlToOpen := or_else target "/" in
    match first_showing urlToOpen windowClients with
    | Some client => [Focus client]
    | None => if can_open then [OpenWindow urlToOpen] else []
    end
  else [].

End SW.

(** ** The Leaflet library and the page, as the wrappers see them *)

Module Leaflet.

Inductive Level : Type := LOG | WARN | ERROR.

(** JavaScript numbers are only carried by the wrappers, never computed
    with: a number is kept as its decimal literal. *)
Definition number : Type := string.

(** What a wrapper function returns to the host. *)
Inductive Value : Type :=
| VUndefined
| VNull
| VBool (b : bool)
| VNum (n : Z)
| VStr (s : string)
| VObject (handle : nat).

(** *** GeoJSON and [JSON.stringify] *)

(** What [toGeoJSON()] of a layer returns, as far as the wrappers look
    at it: a feature collection with its features, or another object.
    Leaflet derives these objects from the layer; each is kept as its
    JSON text, what [JSON.stringify] makes of it. *)
Inductive GeoJson : Type :=
| GeoFeature (json : string)
| GeoFeatureCollection (features : list string).

Definition quote : string := String "034"%char EmptyString.

Definition jstr (s : string) : string := quote ++ s ++ quote.

Definition jfield (key value : string) : string := jstr key ++ ":" ++ value.

Definition jobject (fields : list string) : string :=
  "{" ++ String.concat "," fields ++ "}".

Definition jarray (items : list string) : string :=
  "[" ++ String.concat "," items ++ "]".

(** [JSON.stringify({ type: 'FeatureCollection', features: features })] *)
Definition collection_json (features : list string) : string :=
  jobject [jfield "type" (jstr "FeatureCollection");
           jfield "features" (jarray features)].

Definition stringify (g : GeoJson) : string :=
  match g with
  | GeoFeature json => json
  | GeoFeatureCollection features => collection_json features
  end.

(** [geoJson.type === 'FeatureCollection' ? geoJson.features : [geoJson]] *)
Definition features_of (g : GeoJson) : list string :=
  match g with
  | GeoFeature json => [json]
  | GeoFeatureCollection features => features
  end.

(** *** The world *)

(** An options object, with its values as text. *)
Definition Options : Type := list (string * string).

Record World : Type := mkWorld {
  console : list (Level * string);
  (** ids of the elements of the page *)
  document : list string;
  (** the map instances created and not yet removed, with their container *)
  live : list (nat * string);
  (** every object Leaflet created, with its kind and options *)
  objects : list (nat * (string * Options));
  (** (parent, layer): the layers currently on a map or in a group *)
  children : list (nat * nat);
  (** the next fresh object handle *)
  next : nat;
  (** whether the successive validating Leaflet calls throw *)
  faults : list bool;
  (** [Date.now()] *)
  now : Z;
  (** whether the Leaflet.heat plugin is loaded *)
  heat_plugin : bool;
  (** what [toGeoJSON()] of an object returns now, [None] for an object
      without that method *)
  geojson : nat -> option GeoJson
}.

(** No object exports anything. *)
Definition no_geojson : nat -> option GeoJson := fun _ => None.

Definition set_console (c : list (Level * string)) (w : World) : World :=
  mkWorld c (document w) (live w) (objects w) (children w) (next w)
          (faults w) (now w) (heat_plugin w) (geojson w).

Definition set_live (l : list (nat * string)) (w : World) : World :=
  mkWorld (console w) (document w) l (objects w) (children w) (next w)
          (faults w) (now w) (heat_plugin w) (geojson w).

Definition set_children (c : list (nat * nat)) (w : World) : World :=
  mkWorld (console w) (document w) (live w) (objects w) c (next w)
          (faults w) (now w) (heat_plugin w) (geojson w).

Definition set_faults (f : list bool) (w : World) : World :=
  mkWorld (console w) (document w) (live w) (objects w) (children w) (next w)
          f (now w) (heat_plugin w) (geojson w).

Definition allocate (kind : string) (options : Options) (w : World) : nat * World :=
  (next w,
   mkWorld (console w) (document w) (live w) ((next w, (kind, options)) :: objects w)
           (children w) (S (next w)) (faults w) (now w) (heat_plugin w) (geojson w)).

(** *** Effects: module state, world, exceptions *)

Inductive Outcome (A : Type) : Type :=
| Ret (a : A)
| Throw (error : string).
Arguments Ret {A} a.
Arguments Throw {A} error.

Definition Eff (St A : Type) : Type := St -> World -> Outcome A * St * World.

Section Monad.
Context {St : Type}.

Definition ret {A} (a : A) : Eff St A := fun s w => (Ret a, s, w).

Definition throw {A} (error : string) : Eff St A := fun s w => (Throw error, s, w).

Definition bind {A B} (m : Eff St A) (k : A -> Eff St B) : Eff St B :=
  fun s w =>
    match m s w with
    | (Ret a, s', w') => k a s' w'
    | (Throw e, s', w') => (Throw e, s', w')
    end.

(** [try { m } catch (error) { handler }]: what [m] did to the state
    and the world before it threw stays done. *)
Definition try_catch {A} (m : Eff St A) (handler : string -> Eff St A) : Eff St A :=
  fun s w =>
    match m s w with
    | (Ret a, s', w') => (Ret a, s', w')
    | (Throw e, s', w') => handler e s' w'
    end.

Definition get : Eff St St := fun s w => (Ret s, s, w).

Definition modify (f : St -> St) : Eff St unit := fun s w => (Ret tt, f s, w).

Definition lift {A} (f : World -> Outcome A * World) : Eff St A :=
  fun s w => let (o, w') := f w in (o, s, w').

(** [array.forEach(f)] *)
Fixpoint forEach {A} (f : A -> Eff St unit) (xs : list A) : Eff St unit :=
  match xs with
  | [] => ret tt
  | x :: rest => bind (f x) (fun _ => forEach f rest)
  end.

(** Using a variable that holds [null] as an object. *)
Definition deref (o : option nat) : Eff St nat :=
  match o with
  | Some h => ret h
  | None => throw "TypeError: Cannot read properties of null"
  end.
End Monad.

Notation "x <- m ;; k" := (bind m (fun x => k))
  (at level 61, m at next level, right associativity).
Notation "m ;;; k" := (bind m (fun _ => k))
  (at level 61, right associativity).

(** *** Leaflet calls *)

(** A call that validates its input or touches the page throws when the
    next entry of [faults] says so. *)
Definition validate (w : World) : Outcome unit * World :=
  match faults w with
  | true :: rest => (Throw "Error", set_faults rest w)
  | false :: rest => (Ret tt, set_faults rest w)
  | [] => (Ret tt, w)
  end.

Definition container_in_use (elementId : string) (w : World) : bool :=
  existsb (fun m => snd m =? elementId) (live w).

(** [L.map(elementId)] *)
Definition L_map (elementId : string) (w : World) : Outcome nat * World :=
  match validate w with
  | (Throw e, w1) => (Throw e, w1)
  | (Ret _, w1) =>
      if negb (existsb (String.eqb elementId) (document w1)) then
        (Throw "Map container not found.", w1)
      else if container_in_use elementId w1 then
        (Throw "Map container is already initialized.", w1)
      else
        let (h, w2) := allocate "map" [] w1 in
        (Ret h, set_live ((h, elementId) :: live w2) w2)
  end.

(** [map.setView(...)], [map.fitBounds(...)] *)
Definition move_view (m : nat) (w : World) : Outcome nat * World :=
  match validate w with
  | (Throw e, w1) => (Throw e, w1)
  | (Ret _, w1) => (Ret m, w1)
  end.

(** [map.remove()]: the instance is destroyed and its layers leave it. *)
Definition map_remove (m : nat) (w : World) : Outcome unit * World :=
  match validate w with
  | (Throw e, w1) => (Throw e, w1)
  | (Ret _, w1) =>
      (Ret tt,
       set_children (filter (fun c => negb (fst c =? m)%nat) (children w1))
         (set_live (filter (fun l => negb (fst l =? m)%nat) (live w1)) w1))
  end.

(** A constructor given data of the caller: [L.marker], [L.circle],
    [L.polygon], [L.polyline], [L.geoJSON], [L.heatLayer], [L.icon]. *)
Definition construct (kind : string) (options : Options) (w : World)
    : Outcome nat * World :=
  match validate w with
  | (Throw e, w1) => (Throw e, w1)
  | (Ret _, w1) => let (h, w2) := allocate kind options w1 in (Ret h, w2)
  end.

(** A constructor given constants: [L.tileLayer], [L.layerGroup],
    [L.control.scale]. *)
Definition construct_const (kind : string) (options : Options) (w : World)
    : Outcome nat * World :=
  let (h, w1) := allocate kind options w in (Ret h, w1).

(** [layer.addTo(parent)]; [parent] may be a variable holding [null]. *)
Definition addTo (layer : nat) (parent : option nat) (w : World)
    : Outcome nat * World :=
  match parent with
  | None => (Throw "TypeError: Cannot read properties of null", w)
  | Some p =>
      match validate w with
      | (Throw e, w1) => (Throw e, w1)
      | (Ret _, w1) => (Ret layer, set_children ((p, layer) :: children w1) w1)
      end
  end.

(** [layer.bindPopup(content)] only records the content. *)
Definition bindPopup (layer : nat) (content : string) (w : World)
    : Outcome unit * World :=
  (Ret tt, w).

(** [parent.removeLayer(layer)] only unregisters the layer. *)
Definition removeLayer (parent layer : nat) (w : World) : Outcome unit * World :=
  (Ret tt,
   set_children
     (filter (fun c => negb ((fst c =? parent)%nat && (snd c =? layer)%nat))
             (children w)) w).

(** [group.clearLayers()] *)
Definition clearLayers (group : nat) (w : World) : Outcome unit * World :=
  (Ret tt, set_children (filter (fun c => negb (fst c =? group)%nat) (children w)) w).

Definition console_write (level : Level) (msg : string) (w : World)
    : Outcome unit * World :=
  (Ret tt, set_console (console w ++ [(level, msg)])%list w).

Definition Date_now (w : World) : Outcome Z * World := (Ret (now w), w).

(** A string or [null], used as a condition. *)
Definition truthy (s : option string) : bool :=
  match s with
  | Some text => negb (text =? "")
  | None => false
  end.

(** The maps a wrapper created that are still alive. *)
Definition live_maps (w : World) : list nat := map fst (live w).

(** The world once [console.error('Map not initialized')] has run. *)
Definition logged_error (w : World) : World :=
  set_console (console w ++ [(ERROR, "Map not initialized")])%list w.

(** Whether the pair is kept when the layers [removed] leave [parent]. *)
Definition without (parent : nat) (removed : list nat) (c : nat * nat) : bool :=
  negb ((fst c =? parent)%nat && existsb (Nat.eqb (snd c)) removed).

End Leaflet.


(** ** The Blazor map wrapper, [src/js/leafletWrapper.js]

    The drawing tools and the minimap of this file are not embedded; they
    do not write [map] or [layerGroup]. *)

Module LeafletWrapper.
Import Leaflet.

Record State : Type := mkState {
  map : option nat;
  drawnItems : option nat;
  drawControl : option nat;
  miniMapControl : option nat;
  layerGroup : option nat
}.

Definition initial : State := mkState None None None None None.

Definition set_map (m : option nat) (s : State) : State :=
  mkState m (drawnItems s) (drawControl s) (miniMapControl s) (layerGroup s).

Definition set_layerGroup (g : option nat) (s : State) : State :=
  mkState (map s) (drawnItems s) (drawControl s) (miniMapControl s) g.

Definition TILE_OPTIONS : Options :=
  [("attribution", "OpenStreetMap contributors"); ("maxZoom", "19")].

Definition createMap (elementId : string) (lat lng zoom : number) : Eff State Value :=
  s <- get ;;
  (match map s with
   | Some m => lift (map_remove m)
   | None => ret tt
   end) ;;;
  m <- lift (L_map elementId) ;;
  m <- lift (move_view m) ;;
  modify (set_map (Some m)) ;;;
  tiles <- lift (construct_const "tileLayer" TILE_OPTIONS) ;;
  lift (addTo tiles (Some m)) ;;;
  group <- lift (construct_const "layerGroup" []) ;;
  group <- lift (addTo group (Some m)) ;;
  modify (set_layerGroup (Some group)) ;;;
  ret VUndefined.

Definition not_initialized : Eff State Value :=
  lift (console_write ERROR "Map not initialized") ;;;
  ret VUndefined.

Definition addMarker (lat lng : number) (popupText : option string)
    : Eff State Value :=
  s <- get ;;
  match map s with
  | None => not_initialized
  | Some _ =>
      marker <- lift (construct "marker" [("lat", lat); ("lng", lng)]) ;;
      (match popupText with
       | Some text => if truthy popupText then lift (bindPopup marker text) else ret tt
       | None => ret tt
       end) ;;;
      lift (addTo marker (layerGroup s)) ;;;
      ret VUndefined
  end.

Definition addCircle (lat lng radius : number) (options : Options)
    : Eff State Value :=
  s <- get ;;
  match map s with
  | None => not_initialized
  | Some _ =>
      let defaultOptions :=
        [("color", "red"); ("fillColor", "#f03"); ("fillOpacity", "0.5")] in
      circle <- lift (construct "circle"
                  (JSObject.spread (JSObject.spread defaultOptions options)
                                   [("radius", radius)])) ;;
      lift (addTo circle (layerGroup s)) ;;;
      ret VUndefined
  end.

Definition addPolygon (latLngs : list (number * number)) (options : Options)
    : Eff State Value :=
  s <- get ;;
  match map s with
  | None => not_initialized
  | Some _ =>
      let defaultOptions :=
        [("color", "blue"); ("fillColor", "#30f"); ("fillOpacity", "0.5")] in
      polygon <- lift (construct "polygon" (JSObject.spread defaultOptions options)) ;;
      lift (addTo polygon (layerGroup s)) ;;;
      ret VUndefined
  end.

Definition addPolyline (latLngs : list (number * number)) (options : Options)
    : Eff State Value :=
  s <- get ;;
  match map s with
  | None => not_initialized
  | Some _ =>
      let defaultOptions :=
        [("color", "green"); ("weight", "3"); ("opacity", "0.7")] in
      polyline <- lift (construct "polyline" (JSObject.spread defaultOptions options)) ;;
      lift (addTo polyline (layerGroup s)) ;;;
      ret VUndefined
  end.

Definition addGeoJson (geoJsonData : GeoJson) (options : Options) : Eff State Value :=
  s <- get ;;
  match map s with
  | None => not_initialized
  | Some _ =>
      geoJsonLayer <- lift (construct "geoJSON" options) ;;
      lift (addTo geoJsonLayer (layerGroup s)) ;;;
      ret VUndefined
  end.

Definition clearMap : Eff State Value :=
  s <- get ;;
  (match layerGroup s with
   | Some g => lift (clearLayers g)
   | None => ret tt
   end) ;;;
  (match drawnItems s with
   | Some d => lift (clearLayers d)
   | None => ret tt
   end) ;;;
  ret VUndefined.

(** The add-overlay operations, as calls of the host. *)
Inductive AddCall : Type :=
| AddMarker (lat lng : number) (popupText : option string)
| AddCircle (lat lng radius : number) (options : Options)
| AddPolygon (latLngs : list (number * number)) (options : Options)
| AddPolyline (latLngs : list (number * number)) (options : Options)
| AddGeoJson (geoJsonData : GeoJson) (options : Options).

Definition add (c : AddCall) : Eff State Value :=
  match c with
  | AddMarker lat lng popupText => addMarker lat lng popupText
  | AddCircle lat lng radius options => addCircle lat lng radius options
  | AddPolygon latLngs options => addPolygon latLngs options
  | AddPolyline latLngs options => addPolyline latLngs options
  | AddGeoJson geoJsonData options => addGeoJson geoJsonData options
  end.

(** The state and world after the host made the calls [cs] one after the
    other; an exception reaches the host and the page goes on. *)
Fixpoint add_each (cs : list AddCall) (s : State) (w : World) : State * World :=
  match cs with
  | [] => (s, w)
  | c :: rest =>
      match add c s w with
      | (_, s', w') => add_each rest s' w'
      end
  end.

End LeafletWrapper.

(** ** The land-management map,
    [src/_content/CompanyApp.Component.Council.Activity/leafletMap.js] *)

Module LandMap.
Import Leaflet.

Record State : Type := mkState {
  map : option nat;
  markers : list nat;
  parcels : list nat;
  chiefdomBoundaries : list nat
}.

Definition initial : State := mkState None [] [] [].

Definition set_map (m : option nat) (s : State) : State :=
  mkState m (markers s) (parcels s) (chiefdomBoundaries s).

Definition set_markers (l : list nat) (s : State) : State :=
  mkState (map s) l (parcels s) (chiefdomBoundaries s).

Definition set_parcels (l : list nat) (s : State) : State :=
  mkState (map s) (markers s) l (chiefdomBoundaries s).

Definition set_chiefdomBoundaries (l : list nat) (s : State) : State :=
  mkState (map s) (markers s) (parcels s) l.

Definition catch_with (msg : string) (result : Value) (error : string)
    : Eff State Value :=
  lift (console_write ERROR msg) ;;;
  ret result.

Definition initializeMap (elementId : string) (latitude longitude zoom : number)
    : Eff State Value :=
  try_catch
    (m <- lift (L_map elementId) ;;
     m <- lift (move_view m) ;;
     modify (set_map (Some m)) ;;;
     tiles <- lift (construct_const "tileLayer"
                      [("attribution", "OpenStreetMap contributors"); ("maxZoom", "19")]) ;;
     lift (addTo tiles (Some m)) ;;;
     scale <- lift (construct_const "scale" []) ;;
     lift (addTo scale (Some m)) ;;;
     ret (VBool true))
    (catch_with "Error initializing map:" (VBool false)).

Definition ICON_COLORS : list (string * string) :=
  [("blue", "#3b82f6"); ("red", "#ef4444"); ("green", "#10b981");
   ("yellow", "#f59e0b"); ("purple", "#8b5cf6"); ("orange", "#f97316");
   ("pink", "#ec4899"); ("teal", "#14b8a6")].

(** What [getIconColor] returns: a colour of the table, or, for a name
    of [Object.prototype], the member found there (a built-in function,
    or the prototype itself), which is truthy. *)
Inductive IconColor : Type :=
| Hex (code : string)
| PrototypeMember (name : string).

(** [colors[colorName] || colors['blue']] *)
Definition getIconColor (colorName : string) : IconColor :=
  match JSObject.lookup colorName ICON_COLORS with
  | Some code => Hex code
  | None =>
      if JSObject.inherited colorName then PrototypeMember colorName
      else Hex "#3b82f6"
  end.

(** The text the template of the icon makes of the colour; that of a
    member of the prototype depends on the engine and is kept as a
    reference to the member. *)
Definition color_text (c : IconColor) : string :=
  match c with
  | Hex code => code
  | PrototypeMember name => "${Object.prototype." ++ name ++ "}"
  end.

Definition createColoredIcon (color : string) : Eff State nat :=
  lift (construct_const "divIcon"
          [("className", "my-custom-pin");
           ("background-color", color_text (getIconColor color))]).

(** [array.length - 1] *)
Definition last_index (l : list nat) : Value := VNum (Z.of_nat (List.length l) - 1).

Definition addMarker (lat lng : number) (title : string)
    (popupContent : option string) (color : string) : Eff State Value :=
  s <- get ;;
  match map s with
  | None => ret VNull
  | Some m =>
      try_catch
        (icon <- createColoredIcon color ;;
         marker <- lift (construct "marker"
                      [("lat", lat); ("lng", lng); ("title", title)]) ;;
         marker <- lift (addTo marker (Some m)) ;;
         (match popupContent with
          | Some text => if truthy popupContent then lift (bindPopup marker text) else ret tt
          | None => ret tt
          end) ;;;
         modify (fun s => set_markers (markers s ++ [marker])%list s) ;;;
         s' <- get ;;
         ret (last_index (markers s')))
        (catch_with "Error adding marker:" VNull)
  end.

(** The properties of a parcel that the wrapper reads. *)
Record ParcelProperties : Type := mkParcel {
  id : string;
  borderColor : option string;
  fillColor : option string;
  fillOpacity : option number;
  weight : option number;
  popupContent : option string
}.

Definition or_default (o : option string) (default : string) : string :=
  match o with
  | Some text => if truthy o then text else default
  | None => default
  end.

(** [n || default] for a number: zero is falsy too. *)
Definition number_or_default (o : option number) (default : number) : number :=
  match o with
  | Some n => if (n =? "0") || (n =? "NaN") then default else n
  | None => default
  end.

(** [properties] is [None] when the host passes [null]: reading a field of
    it throws inside the [try].  The click handler registered on the
    polygon only calls back into the host and is left out. *)
Definition addParcel (coordinates : list (number * number))
    (properties : option ParcelProperties) : Eff State Value :=
  s <- get ;;
  match map s with
  | None => ret VNull
  | Some m =>
      try_catch
        (match properties with
         | None => throw "TypeError: Cannot read properties of null"
         | Some props =>
             polygon <- lift (construct "polygon"
                          [("color", or_default (borderColor props) "#3388ff");
                           ("fillColor", or_default (fillColor props) "#3388ff");
                           ("fillOpacity", number_or_default (fillOpacity props) "0.4");
                           ("weight", number_or_default (weight props) "2")]) ;;
             polygon <- lift (addTo polygon (Some m)) ;;
             (match popupContent props with
              | Some text =>
                  if truthy (popupContent props) then lift (bindPopup polygon text)
                  else ret tt
              | None => ret tt
              end) ;;;
             modify (fun s => set_parcels (parcels s ++ [polygon])%list s) ;;;
             s' <- get ;;
             ret (last_index (parcels s'))
         end)
        (catch_with "Error adding parcel:" VNull)
  end.

Definition addChiefdomBoundary (coordinates : list (number * number))
    (chiefdomName color : string) : Eff State Value :=
  s <- get ;;
  match map s with
  | None => ret VNull
  | Some m =>
      try_catch
        (boundary <- lift (construct "polygon"
                       [("color", color); ("fillColor", color); ("fillOpacity", "0.1");
                        ("weight", "3"); ("dashArray", "10, 10")]) ;;
         boundary <- lift (addTo boundary (Some m)) ;;
         lift (bindPopup boundary (chiefdomName ++ " Chiefdom Boundary")) ;;;
         modify (fun s => set_chiefdomBoundaries (chiefdomBoundaries s ++ [boundary])%list s) ;;;
         s' <- get ;;
         ret (last_index (chiefdomBoundaries s')))
        (catch_with "Error adding chiefdom boundary:" VNull)
  end.

(** [list.forEach(layer => map.removeLayer(layer))] *)
Definition remove_each (layers : list nat) : Eff State unit :=
  forEach (fun layer => s <- get ;; m <- deref (map s) ;; lift (removeLayer m layer)) layers.

Definition clearMarkers : Eff State unit :=
  s <- get ;;
  remove_each (markers s) ;;;
  modify (set_markers []).

Definition clearParcels : Eff State unit :=
  s <- get ;;
  remove_each (parcels s) ;;;
  modify (set_parcels []).

Definition clearChiefdomBoundaries : Eff State unit :=
  s <- get ;;
  remove_each (chiefdomBoundaries s) ;;;
  modify (set_chiefdomBoundaries []).

Definition clearAll : Eff State unit :=
  clearMarkers ;;; clearParcels ;;; clearChiefdomBoundaries.

Definition disposeMap : Eff State Value :=
  s <- get ;;
  match map s with
  | Some m =>
      clearAll ;;;
      lift (map_remove m) ;;;
      modify (set_map None) ;;;
      ret VUndefined
  | None => ret VUndefined
  end.

(** The add-overlay operations, as calls of the host. *)
Inductive AddCall : Type :=
| AddMarker (lat lng : number) (title : string) (popupContent : option string)
    (color : string)
| AddParcel (coordinates : list (number * number)) (properties : option ParcelProperties)
| AddChiefdomBoundary (coordinates : list (number * number)) (chiefdomName color : string).

Definition add (c : AddCall) : Eff State Value :=
  match c with
  | AddMarker lat lng title popupContent color => addMarker lat lng title popupContent color
  | AddParcel coordinates properties => addParcel coordinates properties
  | AddChiefdomBoundary coordinates chiefdomName color =>
      addChiefdomBoundary coordinates chiefdomName color
  end.

Definition fitBounds (latLngBounds : list (number * number)) : Eff State Value :=
  s <- get ;;
  match map s with
  | None => ret VUndefined
  | Some m =>
      try_catch (lift (move_view m) ;;; ret VUndefined)
                (catch_with "Error fitting bounds:" VUndefined)
  end.

Definition setView (lat lng zoom : number) : Eff State Value :=
  s <- get ;;
  match map s with
  | None => ret VUndefined
  | Some m =>
      try_catch (lift (move_view m) ;;; ret VUndefined)
                (catch_with "Error setting view:" VUndefined)
  end.

(** The registry an add-overlay operation appends to. *)
Definition registry (c : AddCall) (s : State) : list nat :=
  match c with
  | AddMarker _ _ _ _ _ => markers s
  | AddParcel _ _ => parcels s
  | AddChiefdomBoundary _ _ _ => chiefdomBoundaries s
  end.

(** What can happen between two observations: the host calls a function
    of the wrapper, or the page changes the world. *)
Inductive Step : Type :=
| DoInitializeMap (elementId : string) (latitude longitude zoom : number)
| DoAdd (c : AddCall)
| DoClearMarkers
| DoClearParcels
| DoClearChiefdomBoundaries
| DoClearAll
| DoFitBounds (latLngBounds : list (number * number))
| DoSetView (lat lng zoom : number)
| DoDisposeMap
| Page (change : World -> World).

Definition step (a : Step) : Eff State Value :=
  match a with
  | DoInitializeMap elementId latitude longitude zoom =>
      initializeMap elementId latitude longitude zoom
  | DoAdd c => add c
  | DoClearMarkers => clearMarkers ;;; ret VUndefined
  | DoClearParcels => clearParcels ;;; ret VUndefined
  | DoClearChiefdomBoundaries => clearChiefdomBoundaries ;;; ret VUndefined
  | DoClearAll => clearAll ;;; ret VUndefined
  | DoFitBounds latLngBounds => fitBounds latLngBounds
  | DoSetView lat lng zoom => setView lat lng zoom
  | DoDisposeMap => disposeMap
  | Page change => fun s w => (Ret VUndefined, s, change w)
  end.

(** The state and world after a sequence of steps; an exception reaches
    the host and the page goes on. *)
Fixpoint run (steps : list Step) (s : State) (w : World) : State * World :=
  match steps with
  | [] => (s, w)
  | a :: rest =>
      match step a s w with
      | (_, s', w') => run rest s' w'
      end
  end.

(** Without a map there is nothing in the registries. *)
Definition registries_follow_map (s : State) : Prop :=
  map s = None -> markers s = [] /\ parcels s = [] /\ chiefdomBoundaries s = [].

End LandMap.


(** ** The GIS wrapper, [src/unnamed/part_000]

    Embedded: every function that writes [map], [layers] or [markers], the
    export, and the change of base map.  The satellite, drawing,
    measurement and editing functions write none of the three.

    The registries [layers] and [markers] are the own properties of two
    objects; an identifier that is a name of [Object.prototype]
    ([JSObject.inherited]) reads or writes that prototype instead, which
    is not embedded: [plain] tells the calls that stay clear of it. *)

Module GisMap.
Import Leaflet.

(** A Leaflet layer held in the registry. *)
Record Layer : Type := mkLayer {
  handle : nat
}.

Record State : Type := mkState {
  map : option nat;
  layers : list (string * Layer);
  markers : list (string * nat);
  currentBaseLayer : option nat;
  satelliteLayer : option nat;
  drawingLayer : option nat;
  measurementLayer : option nat;
  currentDrawingMode : option string
}.

Definition initial : State := mkState None [] [] None None None None None.

Definition set_map (m : option nat) (s : State) : State :=
  mkState m (layers s) (markers s) (currentBaseLayer s) (satelliteLayer s)
          (drawingLayer s) (measurementLayer s) (currentDrawingMode s).

Definition set_layers (l : list (string * Layer)) (s : State) : State :=
  mkState (map s) l (markers s) (currentBaseLayer s) (satelliteLayer s)
          (drawingLayer s) (measurementLayer s) (currentDrawingMode s).

Definition set_markers (l : list (string * nat)) (s : State) : State :=
  mkState (map s) (layers s) l (currentBaseLayer s) (satelliteLayer s)
          (drawingLayer s) (measurementLayer s) (currentDrawingMode s).

Definition set_currentBaseLayer (l : option nat) (s : State) : State :=
  mkState (map s) (layers s) (markers s) l (satelliteLayer s)
          (drawingLayer s) (measurementLayer s) (currentDrawingMode s).

Definition decimal (z : Z) : string := NilZero.string_of_int (Z.to_int z).

(** [`${prefix}_${Date.now()}`] *)
Definition fresh_id (prefix : string) : Eff State string :=
  t <- lift Date_now ;;
  ret (prefix ++ "_" ++ decimal t).

Definition createMap (elementId : string) (lat lng zoom : number) : Eff State Value :=
  s <- get ;;
  (match map s with
   | Some m => lift (map_remove m)
   | None => ret tt
   end) ;;;
  m <- lift (L_map elementId) ;;
  m <- lift (move_view m) ;;
  modify (set_map (Some m)) ;;;
  tiles <- lift (construct_const "tileLayer"
                   [("attribution", "OpenStreetMap contributors"); ("maxZoom", "19")]) ;;
  tiles <- lift (addTo tiles (Some m)) ;;
  modify (set_currentBaseLayer (Some tiles)) ;;;
  ret (VObject m).

Definition addMarker (lat lng : number) (popupText : option string)
    : Eff State Value :=
  s <- get ;;
  match map s with
  | None => ret VUndefined
  | Some m =>
      marker <- lift (construct "marker" [("lat", lat); ("lng", lng)]) ;;
      marker <- lift (addTo marker (Some m)) ;;
      (match popupText with
       | Some text => if truthy popupText then lift (bindPopup marker text) else ret tt
       | None => ret tt
       end) ;;;
      markerId <- fresh_id "marker" ;;
      modify (fun s => set_markers (JSObject.assign markerId marker (markers s)) s) ;;;
      ret (VStr markerId)
  end.

Definition SHAPE_DEFAULTS : Options :=
  [("color", "#3388ff"); ("fillColor", "#3388ff"); ("fillOpacity", "0.2")].

Definition addCircle (lat lng radius : number) (options : Options)
    : Eff State Value :=
  s <- get ;;
  match map s with
  | None => ret VUndefined
  | Some m =>
      let defaultOptions := (SHAPE_DEFAULTS ++ [("radius", radius)])%list in
      circle <- lift (construct "circle" (JSObject.spread defaultOptions options)) ;;
      circle <- lift (addTo circle (Some m)) ;;
      circleId <- fresh_id "circle" ;;
      modify (fun s => set_layers
                (JSObject.assign circleId (mkLayer circle) (layers s)) s) ;;;
      ret (VStr circleId)
  end.

Definition addPolygon (latLngs : list (number * number)) (options : Options)
    : Eff State Value :=
  s <- get ;;
  match map s with
  | None => ret VUndefined
  | Some m =>
      polygon <- lift (construct "polygon" (JSObject.spread SHAPE_DEFAULTS options)) ;;
      polygon <- lift (addTo polygon (Some m)) ;;
      polygonId <- fresh_id "polygon" ;;
      modify (fun s => set_layers
                (JSObject.assign polygonId (mkLayer polygon) (layers s)) s) ;;;
      ret (VStr polygonId)
  end.

Definition GEOJSON_STYLE : Options :=
  [("color", "#3388ff"); ("weight", "2"); ("opacity", "1"); ("fillOpacity", "0.2")].

Definition addGeoJson (geoJson : GeoJson) (options : Options) : Eff State Value :=
  s <- get ;;
  match map s with
  | None => ret VUndefined
  | Some m =>
      layer <- lift (construct "geoJSON" (JSObject.spread GEOJSON_STYLE options)) ;;
      layer <- lift (addTo layer (Some m)) ;;
      layerId <- fresh_id "geojson" ;;
      modify (fun s => set_layers
                (JSObject.assign layerId (mkLayer layer) (layers s)) s) ;;;
      ret (VStr layerId)
  end.

(** [layerData] is the text given by the host, represented by what
    [JSON.parse] makes of it: [None] when it throws a [SyntaxError]. *)
Definition addLayer (layerId : string) (layerData : option GeoJson)
    (style : option Options) : Eff State Value :=
  s <- get ;;
  match map s with
  | None => ret VUndefined
  | Some m =>
      try_catch
        (match layerData with
         | None => throw "SyntaxError"
         | Some data =>
             layer <- lift (construct "geoJSON"
                        (match style with
                         | Some st => st
                         | None => GEOJSON_STYLE
                         end)) ;;
             layer <- lift (addTo layer (Some m)) ;;
             modify (fun s => set_layers
                       (JSObject.assign layerId (mkLayer layer) (layers s)) s) ;;;
             ret VUndefined
         end)
        (fun _ => lift (console_write ERROR "Error adding layer:") ;;; ret VUndefined)
  end.

Definition removeLayer (layerId : string) : Eff State Value :=
  s <- get ;;
  match JSObject.lookup layerId (layers s) with
  | Some layer =>
      m <- deref (map s) ;;
      lift (Leaflet.removeLayer m (handle layer)) ;;;
      modify (fun s => set_layers (JSObject.remove layerId (layers s)) s) ;;;
      ret VUndefined
  | None => ret VUndefined
  end.

Definition clearMap : Eff State Value :=
  s <- get ;;
  match map s with
  | None => ret VUndefined
  | Some m =>
      forEach (fun layer => lift (Leaflet.removeLayer m (handle layer)))
              (JSObject.values (layers s)) ;;;
      modify (set_layers []) ;;;
      forEach (fun marker => lift (Leaflet.removeLayer m marker))
              (JSObject.values (markers s)) ;;;
      modify (set_markers []) ;;;
      ret VUndefined
  end.

(** [layer.toGeoJSON()] *)
Definition toGeoJSON (layer : Layer) (w : World) : Outcome GeoJson * World :=
  match geojson w (handle layer) with
  | Some geoJson => (Ret geoJson, w)
  | None => (Throw "TypeError: toGeoJSON is not a function", w)
  end.

(** The features one layer contributes to the export of all layers:
    none when it has no [toGeoJSON]. *)
Definition exported (w : World) (layer : Layer) : list string :=
  match geojson w (handle layer) with
  | Some geoJson => features_of geoJson
  | None => []
  end.

Definition exportToGeoJson (layerId : option string) : Eff State Value :=
  s <- get ;;
  match (match layerId with
         | Some id => if truthy layerId then JSObject.lookup id (layers s) else None
         | None => None
         end) with
  | Some layer =>
      geoJson <- lift (toGeoJSON layer) ;;
      ret (VStr (stringify geoJson))
  | None =>
      allFeatures <- lift (fun w => (Ret (flat_map (exported w) (JSObject.values (layers s))), w)) ;;
      ret (VStr (collection_json allFeatures))
  end.

(** The add-overlay operations, as calls of the host. *)
Inductive AddCall : Type :=
| AddMarker (lat lng : number) (popupText : option string)
| AddCircle (lat lng radius : number) (options : Options)
| AddPolygon (latLngs : list (number * number)) (options : Options)
| AddGeoJson (geoJson : GeoJson) (options : Options).

Definition add (c : AddCall) : Eff State Value :=
  match c with
  | AddMarker lat lng popupText => addMarker lat lng popupText
  | AddCircle lat lng radius options => addCircle lat lng radius options
  | AddPolygon latLngs options => addPolygon latLngs options
  | AddGeoJson geoJson options => addGeoJson geoJson options
  end.

(** What can happen between two observations: the host calls a function
    of the wrapper, or the page changes the world (time passes, elements
    come and go), which cannot touch the variables of the module. *)
Inductive Step : Type :=
| DoCreateMap (elementId : string) (lat lng zoom : number)
| DoAdd (c : AddCall)
| DoAddLayer (layerId : string) (layerData : option GeoJson) (style : option Options)
| DoRemoveLayer (layerId : string)
| DoClearMap
| DoExport (layerId : option string)
| Page (change : World -> World).

Definition step (a : Step) : Eff State Value :=
  match a with
  | DoCreateMap elementId lat lng zoom => createMap elementId lat lng zoom
  | DoAdd c => add c
  | DoAddLayer layerId layerData style => addLayer layerId layerData style
  | DoRemoveLayer layerId => removeLayer layerId
  | DoClearMap => clearMap
  | DoExport layerId => exportToGeoJson layerId
  | Page change => fun s w => (Ret VUndefined, s, change w)
  end.

(** The state and world after a sequence of steps; an exception reaches
    the host and the page goes on. *)
Fixpoint run (steps : list Step) (s : State) (w : World) : State * World :=
  match steps with
  | [] => (s, w)
  | a :: rest =>
      match step a s w with
      | (_, s', w') => run rest s' w'
      end
  end.

(** Without a map there is nothing in the registries. *)
Definition registries_follow_map (s : State) : Prop :=
  map s = None -> layers s = [] /\ markers s = [].

(** *** Base maps *)

Definition OSM_TILES : Options :=
  [("url", "https://{s}.tile.openstreetmap.org/{z}/{x}/{y}.png");
   ("attribution", "OpenStreetMap contributors"); ("maxZoom", "19")].

Definition ESRI_IMAGERY : string :=
  "https://server.arcgisonline.com/ArcGIS/rest/services/World_Imagery/MapServer/tile/{z}/{y}/{x}".

(** The tile layer the [switch] of [changeBaseMap] selects, [None] where
    it logs the missing key and returns. *)
Definition base_tiles (mapType : string) (apiKey : option string) : option Options :=
  if (mapType =? "osm") || (mapType =? "street") then Some OSM_TILES
  else if (mapType =? "satellite") || (mapType =? "esri") then
    Some [("url", ESRI_IMAGERY); ("attribution", "Esri, DigitalGlobe, GeoEye");
          ("maxZoom", "19")]
  else if mapType =? "terrain" then
    Some [("url", "https://{s}.tile.opentopomap.org/{z}/{x}/{y}.png");
          ("attribution", "OpenTopoMap"); ("maxZoom", "17")]
  else if mapType =? "hybrid" then
    Some [("url", ESRI_IMAGERY); ("attribution", "Esri, DigitalGlobe"); ("maxZoom", "19")]
  else if mapType =? "mapbox-satellite" then
    match apiKey with
    | Some key =>
        if truthy apiKey then
          Some [("url", "https://api.mapbox.com/v4/mapbox.satellite/{z}/{x}/{y}.jpg?access_token="
                        ++ key);
                ("attribution", "Mapbox"); ("maxZoom", "22")]
        else None
    | None => None
    end
  else Some OSM_TILES.

Definition changeBaseMap (mapType : string) (apiKey : option string) : Eff State Value :=
  s <- get ;;
  match map s with
  | None => ret VUndefined
  | Some m =>
      (match currentBaseLayer s with
       | Some base => lift (Leaflet.removeLayer m base)
       | None => ret tt
       end) ;;;
      match base_tiles mapType apiKey with
      | None =>
          lift (console_write ERROR "Mapbox requires an API key") ;;;
          ret VUndefined
      | Some tiles =>
          base <- lift (construct_const "tileLayer" tiles) ;;
          base <- lift (addTo base (Some m)) ;;
          modify (set_currentBaseLayer (Some base)) ;;;
          (if mapType =? "hybrid" then
             labels <- lift (construct_const "tileLayer"
                               [("url", "https://{s}.basemaps.cartocdn.com/light_only_labels/{z}/{x}/{y}.png");
                                ("attribution", "CARTO"); ("maxZoom", "19");
                                ("pane", "shadowPane")]) ;;
             lift (addTo labels (Some m)) ;;;
             ret tt
           else ret tt) ;;;
          ret VUndefined
      end
  end.

(** *** Handles *)

(** Every layer and marker of the registries was created before. *)
Definition registered_before (s : State) (w : World) : Prop :=
  Forall (fun l => handle l < next w) (JSObject.values (layers s)) /\
  Forall (fun h => h < next w) (JSObject.values (markers s)).

(** The handles the registries hold. *)
Definition registered (s : State) : list nat :=
  (List.map handle (JSObject.values (layers s)) ++ JSObject.values (markers s))%list.

(** *** Identifiers *)

(** The calls whose identifier, if they have one, is no name of
    [Object.prototype]. *)
Definition plain (a : Step) : bool :=
  match a with
  | DoAddLayer layerId _ _ | DoRemoveLayer layerId | DoExport (Some layerId) =>
      negb (JSObject.inherited layerId)
  | _ => true
  end.

End GisMap.


(** ** The spatial dashboard wrapper, [src/unnamed/part_001] *)

Module SpatialMap.
Import Leaflet.

Record State : Type := mkState {
  spatialMap : option nat;
  markers : list nat;
  polygons : list nat
}.

Definition initial : State := mkState None [] [].

Definition set_spatialMap (m : option nat) (s : State) : State :=
  mkState m (markers s) (polygons s).

Definition set_markers (l : list nat) (s : State) : State :=
  mkState (spatialMap s) l (polygons s).

Definition set_polygons (l : list nat) (s : State) : State :=
  mkState (spatialMap s) (markers s) l.

(** [catch (error) { console.error(msg, error); return false; }] *)
Definition catch_false (msg : string) (error : string) : Eff State Value :=
  lift (console_write ERROR msg) ;;;
  ret (VBool false).

(** [console.error('Map not initialized'); return false;] *)
Definition not_initialized : Eff State Value :=
  lift (console_write ERROR "Map not initialized") ;;;
  ret (VBool false).

Definition initializeLeafletMap_try (mapId : string) (centerLat centerLng zoom : number)
    : Eff State Value :=
  s <- get ;;
  (match spatialMap s with
   | Some m =>
       lift (map_remove m) ;;;
       modify (set_markers []) ;;;
       modify (set_polygons [])
   | None => ret tt
   end) ;;;
  m <- lift (L_map mapId) ;;
  m <- lift (move_view m) ;;
  modify (set_spatialMap (Some m)) ;;;
  tiles <- lift (construct_const "tileLayer"
                   [("attribution", "OpenStreetMap contributors"); ("maxZoom", "19")]) ;;
  lift (addTo tiles (Some m)) ;;;
  lift (console_write LOG "Leaflet map initialized successfully") ;;;
  ret (VBool true).

Definition initializeLeafletMap (mapId : string) (centerLat centerLng zoom : number)
    : Eff State Value :=
  try_catch (initializeLeafletMap_try mapId centerLat centerLng zoom)
            (catch_false "Error initializing Leaflet map:").

Definition addLeafletMarker_try (lat lng : number) (title iconColor : string)
    : Eff State Value :=
  s <- get ;;
  match spatialMap s with
  | None => not_initialized
  | Some m =>
      markerIcon <- lift (construct "icon"
                      [("iconUrl", "marker-icon-2x-" ++ iconColor ++ ".png")]) ;;
      marker <- lift (construct "marker" [("lat", lat); ("lng", lng)]) ;;
      lift (bindPopup marker title) ;;;
      marker <- lift (addTo marker (Some m)) ;;
      modify (fun s => set_markers (markers s ++ [marker])%list s) ;;;
      ret (VBool true)
  end.

Definition addLeafletMarker (lat lng : number) (title iconColor : string)
    : Eff State Value :=
  try_catch (addLeafletMarker_try lat lng title iconColor)
            (catch_false "Error adding marker:").

(** [paths] is [None] when the host passes [null]: [paths.map] throws. *)
Definition addLeafletPolygon_try (paths : option (list (number * number)))
    (color fillColor : string) (fillOpacity : number) : Eff State Value :=
  s <- get ;;
  match spatialMap s with
  | None => not_initialized
  | Some m =>
      match paths with
      | None => throw "TypeError: Cannot read properties of null"
      | Some latLngs =>
          polygon <- lift (construct "polygon"
                       [("color", color); ("fillColor", fillColor);
                        ("fillOpacity", fillOpacity); ("weight", "2")]) ;;
          polygon <- lift (addTo polygon (Some m)) ;;
          modify (fun s => set_polygons (polygons s ++ [polygon])%list s) ;;;
          ret (VBool true)
      end
  end.

Definition addLeafletPolygon (paths : option (list (number * number)))
    (color fillColor : string) (fillOpacity : number) : Eff State Value :=
  try_catch (addLeafletPolygon_try paths color fillColor fillOpacity)
            (catch_false "Error adding polygon:").

Definition addLeafletCircle_try (lat lng radius : number) (color title : string)
    : Eff State Value :=
  s <- get ;;
  match spatialMap s with
  | None => not_initialized
  | Some m =>
      circle <- lift (construct "circle"
                  [("color", color); ("fillColor", color); ("fillOpacity", "0.3");
                   ("radius", radius)]) ;;
      circle <- lift (addTo circle (Some m)) ;;
      (if negb (title =? "") then lift (bindPopup circle title) else ret tt) ;;;
      ret (VBool true)
  end.

Definition addLeafletCircle (lat lng radius : number) (color title : string)
    : Eff State Value :=
  try_catch (addLeafletCircle_try lat lng radius color title)
            (catch_false "Error adding circle:").

(** [list.forEach(layer => spatialMap.removeLayer(layer))] *)
Definition remove_each (layers : list nat) : Eff State unit :=
  forEach (fun layer =>
             s <- get ;; m <- deref (spatialMap s) ;; lift (removeLayer m layer))
          layers.

Definition clearLeafletMarkers_try : Eff State Value :=
  s <- get ;;
  remove_each (markers s) ;;;
  modify (set_markers []) ;;;
  ret (VBool true).

Definition clearLeafletMarkers : Eff State Value :=
  try_catch clearLeafletMarkers_try (catch_false "Error clearing markers:").

Definition clearLeafletPolygons_try : Eff State Value :=
  s <- get ;;
  remove_each (polygons s) ;;;
  modify (set_polygons []) ;;;
  ret (VBool true).

Definition clearLeafletPolygons : Eff State Value :=
  try_catch clearLeafletPolygons_try (catch_false "Error clearing polygons:").

Definition fitMapToBounds_try (bounds : list (number * number)) : Eff State Value :=
  s <- get ;;
  match spatialMap s with
  | None => not_initialized
  | Some m =>
      lift (move_view m) ;;;
      ret (VBool true)
  end.

Definition fitMapToBounds (bounds : list (number * number)) : Eff State Value :=
  try_catch (fitMapToBounds_try bounds) (catch_false "Error fitting bounds:").

Definition setMapView_try (lat lng zoom : number) : Eff State Value :=
  s <- get ;;
  match spatialMap s with
  | None => not_initialized
  | Some m =>
      lift (move_view m) ;;;
      ret (VBool true)
  end.

Definition setMapView (lat lng zoom : number) : Eff State Value :=
  try_catch (setMapView_try lat lng zoom) (catch_false "Error setting map view:").

Definition destroyLeafletMap_try : Eff State Value :=
  s <- get ;;
  (match spatialMap s with
   | Some m =>
       lift (map_remove m) ;;;
       modify (set_spatialMap None) ;;;
       modify (set_markers []) ;;;
       modify (set_polygons [])
   | None => ret tt
   end) ;;;
  ret (VBool true).

Definition destroyLeafletMap : Eff State Value :=
  try_catch destroyLeafletMap_try (catch_false "Error destroying map:").

Definition HEAT_DEFAULTS : Options :=
  [("radius", "25"); ("blur", "15"); ("maxZoom", "17")].

Definition addLeafletHeatmap_try (points : list (number * number * number))
    (options : Options) : Eff State Value :=
  s <- get ;;
  match spatialMap s with
  | None => not_initialized
  | Some m =>
      loaded <- lift (fun w => (Ret (heat_plugin w), w)) ;;
      if (loaded : bool) then
        heat <- lift (construct "heatLayer" (JSObject.spread HEAT_DEFAULTS options)) ;;
        lift (addTo heat (Some m)) ;;;
        ret (VBool true)
      else
        lift (console_write WARN "Leaflet.heat plugin not loaded") ;;;
        ret (VBool false)
  end.

Definition addLeafletHeatmap (points : list (number * number * number))
    (options : Options) : Eff State Value :=
  try_catch (addLeafletHeatmap_try points options)
            (catch_false "Error adding heatmap:").

(** The public functions, as calls of the host. *)
Inductive Call : Type :=
| InitializeLeafletMap (mapId : string) (centerLat centerLng zoom : number)
| AddLeafletMarker (lat lng : number) (title iconColor : string)
| AddLeafletPolygon (paths : option (list (number * number)))
    (color fillColor : string) (fillOpacity : number)
| AddLeafletCircle (lat lng radius : number) (color title : string)
| ClearLeafletMarkers
| ClearLeafletPolygons
| FitMapToBounds (bounds : list (number * number))
| SetMapView (lat lng zoom : number)
| DestroyLeafletMap
| AddLeafletHeatmap (points : list (number * number * number)) (options : Options).

Definition invoke (c : Call) : Eff State Value :=
  match c with
  | InitializeLeafletMap mapId centerLat centerLng zoom =>
      initializeLeafletMap mapId centerLat centerLng zoom
  | AddLeafletMarker lat lng title iconColor => addLeafletMarker lat lng title iconColor
  | AddLeafletPolygon paths color fillColor fillOpacity =>
      addLeafletPolygon paths color fillColor fillOpacity
  | AddLeafletCircle lat lng radius color title => addLeafletCircle lat lng radius color title
  | ClearLeafletMarkers => clearLeafletMarkers
  | ClearLeafletPolygons => clearLeafletPolygons
  | FitMapToBounds bounds => fitMapToBounds bounds
  | SetMapView lat lng zoom => setMapView lat lng zoom
  | DestroyLeafletMap => destroyLeafletMap
  | AddLeafletHeatmap points options => addLeafletHeatmap points options
  end.

(** The [try] block of each function. *)
Definition try_block (c : Call) : Eff State Value :=
  match c with
  | InitializeLeafletMap mapId centerLat centerLng zoom =>
      initializeLeafletMap_try mapId centerLat centerLng zoom
  | AddLeafletMarker lat lng title iconColor =>
      addLeafletMarker_try lat lng title iconColor
  | AddLeafletPolygon paths color fillColor fillOpacity =>
      addLeafletPolygon_try paths color fillColor fillOpacity
  | AddLeafletCircle lat lng radius color title =>
      addLeafletCircle_try lat lng radius color title
  | ClearLeafletMarkers => clearLeafletMarkers_try
  | ClearLeafletPolygons => clearLeafletPolygons_try
  | FitMapToBounds bounds => fitMapToBounds_try bounds
  | SetMapView lat lng zoom => setMapView_try lat lng zoom
  | DestroyLeafletMap => destroyLeafletMap_try
  | AddLeafletHeatmap points options => addLeafletHeatmap_try points options
  end.


(** The state and world after a sequence of calls. *)
Fixpoint run (calls : list Call) (s : State) (w : World) : State * World :=
  match calls with
  | [] => (s, w)
  | c :: rest =>
      match invoke c s w with
      | (_, s', w') => run rest s' w'
      end
  end.

(** Without a map there is nothing in the registries. *)
Definition registries_follow_map (s : State) : Prop :=
  spatialMap s = None -> markers s = [] /\ polygons s = [].

End SpatialMap.


(** ** The PWA helper, [src/js/pwa-helper.js] *)

Module PwaHelper.

(** *** [urlBase64ToUint8Array] *)

(** ['='.repeat(n)] *)
Fixpoint repeat_string (s : string) (n : nat) : string :=
  match n with
  | O => EmptyString
  | S k => s ++ repeat_string s k
  end.

(** [s.replace(/c/g, by)] for a pattern of one character. *)
Fixpoint replace_char (c by_ : ascii) (s : string) : string :=
  match s with
  | EmptyString => EmptyString
  | String x rest => String (if Ascii.eqb x c then by_ else x) (replace_char c by_ rest)
  end.

(** [window.atob] is the forgiving base64 decoding of the HTML standard. *)

(** Tab, line feed, form feed, carriage return and space. *)
Definition is_whitespace (c : ascii) : bool :=
  let n := nat_of_ascii c in
  (n =? 9)%nat || (n =? 10)%nat || (n =? 12)%nat || (n =? 13)%nat || (n =? 32)%nat.

(** The value of a character of the base64 alphabet. *)
Definition base64_value (c : ascii) : option nat :=
  let n := nat_of_ascii c in
  if (65 <=? n)%nat && (n <=? 90)%nat then Some (n - 65)
  else if (97 <=? n)%nat && (n <=? 122)%nat then Some (n - 71)
  else if (48 <=? n)%nat && (n <=? 57)%nat then Some (n + 4)
  else if (n =? 43)%nat then Some 62
  else if (n =? 47)%nat then Some 63
  else None.

(** The values of the characters, if all are of the alphabet. *)
Fixpoint base64_values (l : list ascii) : option (list nat) :=
  match l with
  | [] => Some []
  | c :: rest =>
      match base64_value c, base64_values rest with
      | Some v, Some vs => Some (v :: vs)
      | _, _ => None
      end
  end.

(** Four values give three bytes; of a last group of two or three
    values the bits that do not fill a byte are dropped. *)
Fixpoint bytes_of_values (l : list nat) : list nat :=
  match l with
  | a :: b :: c :: d :: rest =>
      (a * 4 + b / 16) :: ((b mod 16) * 16 + c / 4) :: ((c mod 4) * 64 + d)
      :: bytes_of_values rest
  | [a; b; c] => [a * 4 + b / 16; (b mod 16) * 16 + c / 4]
  | [a; b] => [a * 4 + b / 16]
  | _ => []
  end.

(** When the length is a multiple of four, one or two final [=] are
    removed. *)
Definition strip_padding (l : list ascii) : list ascii :=
  if (List.length l mod 4 =? 0)%nat then
    match rev l with
    | x :: y :: r =>
        if Ascii.eqb x "=" then
          if Ascii.eqb y "=" then rev r else rev (y :: r)
        else l
    | [x] => if Ascii.eqb x "=" then [] else l
    | [] => l
    end
  else l.

(** The binary string [atob] returns, [None] when it throws. *)
Definition atob (data : string) : option string :=
  let l := strip_padding (filter (fun c => negb (is_whitespace c))
                                 (list_ascii_of_string data)) in
  if (List.length l mod 4 =? 1)%nat then None
  else
    match base64_values l with
    | Some values =>
        Some (string_of_list_ascii (map ascii_of_nat (bytes_of_values values)))
    | None => None
    end.

(** The array of bytes, [None] when [atob] throws. *)
Definition urlBase64ToUint8Array (base64String : string) : option (list nat) :=
  let padding := repeat_string "=" ((4 - String.length base64String mod 4) mod 4) in
  let base64 :=
    replace_char "_" "/" (replace_char "-" "+" (base64String ++ padding)) in
  match atob base64 with
  | Some rawData => Some (map nat_of_ascii (list_ascii_of_string rawData))
  | None => None
  end.

(** What the two replacements make of one character. *)
Definition to_standard (c : ascii) : ascii :=
  let plus := if Ascii.eqb c "-" then "+"%char else c in
  if Ascii.eqb plus "_" then "/"%char else plus.

(** The encoding the function undoes: base64url (RFC 4648, section 5)
    without padding, in which a VAPID public key is given to the page.
    It is not part of the repository. *)
Definition URL_ALPHABET : string :=
  "ABCDEFGHIJKLMNOPQRSTUVWXYZabcdefghijklmnopqrstuvwxyz0123456789-_".

Definition url_char (value : nat) : ascii :=
  match String.get value URL_ALPHABET with
  | Some c => c
  | None => "A"%char
  end.

Fixpoint values_of_bytes (bytes : list nat) : list nat :=
  match bytes with
  | a :: b :: c :: rest =>
      (a / 4) :: ((a mod 4) * 16 + b / 16) :: ((b mod 16) * 4 + c / 64) :: (c mod 64)
      :: values_of_bytes rest
  | [a; b] => [a / 4; (a mod 4) * 16 + b / 16; (b mod 16) * 4]
  | [a] => [a / 4; (a mod 4) * 16]
  | [] => []
  end.

Definition base64url (bytes : list nat) : string :=
  string_of_list_ascii (map url_char (values_of_bytes bytes)).

(** *** The state of the helper and the browser around it *)

(** The service worker registration, as far as the helper looks at it. *)
Record Registration : Type := mkRegistration {
  (** whether [pushManager.subscribe] resolves for a valid key *)
  push_available : bool
}.

Record State : Type := mkState {
  (** the captured [beforeinstallprompt] event, given by the choice the
      user makes when it is prompted *)
  deferredInstallPrompt : option string;
  isInstalled : bool;
  registration : option Registration
}.

Definition initial : State := mkState None false None.

Record Browser : Type := mkBrowser {
  console : list string;
  (** how many times an install prompt was shown *)
  prompts : nat;
  (** ['Notification' in window] *)
  has_notifications : bool;
  (** [Notification.permission] *)
  permission : string;
  (** what the user answers when asked for the permission *)
  answer : string;
  (** how many times the user was asked *)
  permission_requests : nat;
  (** the keys given to [pushManager.subscribe] *)
  subscribed : list (list nat)
}.

Definition log (msg : string) (b : Browser) : Browser :=
  mkBrowser (console b ++ [msg])%list (prompts b) (has_notifications b) (permission b)
            (answer b) (permission_requests b) (subscribed b).

(** How a promise of the helper settles. *)
Inductive Settled (A : Type) : Type :=
| Resolved (value : A)
| Rejected (error : string).
Arguments Resolved {A} value.
Arguments Rejected {A} error.

(** *** The install prompt *)

(** The [beforeinstallprompt] listener.  The banner it shows is not
    modelled; its install button is [clickInstallButton]. *)
Definition onBeforeInstallPrompt (choice : string) (s : State) (b : Browser)
    : State * Browser :=
  (mkState (Some choice) (isInstalled s) (registration s),
   log "[PWA] Install prompt available" b).

(** The [appinstalled] listener. *)
Definition onAppInstalled (s : State) (b : Browser) : State * Browser :=
  (mkState None true (registration s), log "[PWA] App installed successfully" b).

(** [deferredInstallPrompt.prompt()] followed by the user's choice. *)
Definition show_prompt (b : Browser) : Browser :=
  mkBrowser (console b) (S (prompts b)) (has_notifications b) (permission b)
            (answer b) (permission_requests b) (subscribed b).

(** [window.PWA.install()] *)
Definition install (s : State) (b : Browser) : bool * State * Browser :=
  match deferredInstallPrompt s with
  | Some outcome =>
      (outcome =? "accepted", mkState None (isInstalled s) (registration s), show_prompt b)
  | None => (false, s, b)
  end.

(** The click handler of the install button of the banner. *)
Definition clickInstallButton (s : State) (b : Browser) : State * Browser :=
  match deferredInstallPrompt s with
  | Some outcome =>
      (mkState None (isInstalled s) (registration s),
       log "[PWA] User choice:" (show_prompt b))
  | None => (s, b)
  end.

(** [checkIfInstalled], given whether the display mode is standalone and
    whether [navigator.standalone] is [true]. *)
Definition checkIfInstalled (standalone ios_standalone : bool) (s : State) (b : Browser)
    : State * Browser :=
  if standalone then
    (mkState (deferredInstallPrompt s) true (registration s),
     log "[PWA] App is running in standalone mode" b)
  else if ios_standalone then
    (mkState (deferredInstallPrompt s) true (registration s),
     log "[PWA] App is running in iOS standalone mode" b)
  else (s, b).

(** One when an install prompt is waiting to be used. *)
Definition pending (s : State) : nat :=
  match deferredInstallPrompt s with
  | Some _ => 1
  | None => 0
  end.

(** *** The page *)

(** How a call ends: it returns, or it throws. *)
Inductive Completion (A : Type) : Type :=
| Normal (value : A)
| Thrown (error : string).
Arguments Normal {A} value.
Arguments Thrown {A} error.

(** What the page holds of the helper besides its variables. *)
Record Page : Type := mkPage {
  helper : State;
  browser : Browser;
  (** the listener of the load event is registered, and the event not
      yet dispatched *)
  waiting : bool;
  (** the listeners of [setupInstallPrompt] are installed *)
  listening : bool;
  (** [window.PWA] is defined *)
  exposed : bool
}.

(** The page once the script has run: without service workers it
    returns at once, and else it registers [initializePWA] for the load
    event. *)
Definition script (service_workers : bool) (b : Browser) : Page :=
  if service_workers then mkPage initial (log "[PWA] Helper loaded" b) true false false
  else mkPage initial (log "[PWA] Service Workers not supported" b) false false false.

(** [setupPushNotifications], given ['PushManager' in window]. *)
Definition setupPushNotifications (push_manager : bool) (b : Browser) : Browser :=
  if negb push_manager then log "[PWA] Push notifications not supported" b
  else if negb (has_notifications b) then log "[PWA] Notifications not supported" b
  else log "[PWA] Push notifications available" b.

Definition IN_NULL : string :=
  "TypeError: Cannot use 'in' operator to search for 'sync' in null".

(** [setupBackgroundSync], given ['sync' in registration] for a
    registration; the operator throws when [registration] is [null]. *)
Definition setupBackgroundSync (sync_manager : bool) (s : State) (b : Browser)
    : Completion unit * Browser :=
  match registration s with
  | None => (Thrown IN_NULL, b)
  | Some _ =>
      (Normal tt,
       log (if sync_manager then "[PWA] Background sync available"
            else "[PWA] Background sync not supported") b)
  end.

(** [initializePWA].  [registerServiceWorker()] runs up to its [await]:
    [registration] is assigned when the promise of [register] fulfils,
    in a later task.  The connection listeners only dispatch an event
    and are left out. *)
Definition initializePWA (standalone ios_standalone push_manager sync_manager : bool)
    (p : Page) : Completion unit * Page :=
  let b1 := log "[PWA] Initializing..." (browser p) in
  let (s2, b2) := checkIfInstalled standalone ios_standalone (helper p) b1 in
  let b3 := setupPushNotifications push_manager b2 in
  match setupBackgroundSync sync_manager s2 b3 with
  | (Thrown error, b4) => (Thrown error, mkPage s2 b4 false true (exposed p))
  | (Normal _, b4) =>
      (Normal tt, mkPage s2 (log "[PWA] API exposed to window.PWA" b4) false true true)
  end.

Definition PWA_UNDEFINED : string :=
  "TypeError: Cannot read properties of undefined (reading 'install')".

(** [window.PWA.install()], called by the host. *)
Definition callInstall (p : Page) : Completion bool * Page :=
  if exposed p then
    let '(accepted, s', b') := install (helper p) (browser p) in
    (Normal accepted, mkPage s' b' (waiting p) (listening p) (exposed p))
  else (Thrown PWA_UNDEFINED, p).

(** What happens on the page, one event or call after another. *)
Inductive PageEvent : Type :=
| Load (standalone ios_standalone push_manager sync_manager : bool)
| Registered (r : Registration)
| RegistrationFailed
| BeforeInstallPrompt (choice : string)
| AppInstalled
| ClickInstallButton
| CallInstall.

Definition with_helper (f : State -> Browser -> State * Browser) (p : Page) : Page :=
  let (s', b') := f (helper p) (browser p) in
  mkPage s' b' (waiting p) (listening p) (exposed p).

(** The load event is dispatched once; the promise of [register]
    settles after [initializePWA] has run; the install events find a
    listener, and the banner has a button, once [setupInstallPrompt] has
    run. *)
Definition page_step (a : PageEvent) (p : Page) : Page :=
  match a with
  | Load standalone ios_standalone push_manager sync_manager =>
      if waiting p then
        snd (initializePWA standalone ios_standalone push_manager sync_manager p)
      else p
  | Registered r =>
      if listening p then
        with_helper (fun s b =>
                       (mkState (deferredInstallPrompt s) (isInstalled s) (Some r),
                        log "[PWA] Service Worker registered:" b)) p
      else p
  | RegistrationFailed =>
      if listening p then
        with_helper (fun s b =>
                       (s, log "[PWA] Service Worker registration failed:" b)) p
      else p
  | BeforeInstallPrompt choice =>
      if listening p then with_helper (onBeforeInstallPrompt choice) p else p
  | AppInstalled => if listening p then with_helper onAppInstalled p else p
  | ClickInstallButton => if listening p then with_helper clickInstallButton p else p
  | CallInstall => snd (callInstall p)
  end.

Fixpoint page_run (events : list PageEvent) (p : Page) : Page :=
  match events with
  | [] => p
  | a :: rest => page_run rest (page_step a p)
  end.

Definition is_prompt_event (a : PageEvent) : bool :=
  match a with
  | BeforeInstallPrompt _ => true
  | _ => false
  end.

(** What holds of the page whatever happened: [window.PWA] is not
    defined; until the load event [registration] is [null] and nothing
    listens; and no prompt is captured before the listeners are
    installed. *)
Definition never_exposed (p : Page) : Prop :=
  exposed p = false /\
  (waiting p = true -> registration (helper p) = None /\ listening p = false) /\
  (listening p = false -> deferredInstallPrompt (helper p) = None).

(** *** Notifications and push *)

Definition requestNotificationPermission (b : Browser) : string * Browser :=
  if negb (has_notifications b) then ("unsupported", b)
  else if permission b =? "granted" then ("granted", b)
  else if negb (permission b =? "denied") then
    (answer b,
     mkBrowser (console b) (prompts b) (has_notifications b) (answer b) (answer b)
               (S (permission_requests b)) (subscribed b))
  else (permission b, b).

(** [registration.pushManager.subscribe], given the decoded key. *)
Definition push_subscribe (r : Registration) (key : list nat) (b : Browser)
    : Settled (list nat) * Browser :=
  let b' := mkBrowser (console b) (prompts b) (has_notifications b) (permission b)
                      (answer b) (permission_requests b) (subscribed b ++ [key])%list
                      in
  if push_available r then (Resolved key, b') else (Rejected "AbortError", b').

(** [catch (error) { console.error(msg, error); throw error; }] *)
Definition rethrow {A} (msg error : string) (b : Browser) : Settled A * Browser :=
  (Rejected error, log msg b).

(** The subscription is represented by the key it was made for. *)
Definition subscribeToPushNotifications (vapidPublicKey : string) (s : State)
    (b : Browser) : Settled (list nat) * Browser :=
  match registration s with
  | None => rethrow "[PWA] Push subscription failed:" "Service worker not registered" b
  | Some r =>
      let (granted, b1) := requestNotificationPermission b in
      if negb (granted =? "granted") then
        rethrow "[PWA] Push subscription failed:" "Notification permission denied" b1
      else
        match urlBase64ToUint8Array vapidPublicKey with
        | None => rethrow "[PWA] Push subscription failed:" "InvalidCharacterError" b1
        | Some key =>
            match push_subscribe r key b1 with
            | (Resolved subscription, b2) =>
                (Resolved subscription, log "[PWA] Push subscription:" b2)
            | (Rejected error, b2) =>
                rethrow "[PWA] Push subscription failed:" error b2
            end
        end
  end.

End PwaHelper.

(** ** Concrete requests, worlds and pages used in the examples *)

Module Examples.
Import SW.

Definition council : string := "https://council.example".

Definition ok (text : string) : Response := mkResponse 200 "OK" text.

Definition stylesheet : Request := mkRequest (council ++ "/css/app.css") "GET" "no-cors".
Definition framework_file : Request :=
  mkRequest (council ++ "/_framework/blazor.boot.json") "GET" "cors".
Definition content_file : Request :=
  mkRequest (council ++ "/_content/Radzen.Blazor/readme") "GET" "cors".
Definition plans_page : Request := mkRequest (council ++ "/plans") "GET" "navigate".
Definition api_items : Request := mkRequest (council ++ "/api/items") "GET" "cors".
Definition api_script : Request := mkRequest (council ++ "/api/app.js") "GET" "no-cors".


(** The network answers every request with a fresh 200. *)
Definition online : Env := mkEnv council (fun _ => Some (ok "fresh")) (fun cs => cs).


(** Every fetch throws. *)
Definition offline : Env := mkEnv council (fun _ => None) (fun cs => cs).


Definition precache : Cache :=
  [(request_of online OFFLINE_URL, ok "offline page");
   (request_of online "/css/app.css", ok "styles")].

(** After install and activate. *)
Definition installed : World :=
  mkWorld [(CACHE_NAME, precache); (RUNTIME_CACHE, [])] [] [].

(** After the page has sent the [CLEAR_CACHE] message. *)
Definition cleared : World :=
  mkWorld (storage (snd (onMessageClearCache installed))) [] [].

(** With a cache of the previous version still in the storage. *)
Definition upgraded : World :=
  mkWorld [("council-app-v0.9.0", [(request_of online "/old.css", ok "old")]);
           (CACHE_NAME, precache);
           (RUNTIME_CACHE, [(api_items, ok "items")])] [] [].

(** A page with two map containers, no map yet, and no failing call. *)
Definition page : Leaflet.World :=
  Leaflet.mkWorld [] ["map-a"; "map-b"] [] [] [] 0 [] 1700000000000 true Leaflet.no_geojson.

(** The same page, with a Leaflet that exports every layer as one
    feature, which names the layer. *)
Definition feature_text (h : nat) : string :=
  Leaflet.jobject [Leaflet.jfield "type" (Leaflet.jstr "Feature");
                   Leaflet.jfield "id" (NilZero.string_of_uint (Nat.to_uint h))].

Definition surveyed : Leaflet.World :=
  Leaflet.mkWorld [] ["map-a"; "map-b"] [] [] [] 0 [] 1700000000000 true
                  (fun h => Some (Leaflet.GeoFeature (feature_text h))).

(** Nothing cached yet. *)
Definition fresh : World := mkWorld [] [] [].

(** A script of another origin. *)
Definition cdn_script : Request := mkRequest "https://cdn.example/lib.js" "GET" "no-cors".

(** The windows of the application: one that cannot be focused, two that can. *)
Definition windows : list Client :=
  [mkClient "/plans" false; mkClient "/plans" true; mkClient "/" true].

End Examples.

(** * Proof automation *)

(** Destructs the scrutinee of the innermost [match] of the goal, again
    and again: every way a sequence of calls can go. *)
Ltac split_outcomes :=
  repeat (match goal with
          | |- context [match ?x with _ => _ end] =>
              lazymatch x with
              | context [match _ with _ => _ end] => fail
              | _ => destruct x eqn:?
              end
          end; cbn beta iota).

Ltac run_eff :=
  unfold Leaflet.try_catch, Leaflet.bind, Leaflet.lift, Leaflet.get, Leaflet.modify,
    Leaflet.ret, Leaflet.throw, Leaflet.deref, Leaflet.console_write in *;
  cbn beta iota in *.

(** * The string methods *)

Section StringMethods.
Import JSString.

Lemma prefix_append (p s : string) :
  String.prefix p s = true <-> exists rest, s = p ++ rest.
Proof.
  revert s. induction p as [|c p IH]; intros s.
  - split; [intros _; now exists s | now destruct s].
  - destruct s as [|d s]; simpl.
    + split; [discriminate | intros [rest H]; discriminate H].
    + destruct (Ascii.ascii_dec c d) as [->|Hne].
      * rewrite IH. split; intros [rest H]; exists rest; [now rewrite H | now injection H].
      * split; [discriminate | intros [rest H]; injection H; congruence].
Qed.

(** [startsWith]: the string begins with the prefix. *)
Lemma startsWith_spec (s p : string) :
  startsWith s p = true <-> exists rest, s = p ++ rest.
Proof. apply prefix_append. Qed.

(** [endsWith]: the string is something followed by the suffix. *)
Lemma endsWith_spec (s suffix : string) :
  endsWith s suffix = true <-> exists before, s = before ++ suffix.
Proof.
  induction s as [|c s IH]; cbn [endsWith].
  - rewrite orb_false_r, String.eqb_eq. split.
    + intros <-. now exists "".
    + intros [[|d before] H]; simpl in H; [exact H | discriminate H].
  - rewrite orb_true_iff, String.eqb_eq, IH. split.
    + intros [<- | [before ->]]; [now exists "" | now exists (String c before)].
    + intros [[|d before] H]; simpl in H.
      * now left.
      * right. exists before. now injection H.
Qed.

(** [includes]: the substring occurs somewhere in the string. *)
Lemma includes_spec (s sub : string) :
  includes s sub = true <-> exists before after, s = before ++ sub ++ after.
Proof.
  induction s as [|c s IH].
  - cbn [includes]. rewrite orb_false_r, prefix_append. split.
    + intros [rest H]. now exists "", rest.
    + intros [[|d before] [after H]]; simpl in H; [now exists after | discriminate H].
  - cbn [includes]. rewrite orb_true_iff, prefix_append, IH. split.
    + intros [[rest H] | [before [after ->]]].
      * now exists "", rest.
      * now exists (String c before), after.
    + intros [[|d before] [after H]]; simpl in H.
      * left. now exists after.
      * right. exists before, after. now injection H.
Qed.

End StringMethods.

(** * Properties of the service worker *)

Section StrategySelector.
Import JSString SW.

Lemma endsWith_cons (c d : ascii) (rest suffix : string) :
  endsWith (String c rest) (String d suffix) =
  (Ascii.eqb c d && String.eqb rest suffix) || endsWith rest (String d suffix).
Proof. reflexivity. Qed.

Lemma endsWith_dot_step (l : list string) (c : ascii) (rest : string) :
  existsb (fun e => endsWith (String c rest) ("." ++ e)) l =
  (Ascii.eqb c "." && existsb (String.eqb rest) l)
  || existsb (fun e => endsWith rest ("." ++ e)) l.
Proof.
  induction l as [|e l IH]; cbn [existsb].
  - now rewrite andb_false_r.
  - rewrite IH. change ("." ++ e) with (String "." e).
    rewrite endsWith_cons.
    destruct (Ascii.eqb c "."), (String.eqb rest e),
      (endsWith rest (String "." e)), (existsb (String.eqb rest) l); reflexivity.
Qed.

(** The regular expression of [getCachingStrategy] accepts exactly the
    paths that end with a dot and one of the listed extensions. *)
Lemma matches_static_endsWith (pathname : string) :
  matches_static pathname =
  existsb (fun e => endsWith pathname ("." ++ e)) STATIC_EXTENSIONS.
Proof.
  induction pathname as [|c rest IH].
  - reflexivity.
  - rewrite endsWith_dot_step, <- IH. reflexivity.
Qed.

(** Claim C1.  [getCachingStrategy] applies its rules in order, the first match
    winning: a path that ends with one of the static-asset extensions, or
    starts with [/_framework/] or [/_content/], gets cache-first; any
    other path, whether it starts with [/api/], ends with [/] or [.html],
    or matches no rule at all, gets network-first; and no request gets
    stale-while-revalidate, network-only or cache-only. *)
Theorem getCachingStrategy_priority (request : Request) :
  let pathname := pathname_of (url request) in
  (forall ext, In ext STATIC_EXTENSIONS ->
     endsWith pathname ("." ++ ext) = true ->
     getCachingStrategy request = CACHE_FIRST) /\
  (startsWith pathname "/_framework/" = true ->
     getCachingStrategy request = CACHE_FIRST) /\
  (startsWith pathname "/_content/" = true ->
     getCachingStrategy request = CACHE_FIRST) /\
  (matches_static pathname = false ->
   startsWith pathname "/_framework/" = false ->
   startsWith pathname "/_content/" = false ->
     (startsWith pathname "/api/" = true ->
        getCachingStrategy request = NETWORK_FIRST) /\
     (endsWith pathname "/" = true \/ endsWith pathname ".html" = true ->
        getCachingStrategy request = NETWORK_FIRST) /\
     getCachingStrategy request = NETWORK_FIRST) /\
  getCachingStrategy request <> STALE_WHILE_REVALIDATE /\
  getCachingStrategy request <> NETWORK_ONLY /\
  getCachingStrategy request <> CACHE_ONLY.
Proof.
  intros pathname. unfold getCachingStrategy. fold pathname.
  destruct (matches_static pathname) eqn:Hstatic.
  - repeat split; try discriminate; reflexivity.
  - destruct (startsWith pathname "/_framework/") eqn:Hfw;
      destruct (startsWith pathname "/_content/") eqn:Hct;
      destruct (startsWith pathname "/api/") eqn:Hapi;
      destruct (endsWith pathname "/" || endsWith pathname ".html") eqn:Hhtml;
      (split; [ intros ext Hin Hend; exfalso;
                rewrite matches_static_endsWith in Hstatic;
                assert (Hex : existsb (fun e => endsWith pathname ("." ++ e))
                                STATIC_EXTENSIONS = true)
                  by (apply existsb_exists; now exists ext);
                congruence
              | repeat split; try discriminate; try reflexivity;
                intros; try discriminate; reflexivity ]).
Qed.
End StrategySelector.

Section CacheStorageFacts.
Import SW.

Lemma same_request_refl (r : Request) : same_request r r = true.
Proof. unfold same_request. now rewrite !String.eqb_refl. Qed.

Lemma cache_match_put (r : Request) (resp : Response) (c : Cache) :
  is_get r = true ->
  cache_match (cache_put r resp c) r = Some resp.
Proof.
  intros Hget. unfold cache_match, cache_put. rewrite Hget.
  induction c as [|e c IH]; simpl.
  - now rewrite same_request_refl.
  - destruct (same_request (fst e) r) eqn:He; simpl.
    + exact IH.
    + now rewrite He.
Qed.

Lemma storage_get_update (name : string) (f : Cache -> Cache) (cs : CacheStorage) :
  storage_get name (storage_update name f cs) = option_map f (storage_get name cs).
Proof.
  unfold storage_get, storage_update.
  induction cs as [|[n c] cs IH]; simpl; [reflexivity|].
  destruct (n =? name) eqn:Hn; simpl; rewrite Hn; [reflexivity | exact IH].
Qed.

Lemma storage_get_update_other (name other : string) (f : Cache -> Cache)
    (cs : CacheStorage) :
  other <> name ->
  storage_get other (storage_update name f cs) = storage_get other cs.
Proof.
  intros Hne. unfold storage_get, storage_update.
  induction cs as [|[n c] cs IH]; simpl; [reflexivity|].
  destruct (n =? name) eqn:Hn; simpl.
  - apply String.eqb_eq in Hn. subst n.
    destruct (name =? other) eqn:Ho; [apply String.eqb_eq in Ho; congruence | exact IH].
  - destruct (n =? other); [reflexivity | exact IH].
Qed.

Lemma storage_get_open (name : string) (cs : CacheStorage) :
  storage_get name (storage_open name cs) =
  Some (match storage_get name cs with Some c => c | None => [] end).
Proof.
  unfold storage_open, storage_has, storage_get.
  induction cs as [|[n c] cs IH]; simpl.
  - now rewrite String.eqb_refl.
  - destruct (n =? name) eqn:Hn; simpl.
    + now rewrite Hn.
    + destruct (existsb (fun e => fst e =? name) cs) eqn:Hex; simpl; rewrite Hn.
      * exact IH.
      * exact IH.
Qed.


Lemma storable_is_get (r : Request) : storable r = true -> is_get r = true.
Proof. unfold storable. now intros H%andb_true_iff. Qed.



End CacheStorageFacts.

Section Executors.
Import SW.






End Executors.

Section Activation.
Import SW.

Lemma storage_get_filter (keep : string -> bool) (name : string) (cs : CacheStorage) :
  storage_get name (filter (fun e => keep (fst e)) cs) =
  if keep name then storage_get name cs else None.
Proof.
  unfold storage_get.
  induction cs as [|[n c] cs IH]; simpl.
  - now destruct (keep name).
  - destruct (n =? name) eqn:Hn.
    + apply String.eqb_eq in Hn. subst n.
      destruct (keep name) eqn:Hk; simpl.
      * now rewrite String.eqb_refl.
      * rewrite IH. reflexivity.
    + destruct (keep n); simpl; [rewrite Hn|]; exact IH.
Qed.

Lemma delete_old_storage (names : list string) (w : World) :
  storage (snd (delete_old names w)) =
  filter (fun e => negb (existsb (String.eqb (fst e)) names)) (storage w).
Proof.
  revert w. induction names as [|n names IH]; intros w; simpl.
  - symmetry. induction (storage w) as [|e cs IHcs]; simpl; [reflexivity | now rewrite IHcs at 1].
  - unfold bind, console_log, caches_delete. simpl. rewrite IH. simpl.
    unfold storage_delete.
    induction (storage w) as [|e cs IHcs]; simpl; [reflexivity|].
    destruct (fst e =? n) eqn:Hn; simpl; [exact IHcs|].
    destruct (existsb (String.eqb (fst e)) names); simpl; [exact IHcs | now rewrite IHcs].
Qed.

Lemma existsb_filter_self (p : string -> bool) (x : string) (l : list string) :
  In x l -> existsb (String.eqb x) (filter p l) = p x.
Proof.
  intros Hin. destruct (p x) eqn:Hp.
  - apply existsb_exists. exists x. split; [|apply String.eqb_refl].
    apply filter_In. now split.
  - destruct (existsb (String.eqb x) (filter p l)) eqn:Hex; [|reflexivity].
    apply existsb_exists in Hex. destruct Hex as [y [Hy Hxy]].
    apply String.eqb_eq in Hxy. subst y. apply filter_In in Hy. destruct Hy. congruence.
Qed.

Lemma is_old_current : is_old CACHE_NAME = false /\ is_old RUNTIME_CACHE = false.
Proof. split; reflexivity. Qed.

Lemma is_old_other (name : string) :
  name <> CACHE_NAME -> name <> RUNTIME_CACHE -> is_old name = true.
Proof.
  intros H1 H2. unfold is_old.
  apply String.eqb_neq in H1. apply String.eqb_neq in H2. now rewrite H1, H2.
Qed.

(** Claim C5.  The activate handler leaves in the storage exactly the caches
    named [CACHE_NAME] or [RUNTIME_CACHE], with their contents: every
    cache of another name is deleted, whatever else is going on, and the
    two current ones are as they were. *)
Theorem activate_purges_old_caches (w : World) :
  let after := snd (activate w) in
  storage after = filter (fun e => negb (is_old (fst e))) (storage w) /\
  (forall name,
     name <> CACHE_NAME -> name <> RUNTIME_CACHE ->
     storage_get name (storage after) = None) /\
  storage_get CACHE_NAME (storage after) = storage_get CACHE_NAME (storage w) /\
  storage_get RUNTIME_CACHE (storage after) = storage_get RUNTIME_CACHE (storage w).
Proof.
  intros after.
  assert (Hst : storage after = filter (fun e => negb (is_old (fst e))) (storage w)).
  { subst after. unfold activate, bind, console_log, caches_keys, clients_claim, called.
    simpl.
    destruct (delete_old _ _) as [u w'] eqn:Hd. simpl.
    replace (storage w') with (storage (snd (delete_old (filter is_old (map fst (storage w)))
      {| storage := storage w; trace := (trace w ++ [CallKeys])%list;
         console := (console w ++ ["[ServiceWorker] Activating..."])%list |})))
      by now rewrite Hd.
    rewrite delete_old_storage. simpl.
    apply filter_ext_in. intros e He.
    rewrite existsb_filter_self; [reflexivity|]. now apply in_map. }
  split; [exact Hst|]. rewrite Hst.
  split; [|split].
  - intros name H1 H2.
    rewrite (storage_get_filter (fun n => negb (is_old n))).
    now rewrite is_old_other.
  - now rewrite (storage_get_filter (fun n => negb (is_old n))).
  - now rewrite (storage_get_filter (fun n => negb (is_old n))).
Qed.

End Activation.

Section BackgroundSync.
Import JSString SW.

Lemma same_request_sym (a b : Request) : same_request a b = same_request b a.
Proof.
  unfold same_request. now rewrite (String.eqb_sym (url a)), (String.eqb_sym (method a)).
Qed.

Lemma filter_filter {A} (p q : A -> bool) (l : list A) :
  filter p (filter q l) = filter (fun x => q x && p x) l.
Proof.
  induction l as [|x l IH]; simpl; [reflexivity|].
  destruct (q x); simpl; [destruct (p x)|]; now rewrite IH.
Qed.

(** The calls [sync_requests] makes are those of its keys, in order. *)
Lemma sync_requests_trace (env : Env) (requests : list Request) (w : World) :
  trace (snd (sync_requests env RUNTIME_CACHE requests w)) =
  (trace w ++ flat_map (replayed env) requests)%list.
Proof.
  revert w. induction requests as [|r requests IH]; intros w; simpl.
  - now rewrite app_nil_r.
  - unfold bind, replayed, succeeds.
    destruct (is_pending r); simpl.
    + unfold fetch. destruct (net env r); simpl; rewrite IH; simpl;
        rewrite <- !app_assoc; reflexivity.
    + now rewrite IH.
Qed.






(** The two writers of a cache keep its keys GET requests. *)
Lemma cache_put_get_only (r : Request) (resp : Response) (c : Cache) :
  is_get r = true -> get_only c = true -> get_only (cache_put r resp c) = true.
Proof.
  unfold get_only, cache_put. intros Hr Hc. rewrite forallb_app. simpl.
  rewrite Hr. rewrite andb_true_r. rewrite forallb_forall in *.
  intros e He. apply filter_In in He. now apply Hc.
Qed.

Lemma storage_update_get_only (name : string) (f : Cache -> Cache) (cs : CacheStorage) :
  (forall c, get_only c = true -> get_only (f c) = true) ->
  storage_get_only cs = true -> storage_get_only (storage_update name f cs) = true.
Proof.
  intros Hf. unfold storage_get_only, storage_update.
  induction cs as [|[n c] cs IH]; simpl; [reflexivity|].
  intros H. apply andb_true_iff in H. destruct H as [Hc Hcs].
  destruct (n =? name); simpl; rewrite IH by exact Hcs;
    [rewrite (Hf c Hc) | rewrite Hc]; reflexivity.
Qed.

Lemma cache_put_in_get_only (cache : string) (r : Request) (resp : Response)
    (w : World) :
  storage_get_only (storage w) = true ->
  storage_get_only (storage (snd (cache_put_in cache r resp w))) = true.
Proof.
  intros Hw. unfold cache_put_in. destruct (storable r) eqn:Hst; [|exact Hw].
  cbn [snd storage with_storage called]. unfold with_storage. cbn [storage].
  apply storage_update_get_only; [|exact Hw].
  intros c Hc. apply cache_put_get_only; [now apply storable_is_get | exact Hc].
Qed.

Lemma cache_addAll_get_only (env : Env) (cache : string) (urls : list string)
    (w : World) :
  storage_get_only (storage w) = true ->
  storage_get_only (storage (snd (cache_addAll env cache urls w))) = true.
Proof.
  intros Hw. unfold cache_addAll.
  destruct (fetch_all env (map (request_of env) urls)) as [entries|] eqn:He;
    [|exact Hw].
  cbn [snd storage]. apply storage_update_get_only; [|exact Hw].
  assert (Hgets : forall e, In e entries -> is_get (fst e) = true).
  { intros e Hin.
    assert (Hk : In (fst e) (map (request_of env) urls)).
    { clear - He Hin. revert entries He Hin.
      induction (map (request_of env) urls) as [|r rs IH]; intros entries He Hin;
        simpl in He.
      - injection He as <-. destruct Hin.
      - destruct (net env r) as [resp|]; [|discriminate].
        destruct (ok_status resp); [|discriminate].
        destruct (fetch_all env rs) as [es|]; [|discriminate].
        simpl in He. injection He as <-. destruct Hin as [<- | Hin]; [now left|].
        right. now apply (IH es). }
    apply in_map_iff in Hk. destruct Hk as [u [<- _]]. reflexivity. }
  clear He. unfold put_all. induction entries as [|e entries IH]; intros c Hc;
    simpl; [exact Hc|].
  apply IH.
  - intros e' He'. apply Hgets. now right.
  - apply cache_put_get_only; [apply Hgets; now left | exact Hc].
Qed.


End BackgroundSync.

Section ServiceWorkerExamples.
Import JSString SW Examples.

(** First match wins: a script under [/api/] is a static asset. *)
Example api_script_is_cache_first :
  startsWith (pathname_of (url api_script)) "/api/" = true /\
  getCachingStrategy api_script = CACHE_FIRST.
Proof. split; reflexivity. Qed.

(** The rules of [getCachingStrategy] on a stylesheet, a framework file, a
    content file, an API call and a page. *)
Lemma getCachingStrategy_priority_witness :
  getCachingStrategy stylesheet = CACHE_FIRST /\
  getCachingStrategy framework_file = CACHE_FIRST /\
  getCachingStrategy content_file = CACHE_FIRST /\
  getCachingStrategy api_items = NETWORK_FIRST /\
  getCachingStrategy plans_page = NETWORK_FIRST.
Proof.
  split; [|split; [|split; [|split]]].
  - apply (proj1 (getCachingStrategy_priority stylesheet) "css").
    + simpl. auto.
    + reflexivity.
  - apply (proj1 (proj2 (getCachingStrategy_priority framework_file))). reflexivity.
  - apply (proj1 (proj2 (proj2 (getCachingStrategy_priority content_file)))). reflexivity.
  - apply (proj1 (proj2 (proj2 (proj2 (getCachingStrategy_priority api_items)))));
      reflexivity.
  - apply (proj1 (proj2 (proj2 (proj2 (getCachingStrategy_priority plans_page)))));
      reflexivity.
Defined.







(** The cache of the previous version is gone after activation. *)
Lemma activate_purges_old_caches_witness :
  storage_get "council-app-v0.9.0" (storage (snd (activate upgraded))) = None /\
  storage_get "council-app-v0.9.0" (storage upgraded)
    = Some [(request_of online "/old.css", ok "old")].
Proof.
  split.
  - apply (proj1 (proj2 (activate_purges_old_caches upgraded))); discriminate.
  - reflexivity.
Defined.


End ServiceWorkerExamples.

(** * Properties of the map wrappers *)

Section MapWrappers.
Import Leaflet Examples.


(** Claim C7, as stated, fails: the land-management wrapper returns [null]
    without writing anything to the console. *)
Example landmap_addMarker_is_silent :
  LandMap.map LandMap.initial = None /\
  LandMap.add (LandMap.AddMarker "-15.4" "28.3" "Plot 12" None "blue") LandMap.initial page
    = (Ret VNull, LandMap.initial, page) /\
  console (snd (LandMap.add (LandMap.AddMarker "-15.4" "28.3" "Plot 12" None "blue")
                  LandMap.initial page)) = console page.
Proof. repeat split. Qed.

(** Claim C7, as amended.  Called while the map handle is [null], every
    add-overlay operation returns without throwing and leaves the
    variables of its module and the Leaflet world as they were: it adds
    nothing to any registry or layer group.  In [leafletWrapper.js] it
    writes the error [Map not initialized] to the console and returns
    [undefined]; in [leafletMap.js] it returns [null], and in the GIS
    wrapper [undefined], with nothing written to the console. *)
Theorem add_overlay_without_map :
  (forall c s w,
     LeafletWrapper.map s = None ->
     LeafletWrapper.add c s w = (Ret VUndefined, s, logged_error w)) /\
  (forall c s w,
     LandMap.map s = None ->
     LandMap.add c s w = (Ret VNull, s, w)) /\
  (forall c s w,
     GisMap.map s = None ->
     GisMap.add c s w = (Ret VUndefined, s, w)).
Proof.
  split; [|split]; intros c s w Hnull; destruct c; simpl;
    unfold LeafletWrapper.addMarker, LeafletWrapper.addCircle, LeafletWrapper.addPolygon,
      LeafletWrapper.addPolyline, LeafletWrapper.addGeoJson, LeafletWrapper.not_initialized,
      LandMap.addMarker, LandMap.addParcel, LandMap.addChiefdomBoundary,
      GisMap.addMarker, GisMap.addCircle, GisMap.addPolygon, GisMap.addGeoJson,
      bind, get; rewrite Hnull; reflexivity.
Qed.

(** One add-overlay call of each wrapper before any map exists. *)
Lemma add_overlay_without_map_witness :
  LeafletWrapper.add (LeafletWrapper.AddCircle "-15.4" "28.3" "500" [])
                     LeafletWrapper.initial page
    = (Ret VUndefined, LeafletWrapper.initial, logged_error page) /\
  LandMap.add (LandMap.AddParcel [("-15.4", "28.3")] None) LandMap.initial page
    = (Ret VNull, LandMap.initial, page) /\
  GisMap.add (GisMap.AddPolygon [("-15.4", "28.3")] []) GisMap.initial page
    = (Ret VUndefined, GisMap.initial, page).
Proof.
  split; [|split].
  - apply (proj1 add_overlay_without_map). reflexivity.
  - apply (proj1 (proj2 add_overlay_without_map)). reflexivity.
  - apply (proj2 (proj2 add_overlay_without_map)). reflexivity.
Defined.

(** Claim C8 fails on [leafletMap.js]: [initializeMap] called a second
    time, for another container, installs the new map without removing
    the one it held; both instances are then alive, the first one out of
    reach of [disposeMap]. *)
Theorem initializeMap_keeps_prior_instance :
  let '(r1, s1, w1) :=
    LandMap.initializeMap "map-a" "-15.4" "28.3" "12" LandMap.initial page in
  let '(r2, s2, w2) := LandMap.initializeMap "map-b" "-15.4" "28.3" "12" s1 w1 in
  let '(r3, s3, w3) := LandMap.disposeMap s2 w2 in
  r1 = Ret (VBool true) /\ r2 = Ret (VBool true) /\
  LandMap.map s1 = Some 0 /\ LandMap.map s2 = Some 3 /\
  live_maps w2 = [3; 0] /\
  LandMap.map s3 = None /\ live_maps w3 = [0].
Proof. vm_compute. repeat split. Qed.

(** The other three wrappers do release the map they hold. *)
Example createMap_releases_prior_instance :
  let '(_, s1, w1) :=
    LeafletWrapper.createMap "map-a" "-15.4" "28.3" "12" LeafletWrapper.initial page in
  let '(_, s2, w2) := LeafletWrapper.createMap "map-b" "-15.4" "28.3" "12" s1 w1 in
  LeafletWrapper.map s1 = Some 0 /\ LeafletWrapper.map s2 = Some 3 /\ live_maps w2 = [3].
Proof. vm_compute. repeat split. Qed.

Example gis_createMap_releases_prior_instance :
  let '(_, s1, w1) := GisMap.createMap "map-a" "-15.4" "28.3" "12" GisMap.initial page in
  let '(_, s2, w2) := GisMap.createMap "map-b" "-15.4" "28.3" "12" s1 w1 in
  GisMap.map s1 = Some 0 /\ GisMap.map s2 = Some 2 /\ live_maps w2 = [2].
Proof. vm_compute. repeat split. Qed.

Example initializeLeafletMap_releases_prior_instance :
  let '(_, s1, w1) :=
    SpatialMap.initializeLeafletMap "map-a" "-15.4" "28.3" "12" SpatialMap.initial page in
  let '(_, s2, w2) := SpatialMap.initializeLeafletMap "map-b" "-15.4" "28.3" "12" s1 w1 in
  let '(r3, s3, w3) := SpatialMap.destroyLeafletMap s2 w2 in
  SpatialMap.spatialMap s1 = Some 0 /\ SpatialMap.spatialMap s2 = Some 2 /\
  live_maps w2 = [2] /\
  r3 = Ret (VBool true) /\ SpatialMap.spatialMap s3 = None /\ live_maps w3 = [].
Proof. vm_compute. repeat split. Qed.


(** *** The GIS wrapper *)

(** Removing layers one by one neither throws nor touches the module. *)
Lemma forEach_removeLayer {St A} (m : nat) (h : A -> nat) (xs : list A) (s : St) (w : World) :
  exists w',
    forEach (fun x => lift (Leaflet.removeLayer m (h x))) xs s w = (Ret tt, s, w').
Proof.
  revert w. induction xs as [|x xs IH]; intros w; simpl.
  - now exists w.
  - unfold bind at 1. unfold lift at 1. simpl. apply IH.
Qed.

Lemma clearMap_result (s : GisMap.State) (w : World) :
  exists w',
    GisMap.clearMap s w =
    (Ret VUndefined,
     match GisMap.map s with
     | Some _ => GisMap.set_markers [] (GisMap.set_layers [] s)
     | None => s
     end, w').
Proof.
  unfold GisMap.clearMap. unfold bind at 1. unfold get at 1.
  destruct (GisMap.map s) as [m|]; [|now exists w].
  unfold bind at 1.
  destruct (forEach_removeLayer m GisMap.handle (JSObject.values (GisMap.layers s)) s w)
    as [w1 ->].
  unfold bind at 1, modify at 1. unfold bind at 1.
  destruct (forEach_removeLayer m (fun x => x) (JSObject.values (GisMap.markers s))
              (GisMap.set_layers [] s) w1) as [w2 ->].
  now exists w2.
Qed.

Lemma step_keeps_registries (a : GisMap.Step) (s : GisMap.State) (w : World) :
  GisMap.registries_follow_map s ->
  GisMap.registries_follow_map (snd (fst (GisMap.step a s w))).
Proof.
  intros Hinv. destruct a as [elementId lat lng zoom|c|layerId layerData style|layerId| |layerId|change].
  - unfold GisMap.step, GisMap.createMap. run_eff. split_outcomes;
      cbn [fst snd]; try exact Hinv; intros H; discriminate H.
  - destruct c; unfold GisMap.step, GisMap.add, GisMap.addMarker, GisMap.addCircle,
      GisMap.addPolygon, GisMap.addGeoJson, GisMap.fresh_id; run_eff; split_outcomes;
      cbn [fst snd]; try exact Hinv; intros H; cbn in H; congruence.
  - unfold GisMap.step, GisMap.addLayer. run_eff. split_outcomes;
      cbn [fst snd]; try exact Hinv; intros H; cbn in H; congruence.
  - unfold GisMap.step, GisMap.removeLayer. run_eff.
    destruct (JSObject.lookup layerId (GisMap.layers s)) eqn:Hl; [|exact Hinv].
    destruct (GisMap.map s) eqn:Hm.
    + cbn. intros H. cbn in H. congruence.
    + destruct (Hinv Hm) as [Hlayers _]. rewrite Hlayers in Hl. discriminate Hl.
  - unfold GisMap.step. destruct (clearMap_result s w) as [w' ->]. cbn [fst snd].
    destruct (GisMap.map s) eqn:Hm; [|exact Hinv].
    intros H. cbn in H. congruence.
  - unfold GisMap.step, GisMap.exportToGeoJson. run_eff. split_outcomes;
      cbn [fst snd]; exact Hinv.
  - exact Hinv.
Qed.

Lemma run_keeps_registries (steps : list GisMap.Step) (s : GisMap.State) (w : World) :
  GisMap.registries_follow_map s ->
  GisMap.registries_follow_map (fst (GisMap.run steps s w)).
Proof.
  revert s w. induction steps as [|a steps IH]; intros s w Hinv; simpl; [exact Hinv|].
  pose proof (step_keeps_registries a s w Hinv) as Hstep.
  destruct (GisMap.step a s w) as [[o s'] w']. now apply IH.
Qed.

(** The export is the list of what the registry holds: a circle added to
    a map comes out as the feature Leaflet makes of it, and the empty
    collection is the text with an empty [features] array. *)
Example export_lists_added_circle :
  let '(s, w) :=
    GisMap.run [GisMap.DoCreateMap "map-a" "-15.4" "28.3" "12";
                GisMap.DoAdd (GisMap.AddCircle "-15.4" "28.3" "500" [])]
               GisMap.initial surveyed in
  GisMap.exportToGeoJson None s w
    = (Ret (VStr (stringify (GeoFeatureCollection [feature_text 2]))), s, w) /\
  stringify (GeoFeatureCollection [])
    = "{" ++ jstr "type" ++ ":" ++ jstr "FeatureCollection" ++ ","
          ++ jstr "features" ++ ":[]}".
Proof. vm_compute. split; reflexivity. Qed.

(** Claim C9.  Whatever the host and the page did before, [clearMap]
    returns, and [exportToGeoJson] called next without a layer identifier
    returns the text of a feature collection with no feature. *)
Theorem clearMap_then_export_is_empty (steps : list GisMap.Step) (w0 : World) :
  let '(s, w) := GisMap.run steps GisMap.initial w0 in
  let '(cleared, s1, w1) := GisMap.clearMap s w in
  cleared = Ret VUndefined /\
  GisMap.exportToGeoJson None s1 w1
    = (Ret (VStr (stringify (GeoFeatureCollection []))), s1, w1).
Proof.
  assert (Hinit : GisMap.registries_follow_map GisMap.initial) by (intros _; now split).
  pose proof (run_keeps_registries steps GisMap.initial w0 Hinit) as Hinv.
  destruct (GisMap.run steps GisMap.initial w0) as [s w]. cbn [fst] in Hinv.
  destruct (clearMap_result s w) as [w1 ->].
  split; [reflexivity|].
  unfold GisMap.exportToGeoJson, bind, get, ret. cbn beta iota.
  destruct (GisMap.map s) eqn:Hm.
  - reflexivity.
  - destruct (Hinv Hm) as [-> _]. reflexivity.
Qed.

End MapWrappers.

Section Dashboard.
Import Leaflet Examples SpatialMap.

Ltac unfold_spatial :=
  unfold invoke, try_block,
    initializeLeafletMap, addLeafletMarker, addLeafletPolygon, addLeafletCircle,
    clearLeafletMarkers, clearLeafletPolygons, fitMapToBounds, setMapView,
    destroyLeafletMap, addLeafletHeatmap,
    initializeLeafletMap_try, addLeafletMarker_try, addLeafletPolygon_try,
    addLeafletCircle_try, clearLeafletMarkers_try, clearLeafletPolygons_try,
    fitMapToBounds_try, setMapView_try, destroyLeafletMap_try, addLeafletHeatmap_try,
    not_initialized, catch_false in *.













(** In every state the wrapper can reach, a missing map means empty
    registries. *)
Lemma remove_each_shape (layers : list nat) (s : State) (w : World) :
  exists o w', remove_each layers s w = (o, s, w').
Proof.
  unfold remove_each. revert w.
  induction layers as [|l layers IH]; intros w; simpl; [now eexists; eexists|].
  unfold bind at 1. unfold bind at 1. unfold get at 1. unfold bind at 1.
  unfold deref. destruct (spatialMap s); simpl; [apply IH | now eexists; eexists].
Qed.

Lemma invoke_keeps_registries (c : Call) (s : State) (w : World) :
  registries_follow_map s ->
  registries_follow_map (snd (fst (invoke c s w))).
Proof.
  intros Hinv. destruct c.
  5: { unfold invoke, clearLeafletMarkers, clearLeafletMarkers_try, catch_false.
       unfold try_catch. unfold bind at 1. unfold get at 1. unfold bind at 1.
       destruct (remove_each_shape (markers s) s w) as (o & w' & ->).
       destruct o; run_eff; cbn [fst snd]; [|exact Hinv].
       intros H. cbn in H. destruct (Hinv H) as [_ Hp]. now split. }
  5: { unfold invoke, clearLeafletPolygons, clearLeafletPolygons_try, catch_false.
       unfold try_catch. unfold bind at 1. unfold get at 1. unfold bind at 1.
       destruct (remove_each_shape (polygons s) s w) as (o & w' & ->).
       destruct o; run_eff; cbn [fst snd]; [|exact Hinv].
       intros H. cbn in H. destruct (Hinv H) as [Hm _]. now split. }
  all: unfold_spatial; run_eff; split_outcomes; cbn [fst snd]; try exact Hinv;
    intros H; cbn in H; try congruence; cbn; try (now split).
Qed.

Lemma dashboard_registries_follow_map (calls : list Call) (w0 : World) :
  registries_follow_map (fst (run calls initial w0)).
Proof.
  assert (Hinit : registries_follow_map initial) by (intros _; now split).
  revert Hinit. generalize initial as s. revert w0.
  induction calls as [|c calls IH]; intros w s Hinv; simpl; [exact Hinv|].
  pose proof (invoke_keeps_registries c s w Hinv) as Hstep.
  destruct (invoke c s w) as [[o s'] w']. now apply IH.
Qed.

End Dashboard.

(** * Further properties of the service worker *)

Section Listeners.
Import JSString SW.

Ltac run_sw :=
  unfold cacheFirst, networkFirst, staleWhileRevalidate, store_if_ok,
    bind, ret, caches_match, fetch, caches_open, cache_put_in, console_log,
    with_storage, called; simpl.

Lemma getCachingStrategy_two_valued (request : Request) :
  getCachingStrategy request = CACHE_FIRST \/ getCachingStrategy request = NETWORK_FIRST.
Proof.
  unfold getCachingStrategy.
  destruct (matches_static _); [now left|].
  destruct (startsWith _ "/_framework/"); [now left|].
  destruct (startsWith _ "/_content/"); [now left|].
  destruct (startsWith _ "/api/"); [now right|].
  destruct (endsWith _ "/" || endsWith _ ".html"); now right.
Qed.

(** The fetch listener leaves alone, without a single platform call,
    every request of another origin; a request of the worker's origin is
    answered by [cacheFirst] when the selector says cache-first and by
    [networkFirst] otherwise, so it always gets a response. *)
Theorem onFetch_dispatch (env : Env) (request : Request) (w : World) :
  (origin_of (url request) <> origin env ->
     onFetch env request w = (NotHandled, w)) /\
  (origin_of (url request) = origin env ->
   startsWith (url request) "http" = true ->
     onFetch env request w =
       let (response, w') :=
         match getCachingStrategy request with
         | CACHE_FIRST => cacheFirst env request w
         | _ => networkFirst env request w
         end in
       (RespondedWith (Some response), w')).
Proof.
  unfold onFetch. split.
  - intros Hne. apply String.eqb_neq in Hne. now rewrite Hne.
  - intros Ho Hh. apply String.eqb_eq in Ho. rewrite Ho, Hh. cbn [negb].
    destruct (getCachingStrategy_two_valued request) as [-> | ->];
      unfold bind, ret; now destruct (_ env request w).
Qed.

Lemma onFetch_dispatch_witness :
  onFetch Examples.offline Examples.cdn_script Examples.installed
    = (NotHandled, Examples.installed) /\
  fst (onFetch Examples.offline Examples.api_items Examples.installed)
    = RespondedWith (Some offline_503).
Proof.
  split.
  - apply (proj1 (onFetch_dispatch Examples.offline Examples.cdn_script
                    Examples.installed)).
    discriminate.
  - rewrite (proj2 (onFetch_dispatch Examples.offline Examples.api_items
                      Examples.installed)); reflexivity.
Defined.

Lemma same_request_trans (a b c : Request) :
  same_request a b = true -> same_request b c = true -> same_request a c = true.
Proof.
  unfold same_request. rewrite !andb_true_iff, !String.eqb_eq.
  intros [-> ->] [-> ->]. now split.
Qed.

Lemma cache_match_put_other (k q : Request) (v : Response) (c : Cache) :
  same_request k q = false ->
  cache_match (cache_put k v c) q = cache_match c q.
Proof.
  intros Hkq. unfold cache_match, cache_put.
  destruct (is_get q); [|reflexivity].
  induction c as [|e c IH]; simpl.
  - now rewrite Hkq.
  - destruct (same_request (fst e) k) eqn:Hek; simpl.
    + destruct (same_request (fst e) q) eqn:Heq; [|exact IH].
      rewrite same_request_sym in Hek.
      now rewrite (same_request_trans _ _ _ Hek Heq) in Hkq.
    + destruct (same_request (fst e) q); [reflexivity | exact IH].
Qed.

Lemma cache_match_same_key (k q : Request) (c : Cache) :
  same_request k q = true -> cache_match c k = cache_match c q.
Proof.
  intros Hkq. unfold cache_match.
  assert (Hm : is_get k = is_get q).
  { unfold same_request in Hkq. apply andb_true_iff in Hkq. destruct Hkq as [_ Hm].
    apply String.eqb_eq in Hm. unfold is_get. now rewrite Hm. }
  rewrite Hm. destruct (is_get q); [|reflexivity]. f_equal.
  induction c as [|e c IH]; simpl; [reflexivity|].
  destruct (same_request (fst e) k) eqn:Hek.
  - now rewrite (same_request_trans _ _ _ Hek Hkq).
  - destruct (same_request (fst e) q) eqn:Heq; [|exact IH].
    rewrite same_request_sym in Hkq.
    now rewrite (same_request_trans _ _ _ Heq Hkq) in Hek.
Qed.

(** After a series of puts, a key answers with what was put for it, when
    the puts agree on that key. *)
Lemma cache_match_put_all (entries : list (Request * Response)) (q : Request)
    (resp : Response) (c : Cache) :
  is_get q = true ->
  In (q, resp) entries \/ cache_match c q = Some resp ->
  (forall e, In e entries -> same_request (fst e) q = true -> snd e = resp) ->
  cache_match (put_all entries c) q = Some resp.
Proof.
  intros Hget. unfold put_all. revert c.
  induction entries as [|e entries IH]; intros c Hq Hagree; simpl.
  - destruct Hq as [[] | Hq]. exact Hq.
  - apply IH.
    + destruct Hq as [[-> | Hin] | Hc].
      * right. now apply cache_match_put.
      * now left.
      * right. destruct (same_request (fst e) q) eqn:Heq.
        -- rewrite <- (Hagree e (or_introl eq_refl) Heq).
           rewrite <- (cache_match_same_key _ _ _ Heq). apply cache_match_put.
           unfold same_request in Heq. apply andb_true_iff in Heq.
           destruct Heq as [_ Hm]. apply String.eqb_eq in Hm.
           unfold is_get in *. now rewrite Hm.
        -- now rewrite cache_match_put_other.
    + intros e' He'. apply Hagree. now right.
Qed.

Lemma fetch_all_some (env : Env) (requests : list Request)
    (entries : list (Request * Response)) :
  fetch_all env requests = Some entries ->
  map fst entries = requests /\
  forall e, In e entries -> net env (fst e) = Some (snd e) /\ ok_status (snd e) = true.
Proof.
  revert entries. induction requests as [|r requests IH]; intros entries; simpl.
  - intros H. injection H as <-. split; [reflexivity | intros e []].
  - destruct (net env r) as [resp|] eqn:Hnet; [|discriminate].
    destruct (ok_status resp) eqn:Hok; [|discriminate].
    destruct (fetch_all env requests) as [es|]; [|discriminate].
    simpl. intros H. injection H as <-.
    destruct (IH es eq_refl) as [Hfst Hall]. split.
    + simpl. now rewrite Hfst.
    + intros e [<- | He]; [now split | now apply Hall].
Qed.

Lemma fetch_all_ok (env : Env) (requests : list Request) :
  (forall r, In r requests ->
     exists resp, net env r = Some resp /\ ok_status resp = true) ->
  exists entries, fetch_all env requests = Some entries.
Proof.
  induction requests as [|r requests IH]; intros Hall; simpl.
  - now eexists.
  - destruct (Hall r (or_introl eq_refl)) as [resp [-> ->]].
    destruct IH as [es ->]; [intros r' Hr'; apply Hall; now right|].
    now eexists.
Qed.


Lemma request_of_same (env : Env) (u u' : string) :
  same_request (request_of env u) (request_of env u') = true ->
  request_of env u = request_of env u'.
Proof.
  unfold same_request, request_of. simpl. rewrite andb_true_iff, String.eqb_eq.
  now intros [-> _].
Qed.

(** What [install] leaves in the precache when every asset is there. *)
Lemma install_result (env : Env) (w : World) (entries : list (Request * Response)) :
  fetch_all env (map (request_of env) PRECACHE_ASSETS) = Some entries ->
  fst (install env w) = SkippedWaiting /\
  storage (snd (install env w)) =
    storage_update CACHE_NAME (put_all entries) (storage_open CACHE_NAME (storage w)).
Proof.
  intros Hall. unfold install, bind, console_log, caches_open, cache_addAll, ret,
    with_storage, called.
  cbn [storage trace console fst snd]. rewrite Hall. now split.
Qed.

(** Whatever the cache held, after the puts of [install] it answers
    each asset with the response fetched for it. *)
Lemma precached_everywhere (env : Env) (entries : list (Request * Response)) :
  fetch_all env (map (request_of env) PRECACHE_ASSETS) = Some entries ->
  forall u, In u PRECACHE_ASSETS ->
  forall resp, net env (request_of env u) = Some resp ->
  forall c, cache_match (put_all entries c) (request_of env u) = Some resp.
Proof.
  intros He u Hu resp Hnet c.
  destruct (fetch_all_some env _ entries He) as [Hfst Hent].
  apply cache_match_put_all.
  - reflexivity.
  - left.
    assert (Hin : In (request_of env u) (map fst entries))
      by (rewrite Hfst; now apply in_map).
    apply in_map_iff in Hin. destruct Hin as [[q r] [Hq Hin]]. simpl in Hq. subst q.
    destruct (Hent _ Hin) as [Hnet' _]. simpl in Hnet'.
    rewrite Hnet in Hnet'. injection Hnet' as <-. exact Hin.
  - intros e He' Hsame.
    assert (Hin : In (fst e) (map fst entries)) by now apply in_map.
    rewrite Hfst in Hin. apply in_map_iff in Hin. destruct Hin as [u' [Hu' _]].
    rewrite <- Hu' in Hsame. apply request_of_same in Hsame.
    destruct (Hent e He') as [Hnet' _]. rewrite <- Hu', Hsame, Hnet in Hnet'.
    now injection Hnet'.
Qed.

Lemma install_precached (env : Env) (w : World) :
  (forall u, In u PRECACHE_ASSETS ->
     exists resp, net env (request_of env u) = Some resp /\ ok_status resp = true) ->
  fst (install env w) = SkippedWaiting /\
  forall u, In u PRECACHE_ASSETS ->
    option_map (fun c => cache_match c (request_of env u))
               (storage_get CACHE_NAME (storage (snd (install env w))))
    = Some (net env (request_of env u)).
Proof.
  intros Hall.
  destruct (fetch_all_ok env (map (request_of env) PRECACHE_ASSETS)) as [entries He].
  { intros r Hr. apply in_map_iff in Hr. destruct Hr as [u [<- Hu]]. now apply Hall. }
  destruct (install_result env w entries He) as [Hout Hst].
  split; [exact Hout|]. intros u Hu. rewrite Hst.
  rewrite storage_get_update, storage_get_open. cbn [option_map]. f_equal.
  destruct (Hall u Hu) as [resp [Hnet Hok]]. rewrite Hnet.
  now apply (precached_everywhere env entries He u).
Qed.



Lemma storage_match_found (cs : CacheStorage) (name : string) (c : Cache)
    (q : Request) (resp : Response) :
  storage_get name cs = Some c -> cache_match c q = Some resp ->
  exists found, storage_match cs q = Some found.
Proof.
  unfold storage_get.
  induction cs as [|[n c'] cs IH]; simpl; [discriminate|].
  destruct (n =? name).
  - simpl. intros H Hm. injection H as ->. rewrite Hm. now eexists.
  - intros H Hm. destruct (cache_match c' q); [now eexists | now apply IH].
Qed.

(** When the caches of one name are the only ones to answer a request,
    [caches.match] gives what they answer. *)
Lemma storage_match_only (name : string) (f : Cache -> Cache) (cs : CacheStorage)
    (q : Request) (resp : Response) :
  (forall n c, In (n, c) cs -> n <> name -> cache_match c q = None) ->
  (forall c, cache_match (f c) q = Some resp) ->
  storage_has name cs = true ->
  storage_match (storage_update name f cs) q = Some resp.
Proof.
  intros Hother Hf. unfold storage_has, storage_update.
  induction cs as [|[n c] cs IH]; simpl; [discriminate|].
  destruct (n =? name) eqn:Hn; simpl.
  - intros _. now rewrite Hf.
  - intros Hhas. apply String.eqb_neq in Hn.
    rewrite (Hother n c (or_introl eq_refl) Hn).
    apply IH; [|exact Hhas]. intros n' c' Hin. apply Hother. now right.
Qed.

Lemma storage_open_has (name : string) (cs : CacheStorage) :
  storage_has name (storage_open name cs) = true.
Proof.
  unfold storage_open. destruct (storage_has name cs) eqn:Hhas; [exact Hhas|].
  unfold storage_has. rewrite existsb_app. simpl. rewrite String.eqb_refl.
  now rewrite orb_true_r.
Qed.

Lemma storage_open_in (name : string) (cs : CacheStorage) (n : string) (c : Cache) :
  In (n, c) (storage_open name cs) -> n <> name -> In (n, c) cs.
Proof.
  unfold storage_open. destruct (storage_has name cs); [auto|].
  intros Hin Hne. apply in_app_or in Hin. destruct Hin as [Hin | [Heq | []]];
    [exact Hin|]. injection Heq as <- _. contradiction.
Qed.

(** Once [install] has succeeded, a navigation that finds the network
    down and no entry of its own is answered with the offline document
    that [caches.match] finds, the first in the order in which the caches
    were created, and not with the synthetic 503 (as long as no other
    handler changes the storage meanwhile).  When no cache but the
    precache holds [/offline.html], that document is the one [install]
    fetched. *)
Theorem offline_navigation_after_install (env later : Env) (request : Request)
    (w : World) :
  (forall u, In u PRECACHE_ASSETS ->
     exists resp, net env (request_of env u) = Some resp /\ ok_status resp = true) ->
  origin later = origin env ->
  isolated later ->
  net later request = None ->
  mode request = "navigate" ->
  let installed := snd (install env w) in
  storage_match (storage installed) request = None ->
  (exists document,
     storage_match (storage installed) (request_of later OFFLINE_URL) = Some document /\
     fst (networkFirst later request installed) = document) /\
  ((forall name c, In (name, c) (storage w) -> name <> CACHE_NAME ->
      cache_match c (request_of env OFFLINE_URL) = None) ->
   exists precached,
     net env (request_of env OFFLINE_URL) = Some precached /\
     fst (networkFirst later request installed) = precached).
Proof.
  intros Hall Horigin Hiso Hnet Hnav installed Hmiss.
  assert (Hin : In OFFLINE_URL PRECACHE_ASSETS) by (simpl; tauto).
  assert (Hreq : request_of later OFFLINE_URL = request_of env OFFLINE_URL)
    by (unfold request_of; now rewrite Horigin).
  assert (Hserved : forall document,
            storage_match (storage installed) (request_of env OFFLINE_URL) = Some document ->
            fst (networkFirst later request installed) = document).
  { intros document Hdoc. run_sw. rewrite Hnet. simpl.
    rewrite !Hiso, Hmiss, Hnav. simpl. rewrite Hreq. fold installed. now rewrite Hdoc. }
  split.
  - destruct (install_precached env w Hall) as [_ Hpre].
    specialize (Hpre OFFLINE_URL Hin). fold installed in Hpre.
    destruct (Hall OFFLINE_URL Hin) as [resp [Hresp _]]. rewrite Hresp in Hpre.
    destruct (storage_get CACHE_NAME (storage installed)) as [c|] eqn:Hc; [|discriminate].
    simpl in Hpre. injection Hpre as Hpre.
    destruct (storage_match_found _ _ _ _ _ Hc Hpre) as [document Hdoc].
    exists document. rewrite Hreq. split; [exact Hdoc | now apply Hserved].
  - intros Hother.
    destruct (Hall OFFLINE_URL Hin) as [precached [Hresp _]].
    exists precached. split; [exact Hresp|]. apply Hserved.
    destruct (fetch_all_ok env (map (request_of env) PRECACHE_ASSETS)) as [entries He].
    { intros r Hr. apply in_map_iff in Hr. destruct Hr as [u [<- Hu]]. now apply Hall. }
    destruct (install_result env w entries He) as [_ Hst].
    subst installed. rewrite Hst.
    apply storage_match_only.
    + intros n c Hc Hne. apply (Hother n c); [|exact Hne].
      now apply (storage_open_in CACHE_NAME).
    + intros c. now apply (precached_everywhere env entries He OFFLINE_URL).
    + apply storage_open_has.
Qed.

Lemma offline_navigation_after_install_witness :
  (exists document,
     storage_match (storage (snd (install Examples.online Examples.upgraded)))
       (request_of Examples.offline OFFLINE_URL) = Some document /\
     fst (networkFirst Examples.offline Examples.plans_page
            (snd (install Examples.online Examples.upgraded))) = document) /\
  fst (networkFirst Examples.offline Examples.plans_page
         (snd (install Examples.online Examples.fresh))) = Examples.ok "fresh".
Proof.
  split.
  - exact (proj1 (offline_navigation_after_install Examples.online Examples.offline
                    Examples.plans_page Examples.upgraded
                    (fun u _ => ex_intro _ (Examples.ok "fresh") (conj eq_refl eq_refl))
                    eq_refl (fun cs => eq_refl) eq_refl eq_refl eq_refl)).
  - destruct (proj2 (offline_navigation_after_install Examples.online Examples.offline
                       Examples.plans_page Examples.fresh
                       (fun u _ => ex_intro _ (Examples.ok "fresh") (conj eq_refl eq_refl))
                       eq_refl (fun cs => eq_refl) eq_refl eq_refl eq_refl))
      as [precached [Hfetched Hserved]].
    + intros name c [].
    + injection Hfetched as <-. exact Hserved.
Defined.

Lemma delete_each_storage (names : list string) (w : World) :
  storage (snd (delete_each names w)) =
  filter (fun e => negb (existsb (String.eqb (fst e)) names)) (storage w).
Proof.
  revert w. induction names as [|n names IH]; intros w; simpl.
  - symmetry. induction (storage w) as [|e cs IHcs]; simpl;
      [reflexivity | now rewrite IHcs at 1].
  - unfold bind, caches_delete. simpl. rewrite IH. simpl.
    unfold storage_delete.
    induction (storage w) as [|e cs IHcs]; simpl; [reflexivity|].
    destruct (fst e =? n) eqn:Hn; simpl; [exact IHcs|].
    destruct (existsb (String.eqb (fst e)) names); simpl; [exact IHcs | now rewrite IHcs].
Qed.

Lemma clear_cache_storage (env : Env) (w : World) :
  storage (snd (onMessage env CLEAR_CACHE w)) = [].
Proof.
  unfold onMessage, bind, console_log, caches_keys, called, ret. simpl.
  destruct (delete_each _ _) as [u w'] eqn:Hd. simpl.
  match type of Hd with delete_each ?ns ?w0 = _ =>
    replace (storage w') with (storage (snd (delete_each ns w0))) by now rewrite Hd
  end.
  rewrite delete_each_storage. simpl.
  assert (Hall : forall e, In e (storage w) ->
            negb (existsb (String.eqb (fst e)) (map fst (storage w))) = false).
  { intros e He. apply negb_false_iff, existsb_exists. exists (fst e).
    split; [now apply in_map | apply String.eqb_refl]. }
  induction (storage w) as [|e cs IH]; [reflexivity|].
  cbn [filter]. rewrite (Hall e (or_introl eq_refl)).
  clear - Hall. 
  assert (Hrest : forall x, In x cs ->
            negb (existsb (String.eqb (fst x)) (map fst (e :: cs))) = false)
    by (intros x Hx; apply Hall; now right).
  clear Hall. revert Hrest. generalize (map fst (e :: cs)) as names.
  induction cs as [|x cs IHcs]; intros names Hrest; [reflexivity|].
  cbn [filter]. rewrite (Hrest x (or_introl eq_refl)).
  apply IHcs. intros y Hy. apply Hrest. now right.
Qed.

(** The [CLEAR_CACHE] message deletes every cache, the two current ones
    included; with the network down, every request is then answered
    with the synthetic 503 by both executors, navigations too. *)
Theorem clear_cache_leaves_nothing (env later : Env) (request : Request) (w : World) :
  let cleared := snd (onMessage env CLEAR_CACHE w) in
  storage cleared = [] /\
  (isolated later -> net later request = None ->
     fst (cacheFirst later request cleared) = offline_503 /\
     fst (networkFirst later request cleared) = offline_503).
Proof.
  intros cleared. assert (Hst : storage cleared = []) by apply clear_cache_storage.
  split; [exact Hst|]. intros Hiso Hnet. split.
  - run_sw. rewrite Hst. simpl. now rewrite Hnet.
  - run_sw. rewrite Hnet. simpl. rewrite Hiso, Hst. simpl.
    now destruct (mode request =? "navigate").
Qed.

Lemma clear_cache_leaves_nothing_witness :
  fst (cacheFirst Examples.offline Examples.stylesheet
         (snd (onMessage Examples.online CLEAR_CACHE Examples.installed))) = offline_503.
Proof.
  apply (proj2 (clear_cache_leaves_nothing Examples.online Examples.offline
                  Examples.stylesheet Examples.installed)).
  - intros cs. reflexivity.
  - reflexivity.
Defined.

Lemma or_value_truthy (value : option Json) (fallback : Json) :
  truthy fallback = true -> truthy (or_value value fallback) = true.
Proof.
  intros Hf. unfold or_value. destruct value as [v|]; [|exact Hf].
  destruct (truthy v) eqn:Hv; [exact Hv | exact Hf].
Qed.

(** Whatever the push message carries, the title, the icon, the badge
    and the tag given to [showNotification] are truthy values, the
    payload's own when it has a truthy one and the default otherwise, and
    the actions are [view] and [dismiss].  Without data the default
    notification is shown; a payload that is not JSON, or is the JSON
    [null], becomes the body of the default notification; with any other
    payload [data] is the payload's, or an empty object. *)
Theorem onPush_notification (data : PushData) :
  let shown := onPush data in
  (truthy (n_title shown) = true /\ truthy (n_icon shown) = true /\
   truthy (n_badge shown) = true /\ truthy (n_tag shown) = true) /\
  n_actions shown = [("view", "View"); ("dismiss", "Dismiss")] /\
  (data = NoPushData -> shown = default_notification) /\
  (forall text parsed,
     data = PushText text parsed -> parsed = None \/ parsed = Some JNull ->
     shown =
       mkNotification (JString "Council App Notification") (JString text)
                      (JString "/icon-192.png") (JString "/icon-192.png")
                      (JString "council-notification") (JBool false) None
                      [("view", "View"); ("dismiss", "Dismiss")]) /\
  (forall text payload,
     data = PushText text (Some payload) -> payload <> JNull ->
     (forall name (field : Notification -> Json) fallback,
        In (name, field, fallback)
           [("title", n_title, JString "Council App Notification");
            ("body", n_body, JString "You have a new notification");
            ("icon", n_icon, JString "/icon-192.png");
            ("badge", n_badge, JString "/icon-192.png");
            ("tag", n_tag, JString "council-notification");
            ("requireInteraction", n_requireInteraction, JBool false)] ->
        (forall v, member name payload = Some v -> truthy v = true -> field shown = v) /\
        ((forall v, member name payload = Some v -> truthy v = false) ->
         field shown = fallback)) /\
     (forall v, member "data" payload = Some v -> truthy v = true ->
        n_data shown = Some v) /\
     ((forall v, member "data" payload = Some v -> truthy v = false) ->
      n_data shown = Some (JObject []))).
Proof.
  intros shown. subst shown.
  assert (Hor : forall value fallback,
            (forall v, value = Some v -> truthy v = true -> or_value value fallback = v) /\
            ((forall v, value = Some v -> truthy v = false) ->
             or_value value fallback = fallback)).
  { intros value fallback. unfold or_value. split.
    - intros v -> Hv. now rewrite Hv.
    - intros Hall. destruct value as [v|]; [|reflexivity]. now rewrite (Hall v eq_refl). }
  split; [|split; [|split; [|split]]].
  - destruct data as [|text [[| | | | |]|]]; cbn;
      repeat split; try reflexivity; apply or_value_truthy; reflexivity.
  - now destruct data as [|text [[| | | | |]|]].
  - now intros ->.
  - intros text parsed -> [-> | ->]; reflexivity.
  - intros text payload -> Hnot.
    assert (Hshown : onPush (PushText text (Some payload)) =
              mkNotification
                (or_value (member "title" payload) (n_title default_notification))
                (or_value (member "body" payload) (n_body default_notification))
                (or_value (member "icon" payload) (n_icon default_notification))
                (or_value (member "badge" payload) (n_badge default_notification))
                (or_value (member "tag" payload) (n_tag default_notification))
                (or_value (member "requireInteraction" payload) (JBool false))
                (Some (or_value (member "data" payload) (JObject [])))
                (n_actions default_notification))
      by (destruct payload; [contradiction | reflexivity..]).
    rewrite Hshown. cbn [n_title n_body n_icon n_badge n_tag n_requireInteraction n_data].
    split; [|split].
    + intros name field fallback Hcase.
      repeat (destruct Hcase as [Hcase | Hcase];
              [injection Hcase as <- <- <-; apply Hor|]).
      destruct Hcase.
    + intros v Hv Ht. f_equal. now apply Hor.
    + intros Hall. f_equal. now apply Hor.
Qed.

(** A payload whose title is an empty array, which is truthy, and whose
    body is the empty string; and a message that is not JSON. *)
Lemma onPush_notification_witness :
  (n_title (onPush (PushText "{}" (Some (JObject [("title", JArray []);
                                                    ("body", JString "");
                                                    ("data", JString "")]))))
     = JArray [] /\
   n_body (onPush (PushText "{}" (Some (JObject [("title", JArray []);
                                                   ("body", JString "");
                                                   ("data", JString "")]))))
     = JString "You have a new notification" /\
   n_data (onPush (PushText "{}" (Some (JObject [("title", JArray []);
                                                   ("body", JString "");
                                                   ("data", JString "")]))))
     = Some (JObject [])) /\
  onPush (PushText "Road closed" None) =
    mkNotification (JString "Council App Notification") (JString "Road closed")
                   (JString "/icon-192.png") (JString "/icon-192.png")
                   (JString "council-notification") (JBool false) None
                   [("view", "View"); ("dismiss", "Dismiss")].
Proof.
  split.
  - destruct (proj2 (proj2 (proj2 (proj2
      (onPush_notification
         (PushText "{}" (Some (JObject [("title", JArray []); ("body", JString "");
                                        ("data", JString "")]))))))) "{}" _ eq_refl)
      as [Hfields [_ Hdata]]; [discriminate|].
    split; [|split].
    + apply (proj1 (Hfields "title" n_title _ (or_introl eq_refl)) (JArray []));
        reflexivity.
    + apply (proj2 (Hfields "body" n_body _ (or_intror (or_introl eq_refl)))).
      intros v Hv. injection Hv as <-. reflexivity.
    + apply Hdata. intros v Hv. injection Hv as <-. reflexivity.
  - apply (proj1 (proj2 (proj2 (proj2
             (onPush_notification (PushText "Road closed" None))))) "Road closed" None).
    + reflexivity.
    + now left.
Defined.

Lemma first_showing_some (target : string) (windowClients : list Client) (c : Client) :
  first_showing target windowClients = Some c ->
  In c windowClients /\ client_url c = target /\ can_focus c = true.
Proof.
  induction windowClients as [|x xs IH]; simpl; [discriminate|].
  destruct ((client_url x =? target) && can_focus x) eqn:Hx.
  - intros H. injection H as <-. apply andb_true_iff in Hx. destruct Hx as [Hu Hf].
    apply String.eqb_eq in Hu. auto.
  - intros H. destruct (IH H) as [Hin Hrest]. auto.
Qed.

Lemma first_showing_none (target : string) (windowClients : list Client) :
  first_showing target windowClients = None <->
  forall c, In c windowClients -> client_url c = target -> can_focus c = false.
Proof.
  induction windowClients as [|x xs IH]; simpl.
  - split; [intros _ c [] | reflexivity].
  - destruct ((client_url x =? target) && can_focus x) eqn:Hx.
    + split; [discriminate|]. intros Hall.
      apply andb_true_iff in Hx. destruct Hx as [Hu Hf]. apply String.eqb_eq in Hu.
      rewrite (Hall x (or_introl eq_refl) Hu) in Hf. discriminate.
    + rewrite IH. split.
      * intros Hall c [<- | Hc] Hu; [|now apply Hall].
        apply String.eqb_eq in Hu. rewrite Hu in Hx. exact Hx.
      * intros Hall c Hc. apply Hall. now right.
Qed.

Lemma first_showing_first (target : string) (windowClients : list Client) (c : Client) :
  first_showing target windowClients = Some c ->
  exists before after,
    windowClients = (before ++ c :: after)%list /\
    forall x, In x before -> client_url x = target -> can_focus x = false.
Proof.
  induction windowClients as [|x xs IH]; simpl; [discriminate|].
  destruct ((client_url x =? target) && can_focus x) eqn:Hx.
  - intros H. injection H as <-. exists [], xs. split; [reflexivity | intros y []].
  - intros H. destruct (IH H) as [before [after [-> Hnone]]].
    exists (x :: before), after. split; [reflexivity|].
    intros y [<- | Hy] Hu; [|now apply Hnone].
    apply String.eqb_eq in Hu. rewrite Hu in Hx. exact Hx.
Qed.

(** A click on a notification always closes it.  On the action [view]
    the listener focuses the first window, in the order of
    [clients.matchAll], that shows the target and can be focused, and
    then opens none; it opens a window only when there is no such window
    and [openWindow] exists.  On any other action, also a click outside
    the buttons, it does nothing more. *)
Theorem onNotificationClick_windows (action : string) (target : option string)
    (windowClients : list Client) (can_open : bool) :
  let urlToOpen := or_else target "/" in
  let done := onNotificationClick action target windowClients can_open in
  (action <> "view" -> done = [CloseNotification]) /\
  (action = "view" ->
     (forall c, In c windowClients -> client_url c = urlToOpen -> can_focus c = false) ->
     done = CloseNotification :: (if can_open then [OpenWindow urlToOpen] else [])) /\
  (action = "view" ->
     forall c, In c windowClients -> client_url c = urlToOpen -> can_focus c = true ->
     exists before shown after,
       windowClients = (before ++ shown :: after)%list /\
       client_url shown = urlToOpen /\ can_focus shown = true /\
       (forall x, In x before -> client_url x = urlToOpen -> can_focus x = false) /\
       done = [CloseNotification; Focus shown]).
Proof.
  intros urlToOpen done. subst done. unfold onNotificationClick. fold urlToOpen.
  split; [|split].
  - intros Hne. apply String.eqb_neq in Hne. now rewrite Hne.
  - intros -> Hnone. apply first_showing_none in Hnone. simpl. now rewrite Hnone.
  - intros -> c Hc Hu Hf. simpl.
    destruct (first_showing urlToOpen windowClients) as [shown|] eqn:Hs.
    + destruct (first_showing_some _ _ _ Hs) as [_ [Hurl Hfocus]].
      destruct (first_showing_first _ _ _ Hs) as [before [after [Hsplit Hnone]]].
      exists before, shown, after. auto.
    + rewrite first_showing_none in Hs. rewrite (Hs c Hc Hu) in Hf. discriminate.
Qed.

(** Among a window that cannot be focused and two that can, the first
    that shows the target and can be focused is the one focused. *)
Lemma onNotificationClick_windows_witness :
  onNotificationClick "dismiss" (Some "/plans") Examples.windows true
    = [CloseNotification] /\
  onNotificationClick "view" (Some "/rates") Examples.windows true
    = [CloseNotification; OpenWindow "/rates"] /\
  exists before shown after,
    Examples.windows = (before ++ shown :: after)%list /\
    client_url shown = "/plans" /\ can_focus shown = true /\
    (forall x, In x before -> client_url x = "/plans" -> can_focus x = false) /\
    onNotificationClick "view" (Some "/plans") Examples.windows true
      = [CloseNotification; Focus shown].
Proof.
  split; [|split].
  - apply (proj1 (onNotificationClick_windows "dismiss" (Some "/plans")
                    Examples.windows true)).
    discriminate.
  - apply (proj1 (proj2 (onNotificationClick_windows "view" (Some "/rates")
                           Examples.windows true)) eq_refl).
    intros c [<- | [<- | [<- | []]]]; simpl; intros H; try discriminate H; reflexivity.
  - apply (proj2 (proj2 (onNotificationClick_windows "view" (Some "/plans")
                           Examples.windows true)) eq_refl
                 (mkClient "/plans" true)); simpl; auto.
Defined.

End Listeners.

(** * Properties of the PWA helper *)

Section VapidKey.
Import PwaHelper.

Lemma list_ind3 {A} (P : list A -> Prop) :
  P [] -> (forall a, P [a]) -> (forall a b, P [a; b]) ->
  (forall a b c l, P l -> P (a :: b :: c :: l)) ->
  forall l, P l.
Proof.
  intros H0 H1 H2 H3.
  fix F 1. intros [|a [|b [|c l]]]; [exact H0 | apply H1 | apply H2 | apply H3, F].
Qed.

Ltac euclid := zify; Z.to_euclidean_division_equations; lia.

(** Decoding the values of some bytes gives the bytes back. *)
Lemma bytes_of_values_of_bytes (bytes : list nat) :
  Forall (fun b => b < 256) bytes ->
  bytes_of_values (values_of_bytes bytes) = bytes.
Proof.
  induction bytes as [|a|a b|a b c l IH] using list_ind3; intros Hb.
  - reflexivity.
  - inversion_clear Hb. cbn [values_of_bytes bytes_of_values]. f_equal. euclid.
  - inversion_clear Hb as [|? ? Ha Hb']. inversion_clear Hb' as [|? ? Hb _].
    cbn [values_of_bytes bytes_of_values]. f_equal; [|f_equal]; euclid.
  - inversion_clear Hb as [|? ? Ha Hb']. inversion_clear Hb' as [|? ? Hb Hc'].
    inversion_clear Hc' as [|? ? Hc Hl].
    cbn [values_of_bytes bytes_of_values]. rewrite (IH Hl).
    f_equal; [|f_equal; [|f_equal]]; euclid.
Qed.

Lemma values_of_bytes_small (bytes : list nat) :
  Forall (fun b => b < 256) bytes ->
  Forall (fun v => v < 64) (values_of_bytes bytes).
Proof.
  induction bytes as [|a|a b|a b c l IH] using list_ind3; intros Hb.
  - constructor.
  - inversion_clear Hb. cbn [values_of_bytes].
    repeat (apply Forall_cons; [euclid|]). apply Forall_nil.
  - inversion_clear Hb as [|? ? Ha Hb']. inversion_clear Hb' as [|? ? Hb _].
    cbn [values_of_bytes]. repeat (apply Forall_cons; [euclid|]). apply Forall_nil.
  - inversion_clear Hb as [|? ? Ha Hb']. inversion_clear Hb' as [|? ? Hb Hc'].
    inversion_clear Hc' as [|? ? Hc Hl].
    cbn [values_of_bytes]. repeat (apply Forall_cons; [euclid|]). now apply IH.
Qed.

Lemma values_of_bytes_length (bytes : list nat) :
  List.length (values_of_bytes bytes) mod 4 <> 1.
Proof.
  induction bytes as [|a|a b|a b c l IH] using list_ind3; try discriminate.
  cbn [values_of_bytes List.length].
  replace (S (S (S (S (List.length (values_of_bytes l))))))
    with (List.length (values_of_bytes l) + 1 * 4) by lia.
  now rewrite Nat.Div0.mod_add.
Qed.

Lemma chars_append (s1 s2 : string) :
  list_ascii_of_string (s1 ++ s2) = (list_ascii_of_string s1 ++ list_ascii_of_string s2)%list.
Proof. induction s1 as [|c s1 IH]; simpl; [reflexivity | now rewrite IH]. Qed.

Lemma chars_replace (c by_ : ascii) (s : string) :
  list_ascii_of_string (replace_char c by_ s) =
  map (fun x => if Ascii.eqb x c then by_ else x) (list_ascii_of_string s).
Proof. induction s as [|x s IH]; simpl; [reflexivity | now rewrite IH]. Qed.

Lemma chars_repeat (n : nat) :
  list_ascii_of_string (repeat_string "=" n) = repeat "="%char n.
Proof. induction n as [|n IH]; simpl; [reflexivity | now rewrite IH]. Qed.

Lemma chars_length (l : list ascii) :
  String.length (string_of_list_ascii l) = List.length l.
Proof. induction l as [|c l IH]; simpl; [reflexivity | now rewrite IH]. Qed.

(** The characters [atob] is given: those of the key, made standard,
    followed by the padding. *)
Lemma standard_chars (base64String : string) (n : nat) :
  list_ascii_of_string
    (replace_char "_" "/" (replace_char "-" "+" (base64String ++ repeat_string "=" n))) =
  (map to_standard (list_ascii_of_string base64String) ++ repeat "="%char n)%list.
Proof.
  rewrite !chars_replace, chars_append, chars_repeat, !map_app, !map_map.
  f_equal. induction n as [|n IH]; simpl; [reflexivity | now rewrite IH].
Qed.

(** Every value below 64 has a character, which the replacements turn
    into the character of the standard alphabet with that value. *)
Lemma url_char_value (v : nat) :
  v < 64 ->
  base64_value (to_standard (url_char v)) = Some v /\
  is_whitespace (to_standard (url_char v)) = false /\
  Ascii.eqb (to_standard (url_char v)) "=" = false.
Proof.
  intros Hv.
  assert (Hall : forallb (fun v =>
            match base64_value (to_standard (url_char v)) with
            | Some v' => (v' =? v)%nat
            | None => false
            end && negb (is_whitespace (to_standard (url_char v)))
                && negb (Ascii.eqb (to_standard (url_char v)) "=")) (seq 0 64) = true)
    by (vm_compute; reflexivity).
  rewrite forallb_forall in Hall.
  assert (Hin : In v (seq 0 64)) by (apply in_seq; lia).
  specialize (Hall v Hin). apply andb_true_iff in Hall. destruct Hall as [Hall He].
  apply andb_true_iff in Hall. destruct Hall as [Hval Hws].
  destruct (base64_value (to_standard (url_char v))) as [v'|]; [|discriminate].
  apply Nat.eqb_eq in Hval. subst v'.
  apply negb_true_iff in Hws, He. auto.
Qed.

Lemma base64_values_standard (values : list nat) :
  Forall (fun v => v < 64) values ->
  base64_values (map to_standard (map url_char values)) = Some values.
Proof.
  induction 1 as [|v values Hv _ IH]; simpl; [reflexivity|].
  destruct (url_char_value v Hv) as [-> _]. now rewrite IH.
Qed.

Lemma filter_standard (values : list nat) (n : nat) :
  Forall (fun v => v < 64) values ->
  filter (fun c => negb (is_whitespace c))
         (map to_standard (map url_char values) ++ repeat "="%char n) =
  (map to_standard (map url_char values) ++ repeat "="%char n)%list.
Proof.
  intros Hv. rewrite filter_app. f_equal.
  - induction Hv as [|v values Hv _ IH]; simpl; [reflexivity|].
    destruct (url_char_value v Hv) as [_ [-> _]]. simpl. now rewrite IH.
  - induction n as [|n IH]; simpl; [reflexivity | now rewrite IH].
Qed.

(** The padding the function adds is the padding [atob] removes. *)
Lemma strip_padding_added (body : list ascii) (n : nat) :
  n <= 2 ->
  (List.length body + n) mod 4 = 0 ->
  Forall (fun c => Ascii.eqb c "=" = false) body ->
  strip_padding (body ++ repeat "="%char n) = body.
Proof.
  intros Hn Hlen Hbody. unfold strip_padding.
  rewrite length_app, repeat_length, Hlen. cbn [Nat.eqb].
  rewrite rev_app_distr, rev_repeat.
  apply Forall_rev in Hbody.
  destruct n as [|[|[|n]]]; [| | |lia]; cbn [repeat app].
  - rewrite app_nil_r.
    destruct (rev body) as [|x [|y r]] eqn:Hr; try reflexivity;
      inversion_clear Hbody as [|? ? Hx _]; now rewrite Hx.
  - destruct (rev body) as [|y r] eqn:Hr.
    + cbn. apply (f_equal (@rev ascii)) in Hr. rewrite rev_involutive in Hr. now subst.
    + inversion_clear Hbody as [|? ? Hy _].
      change (("="%char :: y :: r)%list) with ("="%char :: y :: r)%list.
      cbn [app]. rewrite Ascii.eqb_refl, Hy.
      change (rev body = y :: r) in Hr.
      apply (f_equal (@rev ascii)) in Hr. rewrite rev_involutive in Hr. now subst.
  - cbn. apply rev_involutive.
Qed.

Lemma padding_added (n : nat) :
  n mod 4 <> 1 ->
  (4 - n mod 4) mod 4 <= 2 /\ (n + (4 - n mod 4) mod 4) mod 4 = 0.
Proof. intros Hn. split; euclid. Qed.

Lemma base64url_decoded (bytes : list nat) :
  Forall (fun b => b < 256) bytes ->
  urlBase64ToUint8Array (base64url bytes) = Some bytes.
Proof.
  intros Hb.
  pose proof (values_of_bytes_small bytes Hb) as Hv.
  pose proof (values_of_bytes_length bytes) as Hl.
  unfold urlBase64ToUint8Array, atob, base64url.
  rewrite standard_chars, list_ascii_of_string_of_list_ascii, chars_length.
  rewrite length_map, filter_standard by exact Hv.
  destruct (padding_added _ Hl) as [Hn Hz].
  rewrite strip_padding_added.
  - rewrite !length_map. apply Nat.eqb_neq in Hl. rewrite Hl.
    rewrite base64_values_standard by exact Hv.
    rewrite bytes_of_values_of_bytes by exact Hb.
    rewrite list_ascii_of_string_of_list_ascii, map_map. f_equal.
    clear - Hb. induction Hb as [|b bytes Hlt _ IH]; simpl; [reflexivity|].
    rewrite nat_ascii_embedding by exact Hlt. now rewrite IH.
  - exact Hn.
  - now rewrite !length_map.
  - clear - Hv. induction Hv as [|v values Hv _ IH]; simpl; constructor; [|exact IH].
    now destruct (url_char_value v Hv) as [_ [_ ->]].
Qed.

(** The round trip of a key: the function gives back the bytes of which
    its argument is the base64url encoding, for every sequence of
    bytes. *)
Theorem urlBase64ToUint8Array_decodes (bytes : list nat) :
  Forall (fun b => b < 256) bytes ->
  urlBase64ToUint8Array (base64url bytes) = Some bytes.
Proof. apply base64url_decoded. Qed.

Lemma urlBase64ToUint8Array_decodes_witness :
  urlBase64ToUint8Array (base64url [4; 251; 255; 0; 128]) = Some [4; 251; 255; 0; 128].
Proof.
  apply urlBase64ToUint8Array_decodes.
  repeat (apply Forall_cons; [lia|]). apply Forall_nil.
Defined.

Lemma base64_values_padding (l : list ascii) :
  In "="%char l -> base64_values l = None.
Proof.
  induction l as [|c l IH]; simpl; [contradiction|].
  intros [-> | Hin]; [reflexivity|].
  rewrite (IH Hin). now destruct (base64_value c).
Qed.

(** A key whose length is one more than a multiple of four is never
    decoded: [atob] throws on it, whatever its characters. *)
Theorem urlBase64ToUint8Array_bad_length (base64String : string) :
  String.length base64String mod 4 = 1 ->
  urlBase64ToUint8Array base64String = None.
Proof.
  intros Hlen. unfold urlBase64ToUint8Array, atob.
  rewrite standard_chars, Hlen. change ((4 - 1) mod 4) with 3.
  rewrite filter_app.
  replace (filter (fun c => negb (is_whitespace c)) (repeat "="%char 3))
    with ["="%char; "="%char; "="%char] by reflexivity.
  set (X := filter _ (map to_standard _)).
  assert (Hin : In "="%char (strip_padding (X ++ ["="; "="; "="]%char))).
  { unfold strip_padding.
    destruct (List.length (X ++ ["="; "="; "="]%char) mod 4 =? 0)%nat.
    - rewrite rev_app_distr. cbn. rewrite rev_involutive.
      apply in_or_app. right. now left.
    - apply in_or_app. right. now left. }
  rewrite (base64_values_padding _ Hin).
  now destruct (_ =? 1)%nat.
Qed.

Lemma urlBase64ToUint8Array_bad_length_witness :
  urlBase64ToUint8Array "BPEQ6" = None.
Proof. apply urlBase64ToUint8Array_bad_length. reflexivity. Defined.

End VapidKey.

Section InstallPrompt.
Import PwaHelper.

Lemma initializePWA_throws (standalone ios_standalone push_manager sync_manager : bool)
    (p : Page) :
  registration (helper p) = None ->
  initializePWA standalone ios_standalone push_manager sync_manager p =
  (Thrown IN_NULL,
   mkPage (fst (checkIfInstalled standalone ios_standalone (helper p)
                  (log "[PWA] Initializing..." (browser p))))
          (setupPushNotifications push_manager
             (snd (checkIfInstalled standalone ios_standalone (helper p)
                     (log "[PWA] Initializing..." (browser p)))))
          false true (exposed p)).
Proof.
  intros Hreg. unfold initializePWA, setupBackgroundSync, checkIfInstalled.
  destruct standalone, ios_standalone; cbn [fst snd registration]; now rewrite Hreg.
Qed.

Lemma script_never_exposed (service_workers : bool) (b : Browser) :
  never_exposed (script service_workers b).
Proof. destruct service_workers; cbn; repeat split; auto. Qed.

Lemma page_step_never_exposed (a : PageEvent) (p : Page) :
  never_exposed p -> never_exposed (page_step a p).
Proof.
  intros Hinv. pose proof Hinv as [Hexp [Hwait Hprompt]].
  assert (Hlw : listening p = true -> waiting p = false).
  { intros Hl. destruct (waiting p); [|reflexivity].
    destruct Hwait as [_ H]; [reflexivity|]. now rewrite H in Hl. }
  destruct a as [standalone ios push sync|r| |choice| | |]; unfold page_step.
  - destruct (waiting p) eqn:Hw; [|exact Hinv].
    rewrite initializePWA_throws by now apply Hwait.
    cbn [snd]. repeat split; try discriminate. exact Hexp.
  - destruct (listening p) eqn:Hl; [|exact Hinv].
    unfold with_helper, never_exposed; cbn. rewrite Hl, (Hlw eq_refl).
    repeat split; try discriminate. exact Hexp.
  - destruct (listening p) eqn:Hl; [|exact Hinv].
    unfold with_helper, never_exposed; cbn. rewrite Hl, (Hlw eq_refl).
    repeat split; try discriminate. exact Hexp.
  - destruct (listening p) eqn:Hl; [|exact Hinv].
    unfold with_helper, never_exposed; cbn. rewrite Hl, (Hlw eq_refl).
    repeat split; try discriminate. exact Hexp.
  - destruct (listening p) eqn:Hl; [|exact Hinv].
    unfold with_helper, never_exposed; cbn. rewrite Hl, (Hlw eq_refl).
    repeat split; try discriminate. exact Hexp.
  - destruct (listening p) eqn:Hl; [|exact Hinv].
    unfold with_helper, never_exposed, clickInstallButton.
    destruct (deferredInstallPrompt (helper p)); cbn; rewrite Hl, (Hlw eq_refl);
      repeat split; try discriminate; exact Hexp.
  - unfold callInstall. rewrite Hexp. exact Hinv.
Qed.

Lemma page_run_never_exposed (events : list PageEvent) (p : Page) :
  never_exposed p -> never_exposed (page_run events p).
Proof.
  revert p. induction events as [|a rest IH]; intros p H; [exact H|].
  cbn [page_run]. apply IH, page_step_never_exposed, H.
Qed.

Lemma page_run_app (events later : list PageEvent) (p : Page) :
  page_run (events ++ later) p = page_run later (page_run events p).
Proof.
  revert p. induction events as [|a rest IH]; intros p; [reflexivity|].
  cbn [page_run app]. apply IH.
Qed.

(** One event shows at most the prompt that was captured, and captures
    one only when it is a [beforeinstallprompt]. *)
Lemma page_step_prompts (a : PageEvent) (p : Page) :
  never_exposed p ->
  prompts (browser (page_step a p)) + pending (helper (page_step a p)) <=
  prompts (browser p) + pending (helper p) + (if is_prompt_event a then 1 else 0).
Proof.
  intros [Hexp [Hwait Hprompt]].
  destruct a as [standalone ios push sync|r| |choice| | |]; unfold page_step.
  - destruct (waiting p) eqn:Hw; [|lia].
    rewrite initializePWA_throws by now apply Hwait.
    unfold checkIfInstalled, setupPushNotifications, pending.
    destruct standalone, ios, push, (has_notifications _); cbn;
      destruct (deferredInstallPrompt (helper p)); cbn; lia.
  - destruct (listening p); [|lia]. unfold with_helper, pending; cbn. lia.
  - destruct (listening p); [|lia]. unfold with_helper, pending; cbn. lia.
  - destruct (listening p); [|cbn; lia]. unfold with_helper, pending; cbn.
    destruct (deferredInstallPrompt (helper p)); lia.
  - destruct (listening p); [|lia]. unfold with_helper, pending; cbn. lia.
  - destruct (listening p); [|lia]. unfold with_helper, clickInstallButton, pending.
    destruct (deferredInstallPrompt (helper p)) eqn:Hd; cbn; rewrite ?Hd; lia.
  - unfold callInstall. rewrite Hexp. cbn. lia.
Qed.

Lemma page_run_prompts (events : list PageEvent) (p : Page) :
  never_exposed p ->
  prompts (browser (page_run events p)) + pending (helper (page_run events p)) <=
  prompts (browser p) + pending (helper p) + List.length (filter is_prompt_event events).
Proof.
  revert p. induction events as [|a rest IH]; intros p H; [cbn; lia|].
  cbn [page_run filter].
  pose proof (IH _ (page_step_never_exposed a p H)) as Hrest.
  pose proof (page_step_prompts a p H) as Hstep.
  destruct (is_prompt_event a); cbn [List.length]; lia.
Qed.

Lemma page_step_installed (a : PageEvent) (p : Page) :
  isInstalled (helper p) = true -> isInstalled (helper (page_step a p)) = true.
Proof.
  intros H.
  destruct a as [standalone ios push sync|r| |choice| | |]; unfold page_step.
  - destruct (waiting p); [|exact H].
    unfold initializePWA, setupBackgroundSync, checkIfInstalled.
    destruct standalone, ios; cbn [registration]; destruct (registration (helper p)); cbn; auto.
  - destruct (listening p); [|exact H]. unfold with_helper; cbn. exact H.
  - destruct (listening p); [|exact H]. unfold with_helper; cbn. exact H.
  - destruct (listening p); [|exact H]. unfold with_helper; cbn. exact H.
  - destruct (listening p); [|exact H]. unfold with_helper; cbn. reflexivity.
  - destruct (listening p); [|exact H]. unfold with_helper, clickInstallButton.
    destruct (deferredInstallPrompt (helper p)); cbn; exact H.
  - unfold callInstall, install. destruct (exposed p); [|exact H].
    destruct (deferredInstallPrompt (helper p)); cbn; exact H.
Qed.

Lemma page_run_installed (events : list PageEvent) (p : Page) :
  isInstalled (helper p) = true -> isInstalled (helper (page_run events p)) = true.
Proof.
  revert p. induction events as [|a rest IH]; intros p H; [exact H|].
  cbn [page_run]. apply IH, page_step_installed, H.
Qed.

(** On the page the helper is loaded into, whatever events follow:
    [initializePWA] throws in [setupBackgroundSync], because
    [registration] is still [null] at the load event, so [window.PWA] is
    never defined and [PWA.install()] throws; the listeners installed
    before keep working: at most one install prompt is shown for each
    [beforeinstallprompt] event, a click on the install button leaves no
    prompt to show, so that a second click shows none, and once
    [isInstalled] is true it stays true.  The choice of the user is taken
    as made before the next event. *)
Theorem install_prompt_single_use (service_workers : bool) (b : Browser)
    (events later : list PageEvent) :
  let p := page_run events (script service_workers b) in
  exposed p = false /\
  callInstall p = (Thrown PWA_UNDEFINED, p) /\
  (forall standalone ios_standalone push_manager sync_manager,
     waiting p = true ->
     let '(completion, loaded) :=
       initializePWA standalone ios_standalone push_manager sync_manager p in
     completion = Thrown IN_NULL /\ listening loaded = true /\ exposed loaded = false) /\
  prompts (browser p) + pending (helper p) <=
    prompts b + List.length (filter is_prompt_event events) /\
  (let clicked := page_step ClickInstallButton p in
   pending (helper clicked) = 0 /\
   prompts (browser clicked) = prompts (browser p) + pending (helper p) /\
   page_step ClickInstallButton clicked = clicked) /\
  (isInstalled (helper p) = true ->
   isInstalled (helper (page_run later p)) = true).
Proof.
  intros p.
  assert (Hinv : never_exposed p)
    by (apply page_run_never_exposed, script_never_exposed).
  pose proof Hinv as [Hexp [Hwait Hprompt]].
  split; [exact Hexp|].
  split; [unfold callInstall; now rewrite Hexp|].
  split.
  { intros standalone ios push sync Hw.
    rewrite initializePWA_throws by now apply Hwait.
    cbn. auto. }
  split.
  { pose proof (page_run_prompts events _ (script_never_exposed service_workers b)) as H.
    fold p in H. replace (prompts (browser (script service_workers b))
                          + pending (helper (script service_workers b)))
      with (prompts b) in H by (destruct service_workers; cbn; lia).
    exact H. }
  split; [|apply page_run_installed].
  unfold page_step. destruct (listening p) eqn:Hl.
  - unfold with_helper, clickInstallButton, pending.
    destruct (deferredInstallPrompt (helper p)) eqn:Hd; cbn; rewrite ?Hl, ?Hd; cbn.
    + repeat split; lia.
    + repeat split; lia.
  - rewrite Hl. unfold pending. rewrite (Hprompt eq_refl). repeat split; lia.
Qed.

(** The page is loaded, the worker registers, a prompt is captured and
    used by a click, a second click shows no other, and the application
    is installed: one prompt was shown, [PWA.install()] throws, and
    [isInstalled] stays true after a later event. *)
Lemma install_prompt_single_use_witness :
  let p := page_run [Load false false true true; Registered (mkRegistration true);
                     BeforeInstallPrompt "accepted"; ClickInstallButton;
                     ClickInstallButton; CallInstall; AppInstalled]
             (script true (mkBrowser [] 0 true "default" "granted" 0 [])) in
  prompts (browser p) = 1 /\
  isInstalled (helper p) = true /\
  registration (helper p) = Some (mkRegistration true) /\
  callInstall p = (Thrown PWA_UNDEFINED, p) /\
  isInstalled (helper (page_run [BeforeInstallPrompt "dismissed"; ClickInstallButton] p))
  = true.
Proof.
  intros p.
  pose proof (install_prompt_single_use true (mkBrowser [] 0 true "default" "granted" 0 [])
                [Load false false true true; Registered (mkRegistration true);
                 BeforeInstallPrompt "accepted"; ClickInstallButton;
                 ClickInstallButton; CallInstall; AppInstalled]
                [BeforeInstallPrompt "dismissed"; ClickInstallButton])
    as [_ [Hcall [_ [_ [_ Hinstalled]]]]].
  split; [reflexivity|].
  split; [reflexivity|].
  split; [reflexivity|].
  split; [exact Hcall|].
  exact (Hinstalled eq_refl).
Defined.

End InstallPrompt.

Section PushSubscription.
Import PwaHelper.

Lemma permission_asked (b : Browser) :
  subscribed (snd (requestNotificationPermission b)) = subscribed b /\
  permission_requests (snd (requestNotificationPermission b)) =
    permission_requests b +
    (if has_notifications b && negb (permission b =? "granted")
        && negb (permission b =? "denied") then 1 else 0).
Proof.
  unfold requestNotificationPermission.
  destruct (has_notifications b), (permission b =? "granted"),
    (permission b =? "denied"); simpl; split; try reflexivity; lia.
Qed.

(** [subscribeToPushNotifications] reaches [pushManager.subscribe] only
    with a registration, a granted permission and a key that decodes:
    given the base64url form of a key, it hands the browser exactly the
    bytes of the key.  Without a registration it rejects without asking
    the user for anything; with a permission that is not granted, or a key
    that does not decode, it rejects without subscribing. *)
Theorem subscribeToPush_key (vapidPublicKey : string) (s : State) (b : Browser) :
  let done := subscribeToPushNotifications vapidPublicKey s b in
  (registration s = None ->
     fst done = Rejected "Service worker not registered" /\
     subscribed (snd done) = subscribed b /\
     permission_requests (snd done) = permission_requests b) /\
  (fst (requestNotificationPermission b) <> "granted" \/
   urlBase64ToUint8Array vapidPublicKey = None ->
     (exists error, fst done = Rejected error) /\
     subscribed (snd done) = subscribed b) /\
  (forall r bytes,
     registration s = Some r ->
     fst (requestNotificationPermission b) = "granted" ->
     Forall (fun x => x < 256) bytes ->
     vapidPublicKey = base64url bytes ->
     subscribed (snd done) = (subscribed b ++ [bytes])%list /\
     (push_available r = true -> fst done = Resolved bytes)).
Proof.
  intros done. subst done. unfold subscribeToPushNotifications, rethrow.
  split; [|split].
  - intros ->. simpl. auto.
  - intros Hbad. destruct (registration s) as [r|]; [|simpl; eauto].
    pose proof (permission_asked b) as [Hsub _].
    destruct (requestNotificationPermission b) as [granted b1]. cbn [fst snd] in *.
    destruct (granted =? "granted") eqn:Hg; cbn [negb]; [|simpl; eauto].
    apply String.eqb_eq in Hg. destruct Hbad as [Hbad | Hbad]; [congruence|].
    rewrite Hbad. simpl. eauto.
  - intros r bytes -> Hg Hb ->.
    pose proof (permission_asked b) as [Hsub _].
    destruct (requestNotificationPermission b) as [granted b1]. cbn [fst snd] in *.
    subst granted. cbn [String.eqb negb].
    replace ("granted" =? "granted") with true by reflexivity. cbn [negb].
    rewrite base64url_decoded by exact Hb.
    unfold push_subscribe. destruct (push_available r); simpl; rewrite Hsub; auto.
    split; [reflexivity | discriminate].
Qed.

Lemma subscribeToPush_key_witness :
  subscribed (snd (subscribeToPushNotifications (base64url [4; 251; 255; 0; 128])
                     (mkState None false (Some (mkRegistration true)))
                     (mkBrowser [] 0 true "default" "granted" 0 [])))
    = [[4; 251; 255; 0; 128]].
Proof.
  apply (proj2 (proj2 (subscribeToPush_key (base64url [4; 251; 255; 0; 128])
                         (mkState None false (Some (mkRegistration true)))
                         (mkBrowser [] 0 true "default" "granted" 0 [])))
               (mkRegistration true) [4; 251; 255; 0; 128]).
  - reflexivity.
  - reflexivity.
  - repeat (apply Forall_cons; [lia|]). apply Forall_nil.
  - reflexivity.
Defined.

End PushSubscription.

(** * Further properties of the land-management map *)

Section LandManagement.
Import Leaflet LandMap.

Ltac unfold_land :=
  unfold add, addMarker, addParcel, addChiefdomBoundary, initializeMap, fitBounds,
    setView, createColoredIcon, catch_with, last_index in *.

Lemma addTo_added (layer parent : nat) (w w' : World) (x : nat) :
  addTo layer (Some parent) w = (Ret x, w') ->
  x = layer /\ In (parent, layer) (children w').
Proof.
  unfold addTo. destruct (validate w) as [[u|e] w1]; [|discriminate].
  intros H. injection H as <- <-. split; [reflexivity | now left].
Qed.

(** An add-overlay operation leaves the module as it was or, with a map,
    changes a registry only. *)
Lemma add_shape (c : AddCall) (s : State) (w : World) :
  snd (fst (add c s w)) = s \/
  exists m, map s = Some m /\ map (snd (fst (add c s w))) = Some m.
Proof.
  destruct c; unfold_land; run_eff; split_outcomes; cbn [fst snd]; auto;
    right; eexists; (split; [reflexivity|]); cbn; assumption.
Qed.

(** An add-overlay operation never throws.  Either it returns [null] and
    leaves the module as it was, or it returns the index of the new
    overlay: the length the registry had, at which the registry, one
    longer, now holds the overlay, which is on the map. *)
Theorem add_returns_index (c : AddCall) (s : State) (w : World) :
  let '(result, s', w') := add c s w in
  (result = Ret VNull /\ s' = s) \/
  (exists m overlay,
     map s = Some m /\
     result = Ret (VNum (Z.of_nat (List.length (registry c s)))) /\
     registry c s' = (registry c s ++ [overlay])%list /\
     nth_error (registry c s') (List.length (registry c s)) = Some overlay /\
     In (m, overlay) (children w') /\
     map s' = map s).
Proof.
  destruct c; unfold_land; run_eff; split_outcomes; auto; right;
    repeat match goal with
           | H : bindPopup _ _ _ = (_, _) |- _ =>
               unfold bindPopup in H; injection H as ? ?; subst
           | H : addTo _ (Some _) _ = (Ret _, _) |- _ =>
               apply addTo_added in H; destruct H as [? ?]; subst
           end;
    eexists; eexists; cbn [registry markers parcels chiefdomBoundaries map
                           set_markers set_parcels set_chiefdomBoundaries];
    (split; [reflexivity|]);
    (split; [do 2 f_equal; rewrite length_app; cbn [List.length]; lia|]);
    (split; [reflexivity|]);
    (split; [rewrite nth_error_app2, Nat.sub_diag by lia; reflexivity|]);
    (split; [eassumption | first [reflexivity | assumption]]).
Qed.

(** With a map, removing layers one by one neither throws nor touches the
    module; without one, only an empty list is harmless. *)
Lemma land_remove_each_mapped (layers : list nat) (s : State) (w : World) (m : nat) :
  map s = Some m ->
  exists w', remove_each layers s w = (Ret tt, s, w').
Proof.
  intros Hm. unfold remove_each. revert w.
  induction layers as [|l layers IH]; intros w; simpl; [now exists w|].
  unfold bind at 1. unfold bind at 1. unfold get at 1. unfold bind at 1.
  rewrite Hm. simpl. unfold lift at 1. simpl. apply IH.
Qed.

Lemma land_remove_each (layers : list nat) (s : State) (w : World) :
  (map s = None -> layers = []) ->
  exists w', remove_each layers s w = (Ret tt, s, w').
Proof.
  intros Hsafe. destruct (map s) as [m|] eqn:Hm.
  - now apply (land_remove_each_mapped layers s w m).
  - rewrite (Hsafe eq_refl). now exists w.
Qed.

Lemma land_clearAll (s : State) (w : World) :
  registries_follow_map s ->
  exists w', clearAll s w = (Ret tt, mkState (map s) [] [] [], w').
Proof.
  intros Hinv. unfold clearAll, clearMarkers, clearParcels, clearChiefdomBoundaries.
  assert (H1 : map s = None -> markers s = []) by (intros H; now destruct (Hinv H)).
  assert (H2 : map s = None -> parcels s = [])
    by (intros H; now destruct (Hinv H) as [_ [? _]]).
  assert (H3 : map s = None -> chiefdomBoundaries s = [])
    by (intros H; now destruct (Hinv H) as [_ [_ ?]]).
  unfold bind at 1. unfold bind at 1. unfold get at 1. unfold bind at 1.
  destruct (land_remove_each (markers s) s w H1) as [w1 ->].
  unfold modify at 1. unfold bind at 1. unfold bind at 1. unfold get at 1.
  unfold bind at 1.
  destruct (land_remove_each (parcels (set_markers [] s)) (set_markers [] s) w1 H2)
    as [w2 ->].
  unfold modify at 1. unfold bind at 1. unfold get at 1. unfold bind at 1.
  destruct (land_remove_each (chiefdomBoundaries (set_parcels [] (set_markers [] s)))
              (set_parcels [] (set_markers [] s)) w2 H3) as [w3 ->].
  unfold modify. now exists w3.
Qed.

Lemma land_step_keeps_registries (a : Step) (s : State) (w : World) :
  registries_follow_map s ->
  registries_follow_map (snd (fst (step a s w))).
Proof.
  intros Hinv.
  assert (H1 : map s = None -> markers s = []) by (intros H; now destruct (Hinv H)).
  assert (H2 : map s = None -> parcels s = [])
    by (intros H; now destruct (Hinv H) as [_ [? _]]).
  assert (H3 : map s = None -> chiefdomBoundaries s = [])
    by (intros H; now destruct (Hinv H) as [_ [_ ?]]).
  destruct a as [elementId lat lng zoom|c| | | | |bounds|lat lng zoom| |change].
  - unfold step. unfold_land. run_eff. split_outcomes; cbn [fst snd]; try exact Hinv;
      intros H; discriminate H.
  - pose proof (add_shape c s w) as Hadd.
    unfold step. destruct (add c s w) as [[r s'] w']. cbn [fst snd] in *.
    destruct Hadd as [-> | [m [Hm Hs']]]; [exact Hinv|].
    intros H. congruence.
  - unfold step, clearMarkers. unfold bind at 1. unfold bind at 1. unfold get at 1.
    unfold bind at 1. destruct (land_remove_each (markers s) s w H1) as [w1 ->].
    cbn. intros H. destruct (Hinv H) as [_ [? ?]]. auto.
  - unfold step, clearParcels. unfold bind at 1. unfold bind at 1. unfold get at 1.
    unfold bind at 1. destruct (land_remove_each (parcels s) s w H2) as [w1 ->].
    cbn. intros H. destruct (Hinv H) as [? [_ ?]]. auto.
  - unfold step, clearChiefdomBoundaries. unfold bind at 1. unfold bind at 1.
    unfold get at 1. unfold bind at 1.
    destruct (land_remove_each (chiefdomBoundaries s) s w H3) as [w1 ->].
    cbn. intros H. destruct (Hinv H) as [? [? _]]. auto.
  - unfold step. unfold bind at 1. destruct (land_clearAll s w Hinv) as [w1 ->].
    cbn. intros _. auto.
  - unfold step. unfold_land. run_eff. split_outcomes; cbn [fst snd]; exact Hinv.
  - unfold step. unfold_land. run_eff. split_outcomes; cbn [fst snd]; exact Hinv.
  - unfold step, disposeMap. unfold bind at 1. unfold get at 1.
    destruct (map s) as [m|] eqn:Hm; [|exact Hinv].
    unfold bind at 1. destruct (land_clearAll s w Hinv) as [w1 ->].
    run_eff. split_outcomes; cbn; intros _; auto.
  - exact Hinv.
Qed.

Lemma land_run_keeps_registries (steps : list Step) (w0 : World) :
  registries_follow_map (fst (run steps initial w0)).
Proof.
  assert (Hinit : registries_follow_map initial) by (intros _; auto).
  revert Hinit. generalize initial as s. revert w0.
  induction steps as [|a steps IH]; intros w s Hinv; simpl; [exact Hinv|].
  pose proof (land_step_keeps_registries a s w Hinv) as Hstep.
  destruct (step a s w) as [[o s'] w']. now apply IH.
Qed.

(** The clearing functions use the map without testing it, yet in no
    state the wrapper can reach do they throw: whatever was called
    before, [clearAll] returns and leaves the three registries empty. *)
Theorem clearAll_never_throws (steps : list Step) (w0 : World) :
  let '(s, w) := run steps initial w0 in
  exists w', clearAll s w = (Ret tt, mkState (map s) [] [] [], w').
Proof.
  pose proof (land_run_keeps_registries steps w0) as Hinv.
  destruct (run steps initial w0) as [s w]. now apply land_clearAll.
Qed.



End LandManagement.

(** * Further properties of the spatial dashboard wrapper *)

Section DashboardRegistries.
Import Leaflet SpatialMap.

Ltac unfold_dashboard :=
  unfold invoke, try_block,
    initializeLeafletMap, addLeafletMarker, addLeafletPolygon, addLeafletCircle,
    clearLeafletMarkers, clearLeafletPolygons, fitMapToBounds, setMapView,
    destroyLeafletMap, addLeafletHeatmap,
    initializeLeafletMap_try, addLeafletMarker_try, addLeafletPolygon_try,
    addLeafletCircle_try, clearLeafletMarkers_try, clearLeafletPolygons_try,
    fitMapToBounds_try, setMapView_try, destroyLeafletMap_try, addLeafletHeatmap_try,
    not_initialized, catch_false in *.

Lemma construct_handle (kind : string) (options : Options) (w w' : World) (h : nat) :
  construct kind options w = (Ret h, w') -> h = next w.
Proof.
  unfold construct, validate, allocate.
  destruct (faults w) as [|[|] rest]; cbn; intros H; try discriminate H;
    now injection H as <- _.
Qed.

Lemma without_nil (parent : nat) (l : list (nat * nat)) :
  filter (without parent []) l = l.
Proof.
  induction l as [|c l IH]; simpl; [reflexivity|].
  unfold without at 1. simpl. rewrite andb_false_r. simpl. now rewrite IH.
Qed.

Lemma without_cons (parent x : nat) (removed : list nat) (l : list (nat * nat)) :
  filter (without parent removed)
         (filter (fun c => negb ((fst c =? parent)%nat && (snd c =? x)%nat)) l) =
  filter (without parent (x :: removed)) l.
Proof.
  rewrite filter_filter. apply filter_ext. intros c. unfold without. simpl.
  destruct (fst c =? parent)%nat, (snd c =? x)%nat; simpl; try reflexivity.
Qed.

(** With a map, removing the layers of a registry takes exactly them off
    the map and changes nothing else. *)
Lemma remove_each_children (layers : list nat) (s : State) (w : World) (m : nat) :
  spatialMap s = Some m ->
  remove_each layers s w =
  (Ret tt, s, set_children (filter (without m layers) (children w)) w).
Proof.
  intros Hm. unfold remove_each. revert w.
  induction layers as [|l layers IH]; intros w; simpl.
  - rewrite without_nil. now destruct w.
  - unfold bind at 1. unfold bind at 1. unfold get at 1. unfold bind at 1.
    rewrite Hm. simpl. unfold lift at 1. simpl. rewrite IH. simpl.
    now rewrite without_cons.
Qed.

Lemma without_removed (m h : nat) (removed : list nat) (l : list (nat * nat)) :
  In h removed -> ~ In (m, h) (filter (without m removed) l).
Proof.
  intros Hh Hin. apply filter_In in Hin. destruct Hin as [_ Hk].
  unfold without in Hk. simpl in Hk. rewrite Nat.eqb_refl in Hk. simpl in Hk.
  apply negb_true_iff in Hk.
  assert (existsb (Nat.eqb h) removed = true)
    by (apply existsb_exists; exists h; split; [exact Hh | apply Nat.eqb_refl]).
  congruence.
Qed.

Lemma without_kept (m h : nat) (removed : list nat) (l : list (nat * nat)) :
  ~ In h removed -> In (m, h) l -> In (m, h) (filter (without m removed) l).
Proof.
  intros Hh Hin. apply filter_In. split; [exact Hin|].
  unfold without. simpl. rewrite Nat.eqb_refl. simpl. apply negb_true_iff.
  destruct (existsb (Nat.eqb h) removed) eqn:Hex; [|reflexivity].
  apply existsb_exists in Hex. destruct Hex as [x [Hx Heq]].
  apply Nat.eqb_eq in Heq. now subst.
Qed.

Lemma clearLeafletMarkers_result (s : State) (w : World) :
  (spatialMap s = None -> markers s = []) ->
  clearLeafletMarkers s w =
  (Ret (VBool true), set_markers [] s,
   match spatialMap s with
   | Some m => set_children (filter (without m (markers s)) (children w)) w
   | None => w
   end).
Proof.
  intros Hsafe. unfold clearLeafletMarkers, clearLeafletMarkers_try, try_catch.
  unfold bind at 1. unfold get at 1. unfold bind at 1.
  destruct (spatialMap s) as [m|] eqn:Hm.
  - now rewrite (remove_each_children _ s w m Hm).
  - now rewrite (Hsafe eq_refl).
Qed.

Lemma clearLeafletPolygons_result (s : State) (w : World) :
  (spatialMap s = None -> polygons s = []) ->
  clearLeafletPolygons s w =
  (Ret (VBool true), set_polygons [] s,
   match spatialMap s with
   | Some m => set_children (filter (without m (polygons s)) (children w)) w
   | None => w
   end).
Proof.
  intros Hsafe. unfold clearLeafletPolygons, clearLeafletPolygons_try, try_catch.
  unfold bind at 1. unfold get at 1. unfold bind at 1.
  destruct (spatialMap s) as [m|] eqn:Hm.
  - now rewrite (remove_each_children _ s w m Hm).
  - now rewrite (Hsafe eq_refl).
Qed.

(** In every state the wrapper can reach, [clearLeafletMarkers] and
    [clearLeafletPolygons] return [true], with or without a map: the
    registry is emptied, the other one is untouched, and none of the
    layers it held is on the map any more. *)
Theorem clear_functions_succeed (calls : list Call) (w0 : World) :
  let '(s, w) := run calls initial w0 in
  (let '(result, s', w') := clearLeafletMarkers s w in
   result = Ret (VBool true) /\ markers s' = [] /\ polygons s' = polygons s /\
   forall m h, spatialMap s = Some m -> In h (markers s) -> ~ In (m, h) (children w')) /\
  (let '(result, s', w') := clearLeafletPolygons s w in
   result = Ret (VBool true) /\ polygons s' = [] /\ markers s' = markers s /\
   forall m h, spatialMap s = Some m -> In h (polygons s) -> ~ In (m, h) (children w')).
Proof.
  pose proof (dashboard_registries_follow_map calls w0) as Hinv.
  destruct (run calls initial w0) as [s w]. cbn [fst] in Hinv.
  rewrite clearLeafletMarkers_result by (intros H; now destruct (Hinv H)).
  rewrite clearLeafletPolygons_result by (intros H; now destruct (Hinv H)).
  split; (split; [reflexivity|]); (split; [reflexivity|]); (split; [reflexivity|]);
    intros m h Hm Hh; rewrite Hm; now apply without_removed.
Qed.

Lemma clear_functions_succeed_witness :
  let '(s, w) :=
    run [InitializeLeafletMap "map-a" "-15.4" "28.3" "12";
         AddLeafletMarker "-15.4" "28.3" "Civic Centre" "red"]
        initial (mkWorld [] ["map-a"] [] [] [] 0 [] 0 true no_geojson) in
  (let '(result, s', w') := clearLeafletMarkers s w in
   result = Ret (VBool true) /\ markers s' = [] /\ polygons s' = polygons s /\
   forall m h, spatialMap s = Some m -> In h (markers s) -> ~ In (m, h) (children w')) /\
  (let '(result, s', w') := clearLeafletPolygons s w in
   result = Ret (VBool true) /\ polygons s' = [] /\ markers s' = markers s /\
   forall m h, spatialMap s = Some m -> In h (polygons s) -> ~ In (m, h) (children w')).
Proof.
  exact (clear_functions_succeed
           [InitializeLeafletMap "map-a" "-15.4" "28.3" "12";
            AddLeafletMarker "-15.4" "28.3" "Civic Centre" "red"]
           (mkWorld [] ["map-a"] [] [] [] 0 [] 0 true no_geojson)).
Defined.

(** Circles and heat layers are put on the map but in no registry, so
    the clearing functions leave them there: a circle or heat layer
    added with success is still on the map after [clearLeafletMarkers]
    and [clearLeafletPolygons]. *)
Theorem circles_survive_clearing (c : Call) (s : State) (w : World) (m : nat) :
  (exists lat lng radius color title, c = AddLeafletCircle lat lng radius color title) \/
  (exists points options, c = AddLeafletHeatmap points options) ->
  spatialMap s = Some m ->
  Forall (fun h => h < next w) (markers s ++ polygons s) ->
  fst (fst (invoke c s w)) = Ret (VBool true) ->
  let '(_, s1, w1) := invoke c s w in
  let '(_, s2, w2) := clearLeafletMarkers s1 w1 in
  let '(_, s3, w3) := clearLeafletPolygons s2 w2 in
  s1 = s /\ In (m, next w) (children w1) /\ In (m, next w) (children w3).
Proof.
  intros Hc Hm Hold.
  assert (Hfresh : ~ In (next w) (markers s) /\ ~ In (next w) (polygons s)).
  { rewrite Forall_forall in Hold. split; intros Hin;
      [assert (H : In (next w) (markers s ++ polygons s)) by (apply in_or_app; now left)
      |assert (H : In (next w) (markers s ++ polygons s)) by (apply in_or_app; now right)];
      apply Hold in H; lia. }
  destruct Hfresh as [Hf1 Hf2].
  assert (Hadded : fst (fst (invoke c s w)) = Ret (VBool true) ->
            snd (fst (invoke c s w)) = s /\ In (m, next w) (children (snd (invoke c s w)))).
  { destruct Hc as [(lat & lng & radius & color & title & ->) | (points & options & ->)];
      unfold_dashboard; run_eff; rewrite Hm; split_outcomes; cbn [fst snd];
      intros H; try discriminate H;
      repeat match goal with
             | H : bindPopup _ _ _ = (_, _) |- _ =>
                 unfold bindPopup in H; injection H as ? ?; subst
             | H : construct _ _ _ = (Ret _, _) |- _ =>
                 apply construct_handle in H; subst
             | H : addTo _ (Some _) _ = (Ret _, _) |- _ =>
                 apply addTo_added in H; destruct H as [? ?]; subst
             | H : (Ret _, _) = (_, _) |- _ => injection H as ? ?; subst
             end;
      auto. }
  intros Hok. destruct (Hadded Hok) as [Hs Hin]. clear Hadded.
  destruct (invoke c s w) as [[r s1] w1]. cbn [fst snd] in *. subst s1.
  rewrite clearLeafletMarkers_result by (rewrite Hm; discriminate).
  rewrite clearLeafletPolygons_result by (cbn; rewrite Hm; discriminate).
  cbn. rewrite Hm. cbn.
  split; [reflexivity|]. split; [exact Hin|].
  apply without_kept; [exact Hf2|]. now apply without_kept.
Qed.

Lemma circles_survive_clearing_witness :
  let '(_, s1, w1) :=
    invoke (AddLeafletCircle "-15.4" "28.3" "500" "red" "") (mkState (Some 0) [2] [3])
           (mkWorld [] ["map-a"] [(0, "map-a")] [] [(0, 3); (0, 2); (0, 1)] 4 [] 0 true no_geojson) in
  let '(_, s2, w2) := clearLeafletMarkers s1 w1 in
  let '(_, s3, w3) := clearLeafletPolygons s2 w2 in
  s1 = mkState (Some 0) [2] [3] /\ In (0, 4) (children w1) /\ In (0, 4) (children w3).
Proof.
  apply (circles_survive_clearing (AddLeafletCircle "-15.4" "28.3" "500" "red" "")
           (mkState (Some 0) [2] [3])
           (mkWorld [] ["map-a"] [(0, "map-a")] [] [(0, 3); (0, 2); (0, 1)] 4 [] 0 true no_geojson) 0).
  - left. now do 5 eexists.
  - reflexivity.
  - repeat (apply Forall_cons; [cbn; lia|]). apply Forall_nil.
  - reflexivity.
Defined.

Lemma not_live_after_remove (m : nat) (l : list (nat * string)) :
  ~ In m (List.map fst (filter (fun x => negb (fst x =? m)%nat) l)).
Proof.
  intros Hin. apply in_map_iff in Hin. destruct Hin as [[h el] [Hh Hin]].
  cbn in Hh. subst h. apply filter_In in Hin. destruct Hin as [_ Hne].
  cbn in Hne. now rewrite Nat.eqb_refl in Hne.
Qed.

Lemma map_remove_quiet (m : nat) (w : World) :
  faults w = [] ->
  map_remove m w =
  (Ret tt,
   set_children (filter (fun c => negb (fst c =? m)%nat) (children w))
     (set_live (filter (fun l => negb (fst l =? m)%nat) (live w)) w)).
Proof. intros Hf. unfold map_remove, validate. now rewrite Hf. Qed.

Lemma L_map_missing (elementId : string) (w : World) :
  faults w = [] ->
  existsb (String.eqb elementId) (document w) = false ->
  L_map elementId w = (Throw "Map container not found.", w).
Proof. intros Hf Hdoc. unfold L_map, validate. now rewrite Hf, Hdoc. Qed.

(** A re-initialization that fails on its container has already removed
    the map it replaces and emptied the registries: it returns [false]
    with [spatialMap] still set, to a map instance that is no longer
    alive, which the guards of the other functions take for a map. *)
Theorem failed_reinitialization_keeps_dead_map (mapId : string)
    (centerLat centerLng zoom : number) (s : State) (w : World) (m : nat) :
  spatialMap s = Some m ->
  faults w = [] ->
  existsb (String.eqb mapId) (document w) = false ->
  let '(result, s', w') := initializeLeafletMap mapId centerLat centerLng zoom s w in
  result = Ret (VBool false) /\
  s' = mkState (Some m) [] [] /\
  ~ In m (live_maps w').
Proof.
  intros Hm Hf Hdoc.
  unfold initializeLeafletMap, initializeLeafletMap_try, catch_false. run_eff.
  rewrite Hm. rewrite (map_remove_quiet m w Hf).
  rewrite L_map_missing by (cbn; assumption).
  cbn. split; [reflexivity|]. split.
  - destruct s as [sm mk pg]. cbn in *. now subst.
  - apply not_live_after_remove.
Qed.

Lemma failed_reinitialization_keeps_dead_map_witness :
  let '(result, s', w') :=
    initializeLeafletMap "no-such-element" "-15.4" "28.3" "12" (mkState (Some 0) [2] [3])
      (mkWorld [] ["map-a"] [(0, "map-a")] [] [(0, 3); (0, 2); (0, 1)] 4 [] 0 true no_geojson) in
  result = Ret (VBool false) /\ s' = mkState (Some 0) [] [] /\ ~ In 0 (live_maps w').
Proof.
  apply (failed_reinitialization_keeps_dead_map "no-such-element" "-15.4" "28.3" "12"
           (mkState (Some 0) [2] [3])
           (mkWorld [] ["map-a"] [(0, "map-a")] [] [(0, 3); (0, 2); (0, 1)] 4 [] 0 true no_geojson) 0);
    reflexivity.
Defined.



End DashboardRegistries.

(** * Further properties of the GIS wrapper *)

Section ObjectProperties.
Context {V : Type}.
Import JSObject.

Lemma lookup_assign (key : string) (v : V) (o : list (string * V)) :
  lookup key (assign key v o) = Some v.
Proof.
  induction o as [|[k v0] o IH]; simpl.
  - now rewrite String.eqb_refl.
  - destruct (k =? key) eqn:Hk; simpl; now rewrite Hk.
Qed.

Lemma lookup_assign_other (key other : string) (v : V) (o : list (string * V)) :
  other <> key -> lookup other (assign key v o) = lookup other o.
Proof.
  intros Hne. induction o as [|[k v0] o IH]; simpl.
  - destruct (key =? other) eqn:Hk; [apply String.eqb_eq in Hk; congruence | reflexivity].
  - destruct (k =? key) eqn:Hk; simpl.
    + apply String.eqb_eq in Hk. subst k.
      destruct (key =? other) eqn:Ho; [apply String.eqb_eq in Ho; congruence | reflexivity].
    + now rewrite IH.
Qed.

Lemma lookup_remove (key : string) (o : list (string * V)) :
  lookup key (remove key o) = None.
Proof.
  unfold remove. induction o as [|[k v0] o IH]; simpl; [reflexivity|].
  destruct (k =? key) eqn:Hk; simpl; [exact IH | now rewrite Hk].
Qed.

Lemma lookup_remove_other (key other : string) (o : list (string * V)) :
  other <> key -> lookup other (remove key o) = lookup other o.
Proof.
  intros Hne. unfold remove. induction o as [|[k v0] o IH]; simpl; [reflexivity|].
  destruct (k =? key) eqn:Hk; simpl.
  - apply String.eqb_eq in Hk. subst k.
    destruct (key =? other) eqn:Ho; [apply String.eqb_eq in Ho; congruence | exact IH].
  - now rewrite IH.
Qed.

Lemma remove_absent (key : string) (o : list (string * V)) :
  lookup key o = None -> remove key o = o.
Proof.
  unfold remove. induction o as [|[k v0] o IH]; simpl; [reflexivity|].
  destruct (k =? key) eqn:Hk; [discriminate|]. simpl. intros H. now rewrite IH.
Qed.

Lemma values_assign (key : string) (v x : V) (o : list (string * V)) :
  In x (values (assign key v o)) -> x = v \/ In x (values o).
Proof.
  unfold values. induction o as [|[k v0] o IH]; simpl.
  - intros [<- | []]. now left.
  - destruct (k =? key); simpl.
    + intros [<- | Hin]; auto.
    + intros [<- | Hin]; auto. destruct (IH Hin); auto.
Qed.

Lemma values_assign_twice (key : string) (v1 v2 x : V) (o : list (string * V)) :
  In x (values (assign key v2 (assign key v1 o))) -> x = v2 \/ In x (values o).
Proof.
  unfold values. induction o as [|[k v0] o IH]; simpl.
  - rewrite String.eqb_refl. simpl. intros [<- | []]. now left.
  - destruct (k =? key) eqn:Hk; simpl; rewrite Hk; simpl.
    + intros [<- | Hin]; auto.
    + intros [<- | Hin]; auto. destruct (IH Hin); auto.
Qed.

End ObjectProperties.

Section GisRegistry.
Import Leaflet GisMap.

Lemma construct_quiet (kind : string) (options : Options) (w : World) :
  faults w = [] ->
  construct kind options w = (Ret (next w), snd (allocate kind options w)).
Proof. intros Hf. unfold construct, validate. now rewrite Hf. Qed.

Lemma addTo_quiet (layer parent : nat) (w : World) :
  faults w = [] ->
  addTo layer (Some parent) w =
  (Ret layer, set_children ((parent, layer) :: children w) w).
Proof. intros Hf. unfold addTo, validate. now rewrite Hf. Qed.

(** What [addLayer] does when Leaflet accepts the data. *)
Lemma addLayer_quiet (layerId : string) (data : GeoJson) (style : option Options)
    (s : State) (w : World) (m : nat) :
  map s = Some m -> faults w = [] ->
  exists w',
    addLayer layerId (Some data) style s w =
    (Ret VUndefined,
     set_layers (JSObject.assign layerId (mkLayer (next w)) (layers s)) s, w') /\
    children w' = (m, next w) :: children w /\
    objects w' =
      (next w, ("geoJSON", match style with Some st => st | None => GEOJSON_STYLE end))
      :: objects w /\
    faults w' = [] /\ next w' = S (next w).
Proof.
  intros Hm Hf. unfold addLayer. run_eff. rewrite Hm.
  rewrite construct_quiet by exact Hf. cbn beta iota.
  rewrite addTo_quiet by (cbn; exact Hf). cbn beta iota.
  eexists. split; [reflexivity|]. cbn. auto.
Qed.

(** The layer that [addLayer] makes of the data is the one a later
    export of its identifier asks for its GeoJSON, whatever the registry
    held under that identifier before and whatever happened to the page
    since: the text returned is what [JSON.stringify] makes of
    [toGeoJSON()] of that layer.  Under the empty string the layer is
    stored too, but exporting the empty string exports every layer. *)
Theorem addLayer_then_export (layerId : string) (data : GeoJson) (style : option Options)
    (s : State) (w : World) (m : nat) :
  map s = Some m -> faults w = [] ->
  let '(_, s1, w1) := addLayer layerId (Some data) style s w in
  nth_error (objects w1) 0 =
    Some (next w, ("geoJSON", match style with Some st => st | None => GEOJSON_STYLE end)) /\
  In (m, next w) (children w1) /\
  (layerId <> "" ->
   forall later,
     exportToGeoJson (Some layerId) s1 later =
     (match geojson later (next w) with
      | Some geoJson => Ret (VStr (stringify geoJson))
      | None => Throw "TypeError: toGeoJSON is not a function"
      end, s1, later)) /\
  (layerId = "" ->
   forall later,
     exportToGeoJson (Some layerId) s1 later = exportToGeoJson None s1 later).
Proof.
  intros Hm Hf.
  destruct (addLayer_quiet layerId data style s w m Hm Hf)
    as [w' [-> [Hc [Ho _]]]].
  split; [now rewrite Ho|]. split; [rewrite Hc; now left|]. split.
  - intros Hne later. unfold exportToGeoJson, bind, get, ret, lift, toGeoJSON.
    cbn [layers set_layers Leaflet.truthy].
    apply String.eqb_neq in Hne. rewrite Hne. cbn [negb].
    rewrite lookup_assign. cbn [handle].
    now destruct (geojson later (next w)).
  - intros -> later. reflexivity.
Qed.

(** Wards added to a map that already holds a layer of that name, and
    exported from a page on which Leaflet exports features. *)
Lemma addLayer_then_export_witness :
  let '(_, s1, w1) :=
    addLayer "wards" (Some (GeoFeatureCollection [])) None
             (mkState (Some 0) [("wards", mkLayer 1)] [] None None None None None)
             (Leaflet.mkWorld [] ["map-a"] [(0, "map-a")] [] [(0, 1)] 2 [] 0 true
                              Leaflet.no_geojson) in
  exportToGeoJson (Some "wards") s1 Examples.surveyed =
  (Ret (VStr (Examples.feature_text 2)), s1, Examples.surveyed).
Proof.
  pose proof (addLayer_then_export "wards" (GeoFeatureCollection []) None
                (mkState (Some 0) [("wards", mkLayer 1)] [] None None None None None)
                (Leaflet.mkWorld [] ["map-a"] [(0, "map-a")] [] [(0, 1)] 2 [] 0 true
                                 Leaflet.no_geojson)
                0 eq_refl eq_refl) as H.
  destruct (addLayer _ _ _ _ _) as [[r s1] w1].
  assert (Hid : "wards" <> "") by discriminate.
  exact (proj1 (proj2 (proj2 H)) Hid Examples.surveyed).
Defined.

(** [addLayer] never throws.  Without a map it does nothing.  With a
    map, either it logs an error and leaves the registry as it was,
    which is what it does with text that is not JSON, or it logs
    nothing and the registry holds, under the identifier, the new layer,
    which is on the map. *)
Theorem addLayer_never_throws (layerId : string) (layerData : option GeoJson)
    (style : option Options) (s : State) (w : World) :
  let '(result, s', w') := addLayer layerId layerData style s w in
  result = Ret VUndefined /\
  (map s = None -> s' = s /\ w' = w) /\
  (forall m, map s = Some m -> layerData = None ->
     s' = s /\
     w' = set_console (console w ++ [(ERROR, "Error adding layer:")])%list w) /\
  (forall m, map s = Some m ->
     (s' = s /\
      console w' = (console w ++ [(ERROR, "Error adding layer:")])%list) \/
     (exists data,
        layerData = Some data /\
        s' = set_layers (JSObject.assign layerId (mkLayer (next w)) (layers s)) s /\
        In (m, next w) (children w') /\
        console w' = console w)).
Proof.
  unfold addLayer. run_eff.
  destruct (map s) as [m|].
  2: { split; [reflexivity|]. split; [now split|].
       split; intros m' H; discriminate H. }
  destruct layerData as [data|].
  - unfold construct, addTo, validate, allocate.
    destruct w as [logged page maps made drawn fresh script clock heat export].
    cbn [faults]. destruct script as [|[|] [|[|] rest]]; cbn;
      (split; [reflexivity|]); (split; [intros H; discriminate H|]);
      (split; [intros ? ? H; discriminate H|]);
      intros m' Hm'; injection Hm' as <-;
      first [ right; exists data; (split; [reflexivity|]); (split; [reflexivity|]);
              split; [now left | reflexivity]
            | left; split; reflexivity ].
  - cbn. split; [reflexivity|]. split; [intros H; discriminate H|].
    split; [intros m' _ _; now split|].
    intros m' _. left. now split.
Qed.

(** Text that is not JSON, given to a wrapper that has a map. *)
Lemma addLayer_never_throws_witness :
  let s := mkState (Some 0) [] [] None None None None None in
  let w := Leaflet.mkWorld [] ["map-a"] [(0, "map-a")] [] [] 1 [] 0 true
                           Leaflet.no_geojson in
  let '(result, s', w') := addLayer "wards" None None s w in
  s' = s /\
  w' = set_console (console w ++ [(ERROR, "Error adding layer:")])%list w.
Proof.
  intros s w.
  pose proof (addLayer_never_throws "wards" None None s w) as H.
  destruct (addLayer _ _ _ _ _) as [[r s1] w1].
  apply (proj1 (proj2 (proj2 H)) 0); reflexivity.
Defined.

(** Removing layers one by one takes exactly them off the map. *)
Lemma forEach_removeLayer_children {St A} (m : nat) (h : A -> nat) (xs : list A)
    (s : St) (w : World) :
  forEach (fun x => lift (Leaflet.removeLayer m (h x))) xs s w =
  (Ret tt, s, set_children (filter (without m (List.map h xs)) (children w)) w).
Proof.
  revert w. induction xs as [|x xs IH]; intros w; simpl.
  - rewrite without_nil. now destruct w.
  - unfold bind at 1. unfold lift at 1. simpl. rewrite IH. simpl.
    now rewrite without_cons.
Qed.

Lemma gis_clearMap_children (s : State) (w : World) (m : nat) :
  map s = Some m ->
  clearMap s w =
  (Ret VUndefined, set_markers [] (set_layers [] s),
   set_children
     (filter (without m (JSObject.values (markers s)))
        (filter (without m (List.map handle (JSObject.values (layers s)))) (children w)))
     w).
Proof.
  intros Hm. unfold clearMap. unfold bind at 1. unfold get at 1. rewrite Hm.
  unfold bind at 1. rewrite forEach_removeLayer_children.
  unfold bind at 1, modify at 1. unfold bind at 1.
  rewrite (forEach_removeLayer_children m (fun x => x)). rewrite map_id.
  reflexivity.
Qed.

(** As long as no identifier given to the wrapper is a name of
    [Object.prototype], [removeLayer] returns in every state the wrapper
    can reach, although it uses the map without testing it: the
    identifier is then unknown, every other identifier is as before, and
    the layer is off the map.  An unknown identifier changes nothing, so
    removing twice is removing once. *)
Theorem removeLayer_forgets (steps : list Step) (w0 : World) (layerId : string) :
  forallb plain steps = true ->
  JSObject.inherited layerId = false ->
  let '(s, w) := run steps initial w0 in
  let '(result, s', w') := removeLayer layerId s w in
  result = Ret VUndefined /\
  JSObject.lookup layerId (layers s') = None /\
  (forall other, other <> layerId ->
     JSObject.lookup other (layers s') = JSObject.lookup other (layers s)) /\
  (JSObject.lookup layerId (layers s) = None -> s' = s /\ w' = w) /\
  (forall m l, map s = Some m -> JSObject.lookup layerId (layers s) = Some l ->
     ~ In (m, handle l) (children w')) /\
  removeLayer layerId s' w' = (Ret VUndefined, s', w').
Proof.
  intros _ _.
  pose proof (run_keeps_registries steps initial w0) as Hinv.
  assert (Hinit : registries_follow_map initial) by (intros _; now split).
  specialize (Hinv Hinit). destruct (run steps initial w0) as [s w]. cbn [fst] in Hinv.
  unfold removeLayer at 1. unfold bind at 1. unfold get at 1.
  destruct (JSObject.lookup layerId (layers s)) as [l|] eqn:Hl.
  - destruct (map s) as [m|] eqn:Hm.
    + run_eff. cbn.
      split; [reflexivity|]. split; [apply lookup_remove|].
      split; [intros other Hne; now apply lookup_remove_other|].
      split; [discriminate|]. split.
      * intros m' l' Hm' Hl'. injection Hm' as <-. injection Hl' as <-.
        intros Hin. apply filter_In in Hin. destruct Hin as [_ Hk].
        cbn in Hk. now rewrite !Nat.eqb_refl in Hk.
      * unfold removeLayer, bind, get. cbn. now rewrite lookup_remove.
    + destruct (Hinv Hm) as [Hlayers _]. rewrite Hlayers in Hl. discriminate Hl.
  - cbn. split; [reflexivity|]. split; [exact Hl|].
    split; [reflexivity|]. split; [auto|]. split; [discriminate|].
    unfold removeLayer, bind, get. now rewrite Hl.
Qed.

Lemma removeLayer_forgets_witness :
  let '(s, w) :=
    run [DoCreateMap "map-a" "-15.4" "28.3" "12";
         DoAdd (AddCircle "-15.4" "28.3" "500" [])]
        initial (Leaflet.mkWorld [] ["map-a"] [] [] [] 0 [] 1700000000000 true Leaflet.no_geojson) in
  let '(result, s', w') := removeLayer "circle_1700000000000" s w in
  result = Ret VUndefined /\
  JSObject.lookup "circle_1700000000000" (layers s') = None /\
  (forall other, other <> "circle_1700000000000" ->
     JSObject.lookup other (layers s') = JSObject.lookup other (layers s)) /\
  (JSObject.lookup "circle_1700000000000" (layers s) = None -> s' = s /\ w' = w) /\
  (forall m l, map s = Some m ->
     JSObject.lookup "circle_1700000000000" (layers s) = Some l ->
     ~ In (m, handle l) (children w')) /\
  removeLayer "circle_1700000000000" s' w' = (Ret VUndefined, s', w').
Proof.
  exact (removeLayer_forgets
           [DoCreateMap "map-a" "-15.4" "28.3" "12";
            DoAdd (AddCircle "-15.4" "28.3" "500" [])]
           (Leaflet.mkWorld [] ["map-a"] [] [] [] 0 [] 1700000000000 true Leaflet.no_geojson)
           "circle_1700000000000" eq_refl eq_refl).
Defined.

Lemma circle_id (prefix : string) (s : State) (w : World) :
  fresh_id prefix s w = (Ret (prefix ++ "_" ++ decimal (now w)), s, w).
Proof. reflexivity. Qed.

(** What [addCircle] does when Leaflet accepts the circle. *)
Lemma addCircle_quiet (lat lng radius : number) (options : Options)
    (s : State) (w : World) (m : nat) :
  map s = Some m -> faults w = [] ->
  exists w',
    addCircle lat lng radius options s w =
    (Ret (VStr ("circle_" ++ decimal (now w))),
     set_layers
       (JSObject.assign ("circle_" ++ decimal (now w))
          (mkLayer (next w))
          (layers s)) s, w') /\
    children w' = (m, next w) :: children w /\
    faults w' = [] /\ next w' = S (next w) /\ now w' = now w.
Proof.
  intros Hm Hf. unfold addCircle. run_eff. rewrite Hm.
  rewrite construct_quiet by exact Hf. cbn beta iota.
  rewrite addTo_quiet by (cbn; exact Hf). cbn beta iota.
  rewrite circle_id. cbn beta iota.
  eexists. split; [reflexivity|]. cbn. auto.
Qed.

(** Identifiers are made of the clock: two circles added within the
    same millisecond get the same identifier.  The registry then holds
    the second circle only, and the first one, which no identifier
    reaches, stays on the map even through [clearMap]. *)
Theorem addCircle_same_millisecond (lat lng radius lat' lng' radius' : number)
    (options options' : Options) (s : State) (w : World) (m : nat) :
  map s = Some m -> faults w = [] -> registered_before s w ->
  let '(r1, s1, w1) := addCircle lat lng radius options s w in
  let '(r2, s2, w2) := addCircle lat' lng' radius' options' s1 w1 in
  let '(_, s3, w3) := clearMap s2 w2 in
  r1 = Ret (VStr ("circle_" ++ decimal (now w))) /\ r2 = r1 /\
  option_map handle (JSObject.lookup ("circle_" ++ decimal (now w)) (layers s2))
    = Some (S (next w)) /\
  ~ In (next w) (registered s2) /\
  In (m, next w) (children w2) /\
  In (m, next w) (children w3).
Proof.
  intros Hm Hf [Hlayers Hmarkers].
  destruct (addCircle_quiet lat lng radius options s w m Hm Hf)
    as [w1 [-> [Hc1 [Hf1 [Hn1 Ht1]]]]].
  destruct (addCircle_quiet lat' lng' radius' options'
              (set_layers (JSObject.assign ("circle_" ++ decimal (now w))
                 (mkLayer (next w))
                 (layers s)) s) w1 m Hm Hf1)
    as [w2 [-> [Hc2 [Hf2 [Hn2 Ht2]]]]].
  rewrite Ht1, Hn1.
  assert (Hunreached : ~ In (next w)
            (registered
               (set_layers
                  (JSObject.assign ("circle_" ++ decimal (now w))
                     (mkLayer (S (next w)))
                     (JSObject.assign ("circle_" ++ decimal (now w))
                        (mkLayer (next w))
                        (layers s))) s))).
  { unfold registered. cbn. intros Hin. apply in_app_or in Hin.
    destruct Hin as [Hin | Hin].
    - apply in_map_iff in Hin. destruct Hin as [l [Hh Hin]].
      apply values_assign_twice in Hin. destruct Hin as [-> | Hin].
      + cbn in Hh. lia.
      + rewrite Forall_forall in Hlayers. apply Hlayers in Hin. lia.
    - rewrite Forall_forall in Hmarkers. apply Hmarkers in Hin. lia. }
  rewrite (gis_clearMap_children _ _ m) by exact Hm. cbn [children set_children].
  split; [reflexivity|]. split; [reflexivity|].
  split; [cbn; now rewrite lookup_assign|].
  split; [exact Hunreached|].
  assert (Hon : In (m, next w) (children w2))
    by (rewrite Hc2, Hc1; right; now left).
  split; [exact Hon|].
  unfold registered in Hunreached. cbn in Hunreached.
  apply without_kept.
  - intros Hin. apply Hunreached. apply in_or_app. now right.
  - apply without_kept; [|exact Hon].
    intros Hin. apply Hunreached. apply in_or_app. now left.
Qed.

Lemma addCircle_same_millisecond_witness :
  let '(r1, s1, w1) :=
    addCircle "-15.4" "28.3" "500" [] (mkState (Some 0) [] [] None None None None None)
              (Leaflet.mkWorld [] ["map-a"] [(0, "map-a")] [] [] 1 [] 1700000000000 true Leaflet.no_geojson) in
  let '(r2, s2, w2) := addCircle "-12.9" "28.6" "250" [] s1 w1 in
  let '(_, s3, w3) := clearMap s2 w2 in
  r1 = Ret (VStr "circle_1700000000000") /\ r2 = r1 /\
  option_map handle (JSObject.lookup "circle_1700000000000" (layers s2)) = Some 2 /\
  ~ In 1 (registered s2) /\ In (0, 1) (children w2) /\ In (0, 1) (children w3).
Proof.
  apply (addCircle_same_millisecond "-15.4" "28.3" "500" "-12.9" "28.6" "250" [] []
           (mkState (Some 0) [] [] None None None None None)
           (Leaflet.mkWorld [] ["map-a"] [(0, "map-a")] [] [] 1 [] 1700000000000 true Leaflet.no_geojson) 0).
  - reflexivity.
  - reflexivity.
  - split; apply Forall_nil.
Defined.

Lemma base_tiles_without_key (apiKey : option string) :
  truthy apiKey = false -> base_tiles "mapbox-satellite" apiKey = None.
Proof.
  intros Hk. unfold base_tiles. cbn [String.eqb Ascii.eqb Bool.eqb orb].
  destruct apiKey as [key|]; [|reflexivity]. now rewrite Hk.
Qed.

(** The base layer is taken off the map before the key is looked at:
    asking for Mapbox imagery without a key leaves the map with no base
    layer, creates nothing, and [currentBaseLayer] still names the layer
    that was removed. *)
Theorem changeBaseMap_without_key (apiKey : option string) (s : State) (w : World)
    (m base : nat) :
  map s = Some m -> currentBaseLayer s = Some base -> truthy apiKey = false ->
  let '(result, s', w') := changeBaseMap "mapbox-satellite" apiKey s w in
  result = Ret VUndefined /\
  s' = s /\
  ~ In (m, base) (children w') /\
  objects w' = objects w /\
  console w' = (console w ++ [(ERROR, "Mapbox requires an API key")])%list.
Proof.
  intros Hm Hbase Hk. unfold changeBaseMap. run_eff.
  rewrite Hm, Hbase, (base_tiles_without_key apiKey Hk). cbn.
  repeat split.
  intros Hin. apply filter_In in Hin. destruct Hin as [_ Hkeep].
  cbn in Hkeep. now rewrite !Nat.eqb_refl in Hkeep.
Qed.

Lemma changeBaseMap_without_key_witness :
  let s := mkState (Some 0) [] [] (Some 1) None None None None in
  let w := Leaflet.mkWorld [] ["map-a"] [(0, "map-a")] [] [(0, 1)] 2 [] 0 true Leaflet.no_geojson in
  let '(result, s', w') := changeBaseMap "mapbox-satellite" (Some "") s w in
  result = Ret VUndefined /\
  s' = s /\
  ~ In (0, 1) (children w') /\
  objects w' = objects w /\
  console w' = (console w ++ [(ERROR, "Mapbox requires an API key")])%list.
Proof.
  apply (changeBaseMap_without_key (Some "")
           (mkState (Some 0) [] [] (Some 1) None None None None)
           (Leaflet.mkWorld [] ["map-a"] [(0, "map-a")] [] [(0, 1)] 2 [] 0 true Leaflet.no_geojson) 0 1);
    reflexivity.
Defined.

(** What [changeBaseMap] does when Leaflet accepts the layers: the
    layers on the map afterwards are those that were there, without the
    base layer, under the ones just created. *)
Lemma changeBaseMap_quiet (mapType : string) (apiKey : option string)
    (s : State) (w : World) (m : nat) :
  map s = Some m -> faults w = [] ->
  exists s' w' added,
    changeBaseMap mapType apiKey s w = (Ret VUndefined, s', w') /\
    map s' = Some m /\ faults w' = [] /\
    children w' =
      (added ++
       match currentBaseLayer s with
       | Some base => filter (without m [base]) (children w)
       | None => children w
       end)%list /\
    (forall c, In c added -> next w <= snd c) /\
    (currentBaseLayer s' = currentBaseLayer s \/ currentBaseLayer s' = Some (next w)).
Proof.
  intros Hm Hf. unfold changeBaseMap. unfold bind at 1. unfold get at 1. rewrite Hm.
  unfold bind at 1.
  assert (Hfirst :
    (match currentBaseLayer s with
     | Some base => lift (Leaflet.removeLayer m base)
     | None => ret tt
     end) s w =
    (Ret tt, s,
     set_children
       match currentBaseLayer s with
       | Some base => filter (without m [base]) (children w)
       | None => children w
       end w)).
  { destruct (currentBaseLayer s) as [base|].
    - unfold lift, Leaflet.removeLayer. f_equal. f_equal. apply filter_ext.
      intros [p c]. unfold without. cbn. now rewrite orb_false_r.
    - unfold ret. now destruct w. }
  rewrite Hfirst. clear Hfirst.
  destruct (base_tiles mapType apiKey) as [tiles|].
  - run_eff. unfold construct_const, allocate. cbn.
    unfold addTo, validate. cbn. rewrite Hf.
    destruct (mapType =? "hybrid")%string; cbn; rewrite ?Hf; cbn.
    + exists (set_currentBaseLayer (Some (next w)) s). eexists.
      exists [(m, S (next w)); (m, next w)].
      split; [reflexivity|]. cbn. split; [exact Hm|]. split; [first [exact Hf | reflexivity]|].
      split; [reflexivity|]. split; [|now right].
      intros c [<- | [<- | []]]; cbn; lia.
    + exists (set_currentBaseLayer (Some (next w)) s). eexists.
      exists [(m, next w)].
      split; [reflexivity|]. cbn. split; [exact Hm|]. split; [first [exact Hf | reflexivity]|].
      split; [reflexivity|]. split; [|now right].
      intros c [<- | []]; cbn; lia.
  - run_eff. cbn. exists s. eexists. exists [].
    split; [reflexivity|]. cbn. split; [exact Hm|]. split; [first [exact Hf | reflexivity]|].
    split; [reflexivity|]. split; [intros c []|now left].
Qed.

(** The labels overlay of the hybrid base map is kept in no variable:
    once added it stays on the map, whatever base map is chosen next. *)
Theorem hybrid_labels_stay (apiKey apiKey' : option string) (mapType : string)
    (s : State) (w : World) (m : nat) :
  map s = Some m -> faults w = [] ->
  let '(_, s1, w1) := changeBaseMap "hybrid" apiKey s w in
  let '(_, s2, w2) := changeBaseMap mapType apiKey' s1 w1 in
  currentBaseLayer s1 = Some (next w) /\
  nth_error (objects w1) 0 =
    Some (S (next w),
          ("tileLayer",
           [("url", "https://{s}.basemaps.cartocdn.com/light_only_labels/{z}/{x}/{y}.png");
            ("attribution", "CARTO"); ("maxZoom", "19"); ("pane", "shadowPane")])) /\
  In (m, S (next w)) (children w1) /\
  ~ In (m, next w) (children w2) /\
  In (m, S (next w)) (children w2) /\
  currentBaseLayer s2 <> Some (S (next w)).
Proof.
  intros Hm Hf.
  assert (Hfirst : exists c1,
    changeBaseMap "hybrid" apiKey s w =
    (Ret VUndefined, set_currentBaseLayer (Some (next w)) s,
     Leaflet.mkWorld (console w) (document w) (live w)
       ((S (next w),
         ("tileLayer",
          [("url", "https://{s}.basemaps.cartocdn.com/light_only_labels/{z}/{x}/{y}.png");
           ("attribution", "CARTO"); ("maxZoom", "19"); ("pane", "shadowPane")]))
        :: (next w, ("tileLayer",
              [("url", ESRI_IMAGERY); ("attribution", "Esri, DigitalGlobe");
               ("maxZoom", "19")])) :: objects w)
       ((m, S (next w)) :: (m, next w) :: c1) (S (S (next w))) [] (now w)
       (heat_plugin w) (geojson w)) /\
    forall c, In c c1 -> In c (children w)).
  { unfold changeBaseMap. run_eff. rewrite Hm.
    change (base_tiles "hybrid" apiKey) with
      (Some [("url", ESRI_IMAGERY); ("attribution", "Esri, DigitalGlobe");
             ("maxZoom", "19")]).
    destruct (currentBaseLayer s) as [base|]; cbn;
      unfold construct_const, allocate, addTo, validate; cbn; rewrite Hf; cbn;
      rewrite ?Hf; cbn; eexists; (split; [reflexivity|]).
    - intros c Hin. apply filter_In in Hin. tauto.
    - auto. }
  destruct Hfirst as [c1 [-> Hc1]].
  match goal with
  | |- context [changeBaseMap mapType apiKey' ?s1 ?w1] =>
      destruct (changeBaseMap_quiet mapType apiKey' s1 w1 m)
        as [s2 [w2 [added [Hrun [Hm2 [Hf2 [Hch [Hadded Hbase]]]]]]]];
      [exact Hm | reflexivity |]
  end.
  rewrite Hrun.
  cbn [children next currentBaseLayer set_currentBaseLayer] in Hch, Hadded, Hbase.
  cbn [children next objects currentBaseLayer set_currentBaseLayer nth_error].
  split; [reflexivity|]. split; [reflexivity|]. split; [now left|].
  rewrite Hch. split; [|split].
  - intros Hin. apply in_app_or in Hin. destruct Hin as [Hin | Hin].
    + apply Hadded in Hin. cbn in Hin. lia.
    + apply filter_In in Hin. destruct Hin as [_ Hkeep].
      unfold without in Hkeep. cbn in Hkeep. now rewrite !Nat.eqb_refl in Hkeep.
  - apply in_or_app. right. apply without_kept.
    + intros [Heq | []]. lia.
    + now left.
  - destruct Hbase as [-> | ->]; intros Heq; injection Heq; lia.
Qed.

Lemma hybrid_labels_stay_witness :
  let s := mkState (Some 0) [] [] (Some 1) None None None None in
  let w := Leaflet.mkWorld [] ["map-a"] [(0, "map-a")] [] [(0, 1)] 2 [] 0 true Leaflet.no_geojson in
  let '(_, s1, w1) := changeBaseMap "hybrid" None s w in
  let '(_, s2, w2) := changeBaseMap "osm" None s1 w1 in
  currentBaseLayer s1 = Some 2 /\
  nth_error (objects w1) 0 =
    Some (3,
          ("tileLayer",
           [("url", "https://{s}.basemaps.cartocdn.com/light_only_labels/{z}/{x}/{y}.png");
            ("attribution", "CARTO"); ("maxZoom", "19"); ("pane", "shadowPane")])) /\
  In (0, 3) (children w1) /\
  ~ In (0, 2) (children w2) /\
  In (0, 3) (children w2) /\
  currentBaseLayer s2 <> Some 3.
Proof.
  apply (hybrid_labels_stay None None "osm"
           (mkState (Some 0) [] [] (Some 1) None None None None)
           (Leaflet.mkWorld [] ["map-a"] [(0, "map-a")] [] [(0, 1)] 2 [] 0 true Leaflet.no_geojson) 0);
    reflexivity.
Defined.

End GisRegistry.

(** * The Blazor wrapper: clearing keeps the base tiles *)

Section WrapperClearMap.
Import Leaflet LeafletWrapper.

Lemma validate_keeps (w w1 : World) (o : Outcome unit) :
  validate w = (o, w1) ->
  next w1 = next w /\ children w1 = children w /\ objects w1 = objects w /\
  live w1 = live w /\ document w1 = document w.
Proof.
  unfold validate. destruct (faults w) as [|[|] rest]; intros H;
    injection H as <- <-; cbn; auto.
Qed.

Lemma L_map_made (elementId : string) (w w1 : World) (h : nat) :
  L_map elementId w = (Ret h, w1) ->
  h = next w /\ next w1 = S (next w) /\ children w1 = children w /\
  objects w1 = (next w, ("map", [])) :: objects w.
Proof.
  unfold L_map. destruct (validate w) as [[u|e] w0] eqn:Hv; [|discriminate].
  apply validate_keeps in Hv. destruct Hv as [Hn [Hc [Ho _]]].
  destruct (negb (existsb (String.eqb elementId) (document w0))); [discriminate|].
  destruct (container_in_use elementId w0); [discriminate|].
  unfold allocate. cbn. intros H. injection H as <- <-. cbn.
  rewrite Hn, Hc, Ho. auto.
Qed.

Lemma move_view_moved (m h : nat) (w w1 : World) :
  move_view m w = (Ret h, w1) ->
  h = m /\ next w1 = next w /\ children w1 = children w /\ objects w1 = objects w.
Proof.
  unfold move_view. destruct (validate w) as [[u|e] w0] eqn:Hv; [|discriminate].
  apply validate_keeps in Hv. destruct Hv as [Hn [Hc [Ho _]]].
  intros H. injection H as <- <-. auto.
Qed.

Lemma map_remove_keeps (m : nat) (w w1 : World) (o : Outcome unit) :
  map_remove m w = (o, w1) -> next w1 = next w /\ objects w1 = objects w.
Proof.
  unfold map_remove. destruct (validate w) as [[u|e] w0] eqn:Hv;
    apply validate_keeps in Hv; destruct Hv as [Hn [_ [Ho _]]];
    intros H; injection H as <- <-; cbn; auto.
Qed.

Lemma addTo_keeps (layer : nat) (parent : option nat) (w w1 : World) (o : Outcome nat) :
  addTo layer parent w = (o, w1) ->
  next w1 = next w /\ objects w1 = objects w /\
  (forall x, In x (children w) -> In x (children w1)) /\
  (forall h p, o = Ret h -> parent = Some p -> h = layer /\ In (p, layer) (children w1)).
Proof.
  unfold addTo. destruct parent as [p|].
  - destruct (validate w) as [[u|e] w0] eqn:Hv;
      apply validate_keeps in Hv; destruct Hv as [Hn [Hc [Ho _]]];
      intros H; injection H as <- <-; cbn; rewrite ?Hc.
    + split; [exact Hn|]. split; [exact Ho|].
      split; [intros x Hx; right; exact Hx|].
      intros h p' Hh Hp. injection Hh as <-. injection Hp as <-.
      split; [reflexivity | now left].
    + split; [exact Hn|]. split; [exact Ho|].
      split; [intros x Hx; exact Hx|]. intros h p' Hh. discriminate Hh.
  - intros H. injection H as <- <-.
    split; [reflexivity|]. split; [reflexivity|].
    split; [intros x Hx; exact Hx|]. intros h p' Hh. discriminate Hh.
Qed.

Lemma construct_grows (kind : string) (options : Options) (w w1 : World)
    (o : Outcome nat) :
  construct kind options w = (o, w1) ->
  (forall x, In x (children w) -> In x (children w1)) /\
  (forall x, In x (objects w) -> In x (objects w1)).
Proof.
  unfold construct. destruct (validate w) as [[u|e] w0] eqn:Hv;
    apply validate_keeps in Hv; destruct Hv as [Hn [Hc [Ho _]]];
    unfold allocate; intros H; injection H as <- <-; cbn; rewrite ?Hc, ?Ho; auto.
Qed.

Lemma addTo_grows (layer : nat) (parent : option nat) (w w1 : World) (o : Outcome nat) :
  addTo layer parent w = (o, w1) ->
  (forall x, In x (children w) -> In x (children w1)) /\
  (forall x, In x (objects w) -> In x (objects w1)).
Proof.
  intros H. apply addTo_keeps in H. destruct H as [_ [Ho [Hc _]]].
  rewrite Ho. auto.
Qed.

Ltac returned :=
  let H := fresh "H" in
  intros H; try discriminate H; injection H as <- <- <-.

(** [createMap] once the map held before is removed, in the world [w0]
    the removal left. *)
Ltac created w0 Hn0 :=
  destruct (L_map _ w0) as [[a0|e] wa] eqn:HL; [|discriminate];
  apply L_map_made in HL; destruct HL as [-> [Hn1 [Hc1 Ho1]]];
  destruct (move_view (next w0) wa) as [[a1|e] wb] eqn:HM; [|discriminate];
  apply move_view_moved in HM; destruct HM as [-> [Hn2 [Hc2 Ho2]]];
  unfold construct_const at 1; unfold allocate at 1; cbn beta iota;
  destruct (addTo _ _ _) as [[a3|e] wc] eqn:HA; [|discriminate];
  apply addTo_keeps in HA; destruct HA as [Hn3 [Ho3 [Hc3 Hin3]]];
  destruct (Hin3 _ _ eq_refl eq_refl) as [_ Htiles]; cbn in Hn3, Ho3, Htiles;
  unfold construct_const, allocate; cbn beta iota;
  destruct (addTo _ _ _) as [[a5|e] wd] eqn:HB; [|discriminate];
  apply addTo_keeps in HB; destruct HB as [Hn5 [Ho5 [Hc5 Hin5]]];
  destruct (Hin5 _ _ eq_refl eq_refl) as [-> Hgroup];
  cbn in Hn5, Ho5, Hc5, Hgroup;
  returned;
  rewrite Hn3, Hn2, Hn1, ?Hn0 in *;
  (split; [reflexivity|]);
  (split; [apply Hc5; exact Htiles|]);
  (split; [exact Hgroup|]);
  rewrite Ho5; right; rewrite Ho3; now left.

(** What a successful [createMap] leaves: the map, its tile layer and
    its layer group are the three objects it created, in this order. *)
Lemma createMap_created (elementId : string) (lat lng zoom : number)
    (s s1 : State) (w w1 : World) (v : Value) :
  createMap elementId lat lng zoom s w = (Ret v, s1, w1) ->
  s1 = set_layerGroup (Some (S (S (next w)))) (set_map (Some (next w)) s) /\
  In (next w, S (next w)) (children w1) /\
  In (next w, S (S (next w))) (children w1) /\
  In (S (next w), ("tileLayer", TILE_OPTIONS)) (objects w1).
Proof.
  unfold createMap. run_eff.
  destruct (map s) as [m|]; cbn beta iota.
  - destruct (map_remove m w) as [[[]|e] w0] eqn:Hr; [|discriminate].
    apply map_remove_keeps in Hr. destruct Hr as [Hn0 _].
    created w0 Hn0.
  - created w Hn0.
Qed.

(** An add-overlay call leaves the variables of the module alone, and
    takes nothing off a map or out of a group. *)
Lemma add_keeps (c : AddCall) (s s' : State) (w w' : World) (r : Outcome Value) :
  add c s w = (r, s', w') ->
  s' = s /\
  (forall x, In x (children w) -> In x (children w')) /\
  (forall x, In x (objects w) -> In x (objects w')).
Proof.
  destruct c;
    unfold add, addMarker, addCircle, addPolygon, addPolyline, addGeoJson,
      not_initialized, bindPopup;
    run_eff;
    (destruct (map s) as [m|]; [|intros H; injection H as <- <- <-; cbn; auto]);
    destruct (construct _ _ _) as [[h|e] wa] eqn:HC;
    apply construct_grows in HC; destruct HC as [Hc1 Ho1];
    try (intros H; injection H as <- <- <-; now auto);
    repeat match goal with
           | |- context [match ?p with Some _ => _ | None => _ end] => destruct p
           | |- context [if ?b then _ else _] => destruct b
           end;
    cbn beta iota;
    destruct (addTo _ _ _) as [[h'|e'] wb] eqn:HA;
    apply addTo_grows in HA; destruct HA as [Hc2 Ho2];
    intros H; injection H as <- <- <-; auto.
Qed.

Lemma add_each_keeps (cs : list AddCall) (s : State) (w : World) :
  fst (add_each cs s w) = s /\
  (forall x, In x (children w) -> In x (children (snd (add_each cs s w)))) /\
  (forall x, In x (objects w) -> In x (objects (snd (add_each cs s w)))).
Proof.
  revert s w. induction cs as [|c cs IH]; intros s w; simpl.
  - auto.
  - destruct (add c s w) as [[r s'] w'] eqn:Hadd.
    apply add_keeps in Hadd. destruct Hadd as [-> [Hc Ho]].
    destruct (IH s w') as [Hs [Hc' Ho']]. auto.
Qed.

(** [clearMap] after any overlays were added to a map [createMap] made:
    the layer group is empty, and it and the base tiles are still on
    the map.  Nothing is asked of Leaflet on the way: overlays it
    refused were not added, and the clearing itself cannot throw. *)
Theorem clearMap_keeps_base_tiles (elementId : string) (lat lng zoom : number)
    (cs : list AddCall) (s s1 : State) (w w1 : World) (v : Value) :
  drawnItems s = None ->
  createMap elementId lat lng zoom s w = (Ret v, s1, w1) ->
  let '(s2, w2) := add_each cs s1 w1 in
  let '(result, s3, w3) := clearMap s2 w2 in
  result = Ret VUndefined /\
  s3 = s1 /\
  map s3 = Some (next w) /\
  layerGroup s3 = Some (S (S (next w))) /\
  In (S (next w), ("tileLayer", TILE_OPTIONS)) (objects w3) /\
  In (next w, S (next w)) (children w3) /\
  In (next w, S (S (next w))) (children w3) /\
  forall overlay, ~ In (S (S (next w)), overlay) (children w3).
Proof.
  intros Hdrawn Hcreate. apply createMap_created in Hcreate.
  destruct Hcreate as [-> [Htiles [Hgroup Hobject]]].
  destruct (add_each_keeps cs
              (set_layerGroup (Some (S (S (next w)))) (set_map (Some (next w)) s)) w1)
    as [Hs [Hc Ho]].
  destruct (add_each cs _ w1) as [s2 w2]. cbn [fst snd] in *. subst s2.
  unfold clearMap. run_eff. cbn. rewrite Hdrawn. cbn.
  repeat (split; [reflexivity|]).
  split; [apply Ho, Hobject|].
  assert (Hkeep : forall h, h <> S (S (next w)) -> In (next w, h) (children w2) ->
            In (next w, h)
               (filter (fun c => negb (fst c =? S (S (next w)))%nat) (children w2))).
  { intros h Hne Hin. apply filter_In. split; [exact Hin|].
    cbn. apply negb_true_iff, Nat.eqb_neq. lia. }
  split; [apply filter_In; split; [apply Hc, Htiles|]|].
  { cbn. apply negb_true_iff, Nat.eqb_neq. lia. }
  split; [apply filter_In; split; [apply Hc, Hgroup|]|].
  { cbn. apply negb_true_iff, Nat.eqb_neq. lia. }
  intros overlay Hin. apply filter_In in Hin. destruct Hin as [_ Hkept].
  cbn in Hkept. now rewrite Nat.eqb_refl in Hkept.
Qed.

Lemma clearMap_keeps_base_tiles_witness :
  let '(s2, w2) :=
    add_each [AddMarker "-15.4" "28.3" (Some "Civic Centre");
              AddCircle "-15.4" "28.3" "500" []]
      (mkState (Some 0) None None None (Some 2))
      (Leaflet.mkWorld [] ["map-a"] [(0, "map-a")]
         [(2, ("layerGroup", [])); (1, ("tileLayer", TILE_OPTIONS)); (0, ("map", []))]
         [(0, 2); (0, 1)] 3 [true] 0 true Leaflet.no_geojson) in
  let '(result, s3, w3) := clearMap s2 w2 in
  result = Ret VUndefined /\
  s3 = mkState (Some 0) None None None (Some 2) /\
  map s3 = Some 0 /\
  layerGroup s3 = Some 2 /\
  In (1, ("tileLayer", TILE_OPTIONS)) (objects w3) /\
  In (0, 1) (children w3) /\
  In (0, 2) (children w3) /\
  forall overlay, ~ In (2, overlay) (children w3).
Proof.
  assert (Hcreate :
    createMap "map-a" "-15.4" "28.3" "12" initial
      (Leaflet.mkWorld [] ["map-a"] [] [] [] 0 [false; false; false; false; true] 0 true Leaflet.no_geojson)
    = (Ret VUndefined, mkState (Some 0) None None None (Some 2),
       Leaflet.mkWorld [] ["map-a"] [(0, "map-a")]
         [(2, ("layerGroup", [])); (1, ("tileLayer", TILE_OPTIONS)); (0, ("map", []))]
         [(0, 2); (0, 1)] 3 [true] 0 true Leaflet.no_geojson))
    by (vm_compute; reflexivity).
  exact (clearMap_keeps_base_tiles "map-a" "-15.4" "28.3" "12"
           [AddMarker "-15.4" "28.3" (Some "Civic Centre");
            AddCircle "-15.4" "28.3" "500" []]
           initial _ _ _ VUndefined eq_refl Hcreate).
Defined.

End WrapperClearMap.
